(** * Gesture classifier, particle integrator and photo grab controller

    A shallow embedding of [handRecognition.ts], [types.ts] and the two
    scene components [MagicParticles] and [FloatingPhotos], followed by the
    properties of the specification stated against it.

    Numbers.  A JavaScript [number] is modelled as a real number of the
    Standard Library: [Math.sqrt], [Math.sin], [Math.cos] and [Math.PI] are
    [sqrt], [sin], [cos] and [PI], and the comparison [a < b] is the
    decision [Rlt_dec a b].  The theorems speak about this exact
    arithmetic, except those on scale invariance of the classifier and on
    convergence of the particle integrator, which depend on rounding: for
    them the same code is given on binary64 values ([Binary64]) and with
    every operation rounded ([Rounded]).  NaN and infinities are not
    modelled.

    Exceptions.  Reading a property of [undefined] throws a [TypeError];
    code that can do so returns a [completion]. *)

From Stdlib Require Import Reals Lra Lia List String Bool Arith.
From Stdlib Require Floats.PrimFloat.
Import ListNotations.

Open Scope R_scope.

(* ================================================================== *)
(** ** JavaScript preliminaries *)

Definition Rltb (a b : R) : bool := if Rlt_dec a b then true else false.
Definition Rgtb (a b : R) : bool := Rltb b a.

Inductive JsError : Type := TypeError.

Inductive completion (A : Type) : Type :=
| Normal (a : A)
| Throw (e : JsError).
Arguments Normal {A} a.
Arguments Throw {A} e.

Definition bind {A B : Type} (c : completion A) (k : A -> completion B)
  : completion B :=
  match c with
  | Normal a => k a
  | Throw e => Throw e
  end.

Declare Scope js_scope.
Delimit Scope js_scope with js.
Notation "x <- c ;; k" := (bind c (fun x => k))
  (at level 61, c at next level, right associativity) : js_scope.

(** [Array.prototype.filter] with a predicate that may throw. *)
Fixpoint filterM {A : Type} (f : A -> completion bool) (l : list A)
  : completion (list A) :=
  match l with
  | [] => Normal []
  | a :: l' =>
      (keep <- f a ;;
       rest <- filterM f l' ;;
       Normal (if keep then a :: rest else rest))%js
  end.

(** [Math.pow(b, 2)] and [Math.pow(b, 3)]. *)
Definition Math_pow (b : R) (e : nat) : R := b ^ e.

(* ================================================================== *)
(** ** three.js: the part of [Vector3] and [MathUtils] the components use *)

Module THREE.

Record Vector3 : Type := vec3 { x : R; y : R; z : R }.

(** [new THREE.Vector3()] *)
Definition zero : Vector3 := vec3 0 0 0.

(** [a.add(b)]: componentwise sum. *)
Definition add (a b : Vector3) : Vector3 :=
  vec3 (x a + x b) (y a + y b) (z a + z b).

(** [a.distanceTo(b)]: Euclidean distance. *)
Definition distanceTo (a b : Vector3) : R :=
  let dx := x a - x b in
  let dy := y a - y b in
  let dz := z a - z b in
  sqrt (dx * dx + dy * dy + dz * dz).

(** [a.lerp(v, alpha)]: [a.x += (v.x - a.x) * alpha], same for y and z. *)
Definition lerp (a v : Vector3) (alpha : R) : Vector3 :=
  vec3 (x a + (x v - x a) * alpha)
       (y a + (y v - y a) * alpha)
       (z a + (z v - z a) * alpha).

Module MathUtils.
(** [MathUtils.lerp(x, y, t)] is [(1 - t) * x + t * y]. *)
Definition lerp (a b t : R) : R := (1 - t) * a + t * b.
End MathUtils.

End THREE.

(* ================================================================== *)
(** ** types.ts *)

Inductive AppState : Type := TREE | SCATTER | HEART | PHOTO_VIEW.

Inductive GestureType : Type := NONE | OPEN_PALM | CLOSED_FIST | PINCH.

Definition AppState_eqb (a b : AppState) : bool :=
  match a, b with
  | TREE, TREE | SCATTER, SCATTER | HEART, HEART
  | PHOTO_VIEW, PHOTO_VIEW => true
  | _, _ => false
  end.

Definition GestureType_eqb (a b : GestureType) : bool :=
  match a, b with
  | NONE, NONE | OPEN_PALM, OPEN_PALM | CLOSED_FIST, CLOSED_FIST
  | PINCH, PINCH => true
  | _, _ => false
  end.

(** [THREE.Color], kept symbolic: a colour given by its hex string or a
    colour dimmed by [multiplyScalar]. *)
Inductive Color : Type :=
| ColorHex (hex : string)
| ColorScaled (c : Color) (k : R).

Record ParticleData : Type := mkParticle {
  id : Z;
  initialPos : THREE.Vector3;
  treePos : THREE.Vector3;
  heartPos : THREE.Vector3;
  scatterPos : THREE.Vector3;
  ribbonPos : option THREE.Vector3;
  isRibbon : bool;
  isTrunk : bool;
  color : Color;
  size : R;
  speed : R;
  phase : R
}.

Record PhotoData : Type := mkPhoto {
  photoId : string;
  url : string;
  position : THREE.Vector3
}.

(* ================================================================== *)
(** ** handRecognition.ts *)

Module HandRecognition.

(** One joint of a detected hand. *)
Record NormalizedLandmark : Type := landmark { x : R; y : R; z : R }.

(** [HandLandmarkerResult]: [landmarks] holds one list of joints per
    detected hand, or is absent. *)
Record HandLandmarkerResult : Type := mkResult {
  landmarks : option (list (list NormalizedLandmark))
}.

Record Point2 : Type := point2 { px : R; py : R }.

Record GestureResult : Type := mkGesture {
  type : GestureType;
  handCenter : option Point2;
  pinchDistance : R
}.

(** Reading a property of [landmarks[i]]: a [TypeError] when the joint
    is [undefined]. *)
Definition deref (p : option NormalizedLandmark)
  : completion NormalizedLandmark :=
  match p with
  | Some l => Normal l
  | None => Throw TypeError
  end.

(** The 2D distance helper. *)
Definition dist (p1 p2 : option NormalizedLandmark) : completion R :=
  (a <- deref p1 ;;
   b <- deref p2 ;;
   Normal (sqrt (Math_pow (x a - x b) 2 + Math_pow (y a - y b) 2)))%js.

Definition safeScaleOf (palmSize : R) : R :=
  if Rltb palmSize 0.01 then 0.01 else palmSize.

Definition classifyHand (landmarks : list NormalizedLandmark)
  : completion GestureResult :=
  let thumbTip := nth_error landmarks 4 in
  let indexTip := nth_error landmarks 8 in
  let middleTip := nth_error landmarks 12 in
  let ringTip := nth_error landmarks 16 in
  let pinkyTip := nth_error landmarks 20 in
  let middleMCP := nth_error landmarks 9 in
  let wrist := nth_error landmarks 0 in
  (palmSize <- dist wrist middleMCP ;;
   let safeScale := safeScaleOf palmSize in
   pinchDist <- dist thumbTip indexTip ;;
   let isPinchCandidate := Rltb pinchDist (safeScale * 0.65) in
   let isCurled := fun tip =>
     (d <- dist tip wrist ;; Normal (Rltb d (safeScale * 1.35)))%js in
   curledFingers <-
     filterM isCurled [indexTip; middleTip; ringTip; pinkyTip] ;;
   let curledCount := List.length curledFingers in
   if Nat.eqb curledCount 4 then
     w <- deref wrist ;;
     Normal (mkGesture CLOSED_FIST (Some (point2 (x w) (y w))) 1)
   else if isPinchCandidate then
     i <- deref indexTip ;;
     Normal (mkGesture PINCH (Some (point2 (x i) (y i))) pinchDist)
   else if Nat.leb curledCount 1 then
     m <- deref middleMCP ;;
     Normal (mkGesture OPEN_PALM (Some (point2 (x m) (y m))) 1)
   else
     Normal (mkGesture NONE None 1))%js.

Definition classifyGesture (result : HandLandmarkerResult)
  : completion GestureResult :=
  match landmarks result with
  | None => Normal (mkGesture NONE None 0)
  | Some [] => Normal (mkGesture NONE None 0)
  | Some (primary :: _) => classifyHand primary
  end.

(** *** Quantities named by the specification *)

(** Planar distance between two joints that are present. *)
Definition planar (a b : NormalizedLandmark) : R :=
  sqrt (Math_pow (x a - x b) 2 + Math_pow (y a - y b) 2).

(** The gesture tag of an outcome, [None] when the call threw. *)
Definition typeOf (c : completion GestureResult) : option GestureType :=
  match c with
  | Normal g => Some (type g)
  | Throw _ => None
  end.

(** Uniform scaling of a hand about its wrist (joint 0) by [k]. *)
Definition scaleAbout (w : NormalizedLandmark) (k : R)
           (p : NormalizedLandmark) : NormalizedLandmark :=
  landmark (x w + k * (x p - x w))
           (y w + k * (y p - y w))
           (z w + k * (z p - z w)).

Definition scaleHand (k : R) (hand : list NormalizedLandmark)
  : list NormalizedLandmark :=
  match hand with
  | [] => []
  | w :: _ => map (scaleAbout w k) hand
  end.

Definition scaleResult (k : R) (r : HandLandmarkerResult)
  : HandLandmarkerResult :=
  mkResult (option_map (map (scaleHand k)) (landmarks r)).

End HandRecognition.

(* ================================================================== *)
(** ** Arrays indexed by a JavaScript number *)

Open Scope Z_scope.

(** [arr[i]]: [None] stands for [undefined]. *)
Definition arrayGet {A : Type} (arr : list A) (i : Z) : option A :=
  if i <? 0 then None else nth_error arr (Z.to_nat i).

(** [arr.forEach((a, i) => ...)] where the callback rewrites the element;
    [i] is the index of the head of [arr]. *)
Fixpoint forEachFrom {A B : Type} (f : Z -> A -> B) (i : Z) (arr : list A)
  : list B :=
  match arr with
  | [] => []
  | a :: rest => f i a :: forEachFrom f (i + 1) rest
  end.

(** [arr.forEach((a, i) => ...)] where the callback updates a variable of
    the enclosing function. *)
Fixpoint foldFrom {A S : Type} (f : S -> Z -> A -> S) (s : S) (i : Z)
         (arr : list A) : S :=
  match arr with
  | [] => s
  | a :: rest => foldFrom f (f s i a) (i + 1) rest
  end.

Close Scope Z_scope.

(* ================================================================== *)
(** ** components/MagicParticles *)

Module MagicParticles.
Import THREE.

Definition COUNT : Z := 6000.
Definition RIBBON_COUNT : Z := 800.

Definition mixedPalette : list Color :=
  [ ColorHex "#D87093"; ColorHex "#FF69B4"; ColorHex "#FFB6C1";
    ColorHex "#FFFFFF"; ColorHex "#FFD700"; ColorHex "#FF1493" ].
Definition trunkColor : Color := ColorHex "#4A3728".
Definition ribbonColor : Color := ColorHex "#F8F8FF".

(** The value of [mixedPalette[k]] for an index outside the palette. *)
Definition colorUndefined : Color := ColorHex "undefined".

(** *** Particle generation

    [Math.random()] is an oracle: [random k] is the value of the k-th
    call.  A computation that draws random numbers threads the number of
    calls made so far. *)
Section Generate.
Variable random : nat -> R.

Definition Rand (A : Type) : Type := nat -> A * nat.

Definition ret {A : Type} (a : A) : Rand A := fun n => (a, n).

Definition rbind {A B : Type} (c : Rand A) (k : A -> Rand B) : Rand B :=
  fun n => let (a, n') := c n in k a n'.

Definition Math_random : Rand R := fun n => (random n, S n).

Notation "x <~ c ;; k" := (rbind c (fun x => k))
  (at level 61, c at next level, right associativity).

(** [Math.floor] *)
Definition Math_floor (r : R) : Z := Int_part r.

(** The body of the generation loop for index [i]. *)
Definition particleAt (i : Z) : Rand ParticleData :=
  let isRibbon := (i <? RIBBON_COUNT)%Z in
  r1 <~ Math_random ;;
  let theta := r1 * PI * 2 in
  r2 <~ Math_random ;;
  let height := r2 * 10 - 5 in
  let normalizedHeight := (height + 5) / 10 in
  let radiusAtHeight := (1 - normalizedHeight) * 3.5 in
  r3 <~ Math_random ;;
  let r := r3 * radiusAtHeight in
  let xTree := r * cos theta in
  let zTree := r * sin theta in
  let yTree := height in
  let isTrunk :=
    negb isRibbon && Rgtb (IZR i) (IZR COUNT - IZR COUNT * 0.1) in
  treePos0 <~
    (if isTrunk then
       a <~ Math_random ;;
       b <~ Math_random ;;
       c <~ Math_random ;;
       ret (vec3 ((a - 0.5) * 0.8) (b * 4 - 5) ((c - 0.5) * 0.8))
     else ret (vec3 xTree yTree zTree)) ;;
  let ribbonPos0 :=
    if isRibbon then
      let turns := 5 in
      let h := IZR i / IZR RIBBON_COUNT * 10 - 5 in
      let normH := (h + 5) / 10 in
      let spiralRadius := (1 - normH) * 4.2 in
      let angle := normH * PI * 2 * turns in
      vec3 (spiralRadius * cos angle) h (spiralRadius * sin angle)
    else zero in
  let treePos1 := if isRibbon then ribbonPos0 else treePos0 in
  r4 <~ Math_random ;;
  let t := r4 * PI * 2 in
  let hScale := 0.25 in
  r5 <~ Math_random ;;
  let xHeart :=
    hScale * (16 * Math_pow (sin t) 3) * (1 + (r5 - 0.5) * 0.2) in
  let yHeart :=
    hScale * (13 * cos t - 5 * cos (2 * t) - 2 * cos (3 * t)
              - cos (4 * t)) + 1 in
  r6 <~ Math_random ;;
  let zHeart := (r6 - 0.5) * 2 in
  let heartPos0 := vec3 xHeart yHeart zHeart in
  sx <~ Math_random ;;
  sy <~ Math_random ;;
  sz <~ Math_random ;;
  let scatterPos0 :=
    vec3 ((sx - 0.5) * 15) ((sy - 0.5) * 15) ((sz - 0.5) * 15) in
  color0 <~
    (if isRibbon then ret ribbonColor
     else if isTrunk then ret trunkColor
     else
       rc <~ Math_random ;;
       ret (match arrayGet mixedPalette
                    (Math_floor (rc * IZR (Z.of_nat
                                             (List.length mixedPalette))))
            with
            | Some c => c
            | None => colorUndefined
            end)) ;;
  rs <~ Math_random ;;
  let size0 := if isRibbon then rs * 0.12 + 0.08 else rs * 0.1 + 0.05 in
  rv <~ Math_random ;;
  rp <~ Math_random ;;
  ret {| id := i;
         initialPos := scatterPos0;
         treePos := treePos1;
         heartPos := heartPos0;
         scatterPos := scatterPos0;
         ribbonPos := if isRibbon then Some ribbonPos0 else None;
         isRibbon := isRibbon;
         isTrunk := isTrunk;
         color := color0;
         size := size0;
         speed := rv * 0.02 + 0.01;
         phase := rp * PI * 2 |}.

(** [for (let i = start; i < start + n; i++) tempParticles.push(...)] *)
Fixpoint generateFrom (n : nat) (i : Z) : Rand (list ParticleData) :=
  match n with
  | O => ret []
  | S n' =>
      p <~ particleAt i ;;
      rest <~ generateFrom n' (i + 1)%Z ;;
      ret (p :: rest)
  end.

(** The batch built by the generation effect. *)
Definition generateParticles : list ParticleData :=
  fst (generateFrom (Z.to_nat COUNT) 0%Z 0%nat).

End Generate.

(** *** The per-frame update *)

(** What [setMatrixAt] and [setColorAt] store for one instance. *)
Record Instance : Type := mkInstance {
  instPosition : Vector3;
  instScale : R;
  instColor : Color
}.

(** Ribbon flow: the spiral of the generator turned by [time * -0.5]. *)
Definition ribbonFlow (time : R) (rp : Vector3) : Vector3 :=
  let turns := 5 in
  let originalH := y rp in
  let angleOffset := time * -0.5 in
  let normH := (originalH + 5) / 10 in
  let spiralRadius := (1 - normH) * 4.2 in
  let angle := normH * PI * 2 * turns + angleOffset in
  vec3 (spiralRadius * cos angle) originalH (spiralRadius * sin angle).

(** The guard of the ribbon-flow branch. *)
Definition ribbonFlowGuard (appState : AppState) (p : ParticleData)
  : option Vector3 :=
  if AppState_eqb appState TREE && isRibbon p then ribbonPos p else None.

(** The target chosen from the application state. *)
Definition stateTarget (appState : AppState) (time : R) (p : ParticleData)
  : Vector3 :=
  if AppState_eqb appState SCATTER then scatterPos p
  else if AppState_eqb appState HEART then heartPos p
  else match ribbonFlowGuard appState p with
       | Some rp => ribbonFlow time rp
       | None => treePos p
       end.

(** The offset of the hand interaction. *)
Definition swirlOffset (time : R) (p : ParticleData) : Vector3 :=
  vec3 (cos (time + IZR (id p)) * 0.5) (sin (time + IZR (id p)) * 0.5) 0.

(** Whether the hand interaction applies to [p] in this frame. *)
Definition swirls (appState : AppState) (handPosition : option Vector3)
           (p : ParticleData) : bool :=
  match handPosition with
  | Some h =>
      if AppState_eqb appState SCATTER then
        let dist := distanceTo (initialPos p) h in
        Rltb dist 4
      else false
  | None => false
  end.

(** The target the particle is moved toward in this frame. *)
Definition frameTarget (appState : AppState)
           (handPosition : option Vector3) (time : R) (p : ParticleData)
  : Vector3 :=
  let target := stateTarget appState time p in
  if swirls appState handPosition p
  then add target (swirlOffset time p)
  else target.

Definition sway (time : R) (p : ParticleData) : R :=
  sin (time * 2 + phase p) * 0.05.

Definition withInitialPos (p : ParticleData) (v : Vector3) : ParticleData :=
  {| id := id p; initialPos := v; treePos := treePos p;
     heartPos := heartPos p; scatterPos := scatterPos p;
     ribbonPos := ribbonPos p; isRibbon := isRibbon p;
     isTrunk := isTrunk p; color := color p; size := size p;
     speed := speed p; phase := phase p |}.

(** The callback of [particles.forEach]: the particle after the frame
    and the instance written to the mesh at slot [i]. *)
Definition updateParticle (appState : AppState)
           (handPosition : option Vector3) (time : R) (i : Z)
           (p : ParticleData) : ParticleData * Instance :=
  let target := frameTarget appState handPosition time p in
  let sway := sway time p in
  let newPos := lerp (initialPos p) target 0.08 in
  let dummyPosition := vec3 (x newPos) (y newPos + sway) (z newPos) in
  let scaleBase := if isRibbon p then 1.2 else 1.0 in
  let scale := size p * scaleBase * (1 + sin (time * 5 + phase p) * 0.5) in
  let shown :=
    if negb (isRibbon p) && negb (isTrunk p) && (i mod 15 =? 0)%Z then
      let blink := Rgtb (sin (time * 3 + phase p)) 0 in
      if blink then color p else ColorScaled (color p) 0.4
    else color p in
  (withInitialPos p newPos, mkInstance dummyPosition scale shown).

(** [useFrame]: nothing happens until the mesh is mounted; otherwise every
    particle is updated in place and its instance is written. *)
Definition useFrame (meshMounted : bool) (appState : AppState)
           (handPosition : option Vector3) (time : R)
           (particles : list ParticleData)
  : list ParticleData * list Instance :=
  if negb meshMounted then (particles, [])
  else
    let out :=
      forEachFrom (updateParticle appState handPosition time) 0%Z
                  particles in
    (map fst out, map snd out).

(** The smoothing step of the integrator on a stored position. *)
Definition smooth (pos target : Vector3) : Vector3 := lerp pos target 0.08.

End MagicParticles.

(* ================================================================== *)
(** ** components/FloatingPhotos *)

Module FloatingPhotos.
Import THREE.

(** A rendered photo: the billboard's position and scale, and the
    [rotation.z] of its inner mesh when there is one. *)
Record Child : Type := mkChild {
  childPosition : Vector3;
  childScale : Vector3;
  innerRotationZ : option R
}.

(** The photo group: its children and its world transform. *)
Record Group : Type := mkGroup {
  children : list Child;
  localToWorld : Vector3 -> Vector3;
  worldToLocal : Vector3 -> Vector3
}.

(** [closestDist] starts at [Infinity]. *)
Inductive Distance : Type := Infinity | Finite (d : R).

Definition ltDistance (d : R) (c : Distance) : bool :=
  match c with
  | Infinity => true
  | Finite c' => Rltb d c'
  end.

(** One step of the search for the closest child. *)
Definition scanChild (g : Group) (photos : list PhotoData)
           (handPosition : Vector3) (acc : Distance * option string)
           (idx : Z) (child : Child) : Distance * option string :=
  match arrayGet photos idx with
  | None => acc
  | Some photo =>
      let tempVec := localToWorld g (childPosition child) in
      let dist := distanceTo handPosition tempVec in
      if Rltb dist 1.5 && ltDistance dist (fst acc)
      then (Finite dist, Some (photoId photo))
      else acc
  end.

(** The value of [closestId] after the interaction block. *)
Definition findClosest (g : Group) (photos : list PhotoData)
           (appState : AppState) (handPosition : option Vector3)
           (isPinching : bool) : option string :=
  match handPosition with
  | Some h =>
      if isPinching && AppState_eqb appState SCATTER
      then snd (foldFrom (scanChild g photos h) (Infinity, None) 0%Z
                         (children g))
      else None
  | None => None
  end.

(** Truthiness of [string | null]: [null] and the empty string are
    falsy. *)
Definition truthy (s : option string) : bool :=
  match s with
  | Some v => negb (String.eqb v EmptyString)
  | None => false
  end.

(** The new value of [activePhotoId.current]. *)
Definition updateActive (closestId : option string) (isPinching : bool)
           (active : option string) : option string :=
  if truthy closestId then closestId
  else if negb isPinching then None
  else active.

(** [activePhotoId.current === photo.id] *)
Definition isGrabbedBy (active : option string) (photo : PhotoData) : bool :=
  match active with
  | Some a => String.eqb a (photoId photo)
  | None => false
  end.

(** [targetPos] and [targetScale] of one photo. *)
Definition photoTarget (g : Group) (photo : PhotoData)
           (handPosition : option Vector3) (time : R) (isGrabbed : bool)
           (idx : Z) : Vector3 * R :=
  let home := position photo in
  match isGrabbed, handPosition with
  | true, Some h =>
      let localHand := worldToLocal g h in
      (add localHand (vec3 0 0 0.5), 4.0)
  | _, _ =>
      (vec3 (x home) (y home + sin (time + IZR idx) * 0.002) (z home), 0.35)
  end.

(** The callback of the animation loop. *)
Definition animateChild (g : Group) (photos : list PhotoData)
           (handPosition : option Vector3) (time : R)
           (active : option string) (idx : Z) (child : Child) : Child :=
  match arrayGet photos idx with
  | None => child
  | Some photo =>
      let isGrabbed := isGrabbedBy active photo in
      let '(targetPos, targetScale) :=
        photoTarget g photo handPosition time isGrabbed idx in
      let newPosition := lerp (childPosition child) targetPos 0.1 in
      let currentScale := x (childScale child) in
      let newScale := MathUtils.lerp currentScale targetScale 0.1 in
      mkChild newPosition (vec3 newScale newScale newScale)
              (match innerRotationZ child with
               | Some _ =>
                   Some (if negb isGrabbed
                         then sin (time * 0.5 + IZR idx) * 0.1
                         else 0)
               | None => None
               end)
  end.

(** [useFrame]: the group and [activePhotoId.current] after one frame. *)
Definition useFrame (groupRef : option Group) (photos : list PhotoData)
           (appState : AppState) (handPosition : option Vector3)
           (isPinching : bool) (time : R) (active : option string)
  : option Group * option string :=
  match groupRef with
  | None => (None, active)
  | Some g =>
      let closestId := findClosest g photos appState handPosition
                                   isPinching in
      let active' := updateActive closestId isPinching active in
      let children' :=
        forEachFrom (animateChild g photos handPosition time active') 0%Z
                    (children g) in
      (Some (mkGroup children' (localToWorld g) (worldToLocal g)), active')
  end.

(** [activePhotoId.current] after one frame. *)
Definition activeAfter (groupRef : option Group) (photos : list PhotoData)
           (appState : AppState) (handPosition : option Vector3)
           (isPinching : bool) (time : R) (active : option string)
  : option string :=
  snd (useFrame groupRef photos appState handPosition isPinching time
                active).

(** The inputs of one rendered frame with the photo group mounted. *)
Record Frame : Type := mkFrame {
  fGroup : Group;
  fPhotos : list PhotoData;
  fAppState : AppState;
  fHand : option Vector3;
  fPinching : bool;
  fTime : R
}.

(** [closestId] of a frame. *)
Definition closestOf (f : Frame) : option string :=
  findClosest (fGroup f) (fPhotos f) (fAppState f) (fHand f) (fPinching f).

(** [activePhotoId.current] after the frame [f]. *)
Definition step (active : option string) (f : Frame) : option string :=
  activeAfter (Some (fGroup f)) (fPhotos f) (fAppState f) (fHand f)
              (fPinching f) (fTime f) active.

(** [activePhotoId.current] after a sequence of frames. *)
Definition run (frames : list Frame) (active : option string)
  : option string :=
  fold_left step frames active.

(** The frame selects no photo other than [a]. *)
Definition noOtherCandidate (a : string) (f : Frame) : Prop :=
  truthy (closestOf f) = false \/ closestOf f = Some a.

(** The world distance from the hand to a rendered photo. *)
Definition handDistance (g : Group) (h : Vector3) (c : Child) : R :=
  distanceTo h (localToWorld g (childPosition c)).

End FloatingPhotos.

(* ================================================================== *)
(** ** App.tsx: from the classified gesture to the component inputs *)

Module App.

(** The hand anchor mapped into the scene. *)
Definition handPosOf (handCenter : option HandRecognition.Point2)
  : option THREE.Vector3 :=
  match handCenter with
  | Some c =>
      let x3d := (0.5 - HandRecognition.px c) * 10 in
      let y3d := (0.5 - HandRecognition.py c) * 8 in
      Some (THREE.vec3 x3d y3d 0)
  | None => None
  end.

Definition isPinchingOf (type : GestureType) : bool :=
  GestureType_eqb type PINCH.

(** The state machine driven by the gesture. *)
Definition nextAppState (type : GestureType) (appState : AppState)
  : AppState :=
  match type with
  | OPEN_PALM => SCATTER
  | CLOSED_FIST => TREE
  | _ => appState
  end.

(** The component state of [App] held by [useState]. *)
Record Model : Type := mkModel {
  appState : AppState;
  gesture : GestureType;
  photos : list PhotoData;
  handPos : option THREE.Vector3;
  isPinching : bool;
  loading : bool;
  cameraActive : bool
}.

(** The initial values of the [useState] hooks. *)
Definition initial : Model := mkModel TREE NONE [] None false true false.

(** The body of [if (result) { ... }] in [predictWebcam]; an exception of
    the classifier leaves the state as it was. *)
Definition applyDetection (result : HandRecognition.HandLandmarkerResult)
           (s : Model) : completion Model :=
  (g <- HandRecognition.classifyGesture result ;;
   Normal (mkModel (nextAppState (HandRecognition.type g) (appState s))
                   (HandRecognition.type g)
                   (photos s)
                   (handPosOf (HandRecognition.handCenter g))
                   (isPinchingOf (HandRecognition.type g))
                   (loading s)
                   (cameraActive s)))%js.

(** [predictWebcam]: [videoLive] says that the video element has a running
    stream, [detected] is the value of [handService.detect].  The boolean
    of the result says whether the next animation frame was requested. *)
Definition predictWebcam (videoLive : bool) (readyState : Z)
           (detected : option HandRecognition.HandLandmarkerResult)
           (s : Model) : completion (Model * bool) :=
  if negb videoLive then Normal (s, false)
  else if (readyState =? 4)%Z then
    match detected with
    | Some result =>
        (s' <- applyDetection result s ;; Normal (s', true))%js
    | None => Normal (s, true)
    end
  else Normal (s, true).

(** [stopCamera], on the component state. *)
Definition stopCamera (s : Model) : Model :=
  mkModel (appState s) NONE (photos s) None (isPinching s) (loading s)
          false.

(** A selected file, by its MIME type. *)
Record File : Type := mkFile { fileType : string }.

(** Numbers of calls made so far to [Math.random], [uuidv4] and
    [URL.createObjectURL]. *)
Record Calls : Type := mkCalls { nRandom : nat; nUuid : nat; nUrl : nat }.

Section Upload.
Variable random : nat -> R.
Variable uuidv4 : nat -> string.
Variable createObjectURL : nat -> File -> string.

(** The loop of [handleFileUpload] over the selected files. *)
Fixpoint newPhotosOf (files : list File) (c : Calls)
  : list PhotoData * Calls :=
  match files with
  | [] => ([], c)
  | file :: rest =>
      if prefix "image/" (fileType file) then
        let url := createObjectURL (nUrl c) file in
        let id := uuidv4 (nUuid c) in
        let k := nRandom c in
        let pos := THREE.vec3 ((random k - 0.5) * 8)
                              ((random (S k) - 0.5) * 6)
                              ((random (S (S k)) - 0.5) * 8) in
        let (more, c') :=
          newPhotosOf rest (mkCalls (S (S (S k))) (S (nUuid c))
                                    (S (nUrl c))) in
        (mkPhoto id url pos :: more, c')
      else newPhotosOf rest c
  end.

(** [handleFileUpload]; [files] is [e.target.files]. *)
Definition handleFileUpload (files : option (list File)) (c : Calls)
           (s : Model) : Model * Calls :=
  match files with
  | Some ((_ :: _) as selected) =>
      let (newPhotos, c') := newPhotosOf selected c in
      (mkModel SCATTER (gesture s) (photos s ++ newPhotos) (handPos s)
               (isPinching s) (loading s) (cameraActive s), c')
  | _ => (s, c)
  end.

End Upload.

(** What can happen to the component state. *)
Inductive Event : Type :=
| Detected (result : HandRecognition.HandLandmarkerResult)
| CameraStopped
| Uploaded (files : option (list File)).

Section Events.
Variable random : nat -> R.
Variable uuidv4 : nat -> string.
Variable createObjectURL : nat -> File -> string.

(** One event; a detection on which the classifier throws changes
    nothing. *)
Definition handle (sc : Model * Calls) (e : Event) : Model * Calls :=
  let (s, c) := sc in
  match e with
  | Detected result =>
      match applyDetection result s with
      | Normal s' => (s', c)
      | Throw _ => (s, c)
      end
  | CameraStopped => (stopCamera s, c)
  | Uploaded files =>
      handleFileUpload random uuidv4 createObjectURL files c s
  end.

Definition handleAll (events : list Event) (sc : Model * Calls)
  : Model * Calls :=
  fold_left handle events sc.

End Events.

End App.

(* ================================================================== *)
(** ** App.tsx: [RotatingScene] *)

Module RotatingScene.

(** [groupRef.current.rotation.y] and [lastHandX.current]. *)
Record Scene : Type := mkScene { rotationY : R; lastHandX : R }.

(** [useFrame] with the frame time [delta]. *)
Definition useFrame (groupMounted : bool) (gesture : GestureType)
           (handPos : option THREE.Vector3) (delta : R) (s : Scene)
  : Scene :=
  if negb groupMounted then s
  else
    let '(speed, last) :=
      match handPos with
      | Some h =>
          if GestureType_eqb gesture OPEN_PALM then
            let deltaX := THREE.x h - lastHandX s in
            ((if Rgtb (Rabs deltaX) 0.02
              then 0.2 + Rabs deltaX * 15
              else 0.2),
             THREE.x h)
          else (0.2, lastHandX s)
      | None => (0.2, lastHandX s)
      end in
    mkScene (rotationY s + delta * speed) last.

End RotatingScene.

(* ================================================================== *)
(** ** components/FallingSnow *)

(** A write to a typed array: an index outside the array is ignored. *)
Fixpoint arraySet {A : Type} (arr : list A) (i : nat) (v : A) : list A :=
  match arr, i with
  | [], _ => []
  | _ :: rest, O => v :: rest
  | a :: rest, S i' => a :: arraySet rest i' v
  end.

Module FallingSnow.

Record Flake : Type := mkFlake {
  x : R; y : R; z : R; originalY : R; speed : R
}.

Section Snow.
Variable random : nat -> R.

(** The loop of the [particles] memo; [k] counts the draws made. *)
Fixpoint makeFlakes (count : nat) (k : nat) : list Flake * nat :=
  match count with
  | O => ([], k)
  | S count' =>
      let x0 := (random k - 0.5) * 25 in
      let y0 := (random (S k) - 0.5) * 20 in
      let z0 := (random (S (S k)) - 0.5) * 25 in
      let speed0 := 0.02 + random (S (S (S k))) * 0.08 in
      let (rest, k') := makeFlakes count' (S (S (S (S k)))) in
      (mkFlake x0 y0 z0 y0 speed0 :: rest, k')
  end.

(** The [initialPositions] memo: x, y, z of each flake in turn.  The
    rounding of the [Float32Array] is not modelled. *)
Definition initialPositions (particles : list Flake) : list R :=
  flat_map (fun p => [x p; y p; z p]) particles.

(** The loop of [useFrame] from index [i], with [n] iterations to go.
    [positions[i * 3 + 1]] outside the array reads [undefined]; the
    arithmetic on it gives NaN, the test fails and the write is ignored. *)
Fixpoint fall (n : nat) (i : nat) (particles : list Flake)
         (positions : list R) (k : nat) : completion (list R * nat) :=
  match n with
  | O => Normal (positions, k)
  | S n' =>
      match nth_error particles i with
      | None => Throw TypeError
      | Some p =>
          match nth_error positions (i * 3 + 1) with
          | None => fall n' (S i) particles positions k
          | Some y0 =>
              let y1 := y0 - speed p in
              if Rltb y1 (-10) then
                let positions1 :=
                  arraySet positions (i * 3) ((random k - 0.5) * 25) in
                let positions2 :=
                  arraySet positions1 (i * 3 + 2)
                           ((random (S k) - 0.5) * 25) in
                fall n' (S i) particles
                     (arraySet positions2 (i * 3 + 1) 10) (S (S k))
              else
                fall n' (S i) particles
                     (arraySet positions (i * 3 + 1) y1) k
          end
      end
  end.

(** [useFrame]: the position buffer, the rotation of the points and the
    number of draws after one frame. *)
Definition useFrame (meshMounted : bool) (count : nat)
           (particles : list Flake) (positions : list R) (rotationY : R)
           (k : nat) : completion (list R * R * nat) :=
  if negb meshMounted then Normal (positions, rotationY, k)
  else
    (out <- fall count 0 particles positions k ;;
     Normal (fst out, rotationY + 0.0005, snd out))%js.

End Snow.

End FallingSnow.

(* ================================================================== *)
(** ** Derived descriptions and sample inputs used by the properties *)

Module HandFacts.
Import HandRecognition.

(** The decision of [classifyHand] written over the seven joints it
    reads, once they are known to be present. *)
Definition curledIn (s : R) (wrist tip : NormalizedLandmark) : bool :=
  Rltb (planar tip wrist) (s * 1.35).

Definition countCurled (s : R) (wrist : NormalizedLandmark)
           (tips : list NormalizedLandmark) : nat :=
  List.length (filter (curledIn s wrist) tips).

Definition decide
           (wrist thumbTip indexTip middleTip ringTip pinkyTip middleMCP
            : NormalizedLandmark) : GestureResult :=
  let s := safeScaleOf (planar wrist middleMCP) in
  let n := countCurled s wrist [indexTip; middleTip; ringTip; pinkyTip] in
  if Nat.eqb n 4 then
    mkGesture CLOSED_FIST (Some (point2 (x wrist) (y wrist))) 1
  else if Rltb (planar thumbTip indexTip) (s * 0.65) then
    mkGesture PINCH (Some (point2 (x indexTip) (y indexTip)))
              (planar thumbTip indexTip)
  else if Nat.leb n 1 then
    mkGesture OPEN_PALM (Some (point2 (x middleMCP) (y middleMCP))) 1
  else mkGesture NONE None 1.

(** The palm size of a hand: wrist (joint 0) to middle MCP (joint 9). *)
Definition palmSizeOf (hand : list NormalizedLandmark) : option R :=
  match nth_error hand 0, nth_error hand 9 with
  | Some w, Some m => Some (planar w m)
  | _, _ => None
  end.

(** A hand of 21 joints from the seven the classifier reads; the other
    joints sit on the wrist. *)
Definition handOf
           (wrist thumbTip indexTip middleTip ringTip pinkyTip middleMCP
            : NormalizedLandmark) : list NormalizedLandmark :=
  [ wrist; wrist; wrist; wrist; thumbTip;
    wrist; wrist; wrist; indexTip;
    middleMCP; wrist; wrist; middleTip;
    wrist; wrist; wrist; ringTip;
    wrist; wrist; wrist; pinkyTip ].

(** A fist whose thumb touches the index finger: palm size 0.1, the four
    finger tips 0.05 from the wrist, thumb tip 0.01 from the index tip. *)
Definition fistHand : list NormalizedLandmark :=
  handOf (landmark 0.5 0.5 0) (landmark 0.56 0.5 0) (landmark 0.55 0.5 0)
         (landmark 0.55 0.5 0) (landmark 0.55 0.5 0) (landmark 0.55 0.5 0)
         (landmark 0.6 0.5 0).

(** An open hand: palm size 0.1, the four finger tips 0.2 from the wrist,
    thumb tip 0.4 from the index tip. *)
Definition openHand : list NormalizedLandmark :=
  handOf (landmark 0.5 0.5 0) (landmark 0.3 0.5 0) (landmark 0.7 0.5 0)
         (landmark 0.7 0.5 0) (landmark 0.7 0.5 0) (landmark 0.7 0.5 0)
         (landmark 0.6 0.5 0).

Definition noHands : HandLandmarkerResult := mkResult (Some []).
Definition noLandmarks : HandLandmarkerResult := mkResult None.

End HandFacts.

Module ParticleFacts.
Import THREE MagicParticles.

(** The claim of the specification about the swirl: it is applied exactly
    to the particles whose scatter position is within 4 units of the
    hand. *)
Definition includesSwirl (appState : AppState) (hand : option Vector3)
           (time : R) (p : ParticleData) : Prop :=
  frameTarget appState hand time p
  = add (stateTarget appState time p) (swirlOffset time p).

(** A canopy particle as the generator builds it: created at its scatter
    position, 4.1 units from the centre of the scene. *)
Definition farParticle : ParticleData :=
  {| id := 1000; initialPos := vec3 4.1 0 0; treePos := vec3 0 0 0;
     heartPos := vec3 0 2.25 0; scatterPos := vec3 4.1 0 0;
     ribbonPos := None; isRibbon := false; isTrunk := false;
     color := ColorHex "#FFD700"; size := 0.1; speed := 0.02;
     phase := 0 |}.

(** [farParticle] after one frame in the TREE state. *)
Definition farParticleMoved : ParticleData :=
  fst (updateParticle TREE None 0 1000 farParticle).

(** The hand anchor (0.5, 0.5) mapped into the scene: the centre. *)
Definition centreHand : option Vector3 :=
  App.handPosOf (Some (HandRecognition.point2 0.5 0.5)).

(** A particle resting on its heart position with phase [PI / 2]. *)
Definition restingParticle : ParticleData :=
  {| id := 1000; initialPos := vec3 0 0 0; treePos := vec3 0 0 0;
     heartPos := vec3 0 0 0; scatterPos := vec3 4.1 0 0;
     ribbonPos := None; isRibbon := false; isTrunk := false;
     color := ColorHex "#FFD700"; size := 0.1; speed := 0.02;
     phase := PI / 2 |}.

(** The oracle whose every draw is 0. *)
Definition zeroOracle : nat -> R := fun _ => 0.

(** The update the specification describes: smoothing toward the target
    plus the vertical sway. *)
Definition smoothTowardSwayed (appState : AppState)
           (hand : option Vector3) (time : R) (p : ParticleData) : Vector3 :=
  lerp (initialPos p)
       (add (frameTarget appState hand time p) (vec3 0 (sway time p) 0))
       0.08.

End ParticleFacts.

Module PhotoFacts.
Import THREE FloatingPhotos.

(** The hand is at least 1.5 units from every rendered photo. *)
Definition beyondThreshold (f : Frame) : Prop :=
  forall h : Vector3, fHand f = Some h ->
  forall (n : nat) (c : Child) (ph : PhotoData),
    nth_error (children (fGroup f)) n = Some c ->
    arrayGet (fPhotos f) (Z.of_nat n) = Some ph ->
    1.5 <= handDistance (fGroup f) h c.

(** A frame in which the pinch continues and the grab on [a] is not
    contested: the hand is beyond the threshold of every photo, or no
    photo other than [a] is selected. *)
Definition keepsGrab (a : string) (f : Frame) : Prop :=
  fPinching f = true /\ (beyondThreshold f \/ noOtherCandidate a f).

(** Two photos, B at slot 0 and A at slot 1, three units apart, each
    rendered at its home position in a group with no transform. *)
Definition photoA : PhotoData := mkPhoto "A" "blob:a" (vec3 0 0 0).
Definition photoB : PhotoData := mkPhoto "B" "blob:b" (vec3 3 0 0).
Definition twoPhotos : list PhotoData := [photoB; photoA].

Definition childAt (v : Vector3) : Child :=
  mkChild v (vec3 0.35 0.35 0.35) (Some 0).

Definition groupOf (cs : list Child) : Group :=
  mkGroup cs (fun v => v) (fun v => v).

Definition twoGroup : Group :=
  groupOf [childAt (vec3 3 0 0); childAt (vec3 0 0 0)].

(** Frame 1: a pinch at A, in the SCATTER state, nothing grabbed before. *)
Definition afterPinchAtA : option Group * option string :=
  useFrame (Some twoGroup) twoPhotos SCATTER (Some (vec3 0 0 0)) true 0 None.

(** Frame 2: the same pinch, the hand now at B. *)
Definition afterMoveToB : option Group * option string :=
  useFrame (fst afterPinchAtA) twoPhotos SCATTER (Some (vec3 3 0 0)) true 1
           (snd afterPinchAtA).

(** A frame of the sustained pinch with the hand far from both photos. *)
Definition farFrame : Frame :=
  mkFrame twoGroup twoPhotos SCATTER (Some (vec3 0 3 0)) true 1.

(** A frame after the pinch has ended. *)
Definition releasedFrame : Frame :=
  mkFrame twoGroup twoPhotos SCATTER (Some (vec3 0 0 0)) false 2.

(** One photo at home (1, 0, 0), rendered at the origin with scale 0. *)
Definition onePhoto : PhotoData := mkPhoto "P" "blob:p" (vec3 1 0 0).
Definition freshChild : Child := mkChild (vec3 0 0 0) (vec3 0 0 0) None.

End PhotoFacts.

Module HandMaps.
Import HandRecognition.

(** A motion of the image plane that keeps distances: each axis is kept
    or flipped ([sx], [sy] are 1 or -1) and shifted; depth is shifted. *)
Definition moveJoint (sx sy dx dy dz : R) (p : NormalizedLandmark)
  : NormalizedLandmark :=
  landmark (sx * x p + dx) (sy * y p + dy) (z p + dz).

Definition moveResult (sx sy dx dy dz : R) (r : HandLandmarkerResult)
  : HandLandmarkerResult :=
  mkResult (option_map (map (map (moveJoint sx sy dx dy dz)))
                       (landmarks r)).

Definition movePoint (sx sy dx dy : R) (c : Point2) : Point2 :=
  point2 (sx * px c + dx) (sy * py c + dy).

(** The same outcome with its anchor moved. *)
Definition moveOutcome (sx sy dx dy : R) (c : completion GestureResult)
  : completion GestureResult :=
  match c with
  | Normal g =>
      Normal (mkGesture (type g)
                        (option_map (movePoint sx sy dx dy) (handCenter g))
                        (pinchDistance g))
  | Throw e => Throw e
  end.

(** A joint with its depth dropped. *)
Definition flatten (p : NormalizedLandmark) : NormalizedLandmark :=
  landmark (x p) (y p) 0.

(** The detection result cut down to the primary hand without depth. *)
Definition planarView (r : HandLandmarkerResult) : HandLandmarkerResult :=
  match landmarks r with
  | Some (primary :: _) => mkResult (Some [map flatten primary])
  | _ => r
  end.

(** A pinch with the other three fingers stretched out: palm size 0.1,
    finger tips 0.2 from the wrist, thumb tip 0.01 from the index tip. *)
Definition pinchHand : list NormalizedLandmark :=
  HandFacts.handOf
    (landmark 0.5 0.5 0) (landmark 0.71 0.5 0) (landmark 0.7 0.5 0)
    (landmark 0.7 0.5 0) (landmark 0.7 0.5 0) (landmark 0.7 0.5 0)
    (landmark 0.6 0.5 0).

End HandMaps.

Module AppFacts.

(** The file is an image: its MIME type starts with [image/]. *)
Definition isImage (f : App.File) : bool :=
  prefix "image/" (App.fileType f).

(** The box in which uploaded photos are placed. *)
Definition inPhotoBox (v : THREE.Vector3) : Prop :=
  -4 <= THREE.x v <= 4 /\ -3 <= THREE.y v <= 3 /\ -4 <= THREE.z v <= 4.

(** The part of the scene a mapped hand anchor can reach. *)
Definition inHandPlane (v : THREE.Vector3) : Prop :=
  -5 <= THREE.x v <= 5 /\ -4 <= THREE.y v <= 4 /\ THREE.z v = 0.

(** Every joint of every hand lies in the camera frame. *)
Definition inCameraFrame (r : HandRecognition.HandLandmarkerResult) : Prop :=
  forall hands hand l,
    HandRecognition.landmarks r = Some hands ->
    In hand hands -> In l hand ->
    0 <= HandRecognition.x l <= 1 /\ 0 <= HandRecognition.y l <= 1.

(** The state in the middle of a pinch. *)
Definition pinchingState : App.Model :=
  App.mkModel SCATTER PINCH [] (Some (THREE.vec3 0 0 0)) true false true.

(** A folder with one picture and one text file. *)
Definition someFiles : list App.File :=
  [App.mkFile "image/png"; App.mkFile "text/plain"].

End AppFacts.

Module BatchFacts.
Import THREE MagicParticles.

(** [Math.random()] returns a number of the unit interval. *)
Definition inUnit (random : nat -> R) : Prop :=
  forall k : nat, 0 <= random k < 1.

(** The point lies in the cube of half side [b] around the origin. *)
Definition within (b : R) (v : Vector3) : Prop :=
  (- b <= x v <= b) /\ (- b <= y v <= b) /\ (- b <= z v <= b).

(** The radius of the cone of the tree at height [h]. *)
Definition coneRadius (h : R) : R := (1 - (h + 5) / 10) * 3.5.

(** The radius of the ribbon spiral at height [h]. *)
Definition spiralRadius (h : R) : R := (1 - (h + 5) / 10) * 4.2.

(** The point turned about the vertical axis by the angle [phi]. *)
Definition turnAboutY (phi : R) (v : Vector3) : Vector3 :=
  vec3 (x v * cos phi - z v * sin phi) (y v)
       (x v * sin phi + z v * cos phi).

(** The inputs of one rendered frame of the particle component. *)
Record Frame : Type := mkFrame {
  fMounted : bool;
  fAppState : AppState;
  fHand : option Vector3;
  fTime : R
}.

(** The particles after a sequence of frames. *)
Definition run (frames : list Frame) (particles : list ParticleData)
  : list ParticleData :=
  fold_left
    (fun ps f =>
       fst (useFrame (fMounted f) (fAppState f) (fHand f) (fTime f) ps))
    frames particles.

(** All that a frame leaves alone in a particle. *)
Definition sameIdentity (p q : ParticleData) : Prop :=
  id q = id p /\ treePos q = treePos p /\ heartPos q = heartPos p
  /\ scatterPos q = scatterPos p /\ ribbonPos q = ribbonPos p
  /\ isRibbon q = isRibbon p /\ isTrunk q = isTrunk p
  /\ color q = color p /\ size q = size p /\ speed q = speed p
  /\ phase q = phase p.

(** The targets of the particle are bounded: a particle with such targets
    can only be sent into the cube of half side 8. *)
Definition tameTargets (p : ParticleData) : Prop :=
  within 7.5 (scatterPos p) /\ within 5 (treePos p)
  /\ within 6.25 (heartPos p)
  /\ (forall rp, ribbonPos p = Some rp -> -5 <= y rp <= 5).

(** A short sequence of frames: tree, scatter with a hand, heart. *)
Definition someFrames : list Frame :=
  [ mkFrame true TREE None 0;
    mkFrame true SCATTER (Some (vec3 0 0 0)) 1;
    mkFrame true HEART None 2 ].

End BatchFacts.

Module GrabFacts.
Import THREE FloatingPhotos.

(** What the search has established after the children [l]: nothing is
    selected and every photo seen is at 1.5 units or more, or the photo
    selected is the closest one seen, at less than 1.5 units. *)
Definition scanned (g : Group) (photos : list PhotoData) (h : Vector3)
           (l : list Child) (acc : Distance * option string) : Prop :=
  match fst acc with
  | Infinity =>
      snd acc = None
      /\ forall (n : nat) (c : Child) (ph : PhotoData),
          nth_error l n = Some c ->
          arrayGet photos (Z.of_nat n) = Some ph ->
          1.5 <= handDistance g h c
  | Finite d =>
      exists (n : nat) (c : Child) (ph : PhotoData),
        snd acc = Some (photoId ph)
        /\ nth_error l n = Some c
        /\ arrayGet photos (Z.of_nat n) = Some ph
        /\ d = handDistance g h c
        /\ d < 1.5
        /\ forall (m : nat) (c' : Child) (ph' : PhotoData),
            nth_error l m = Some c' ->
            arrayGet photos (Z.of_nat m) = Some ph' ->
            d <= handDistance g h c'
  end.

(** The uniform scale of a rendered photo is between the idle and the
    zoomed scale. *)
Definition scaleInRange (c : Child) : Prop :=
  0.35 <= x (childScale c) <= 4.

End GrabFacts.

Module SnowFacts.

(** Every coordinate of the buffer is in the snow box: heights (slots
    [3 i + 1]) between -10 and 10, the other coordinates between -12.5
    and 12.5. *)
Definition inBox (positions : list R) : Prop :=
  forall (j : nat) (v : R),
    nth_error positions j = Some v ->
    (j mod 3 = 1%nat -> -10 <= v <= 10)
    /\ (j mod 3 <> 1%nat -> -12.5 <= v <= 12.5).

(** A flake as the generator makes them. *)
Definition flakeOk (p : FallingSnow.Flake) : Prop :=
  -12.5 <= FallingSnow.x p <= 12.5
  /\ -10 <= FallingSnow.y p <= 10
  /\ -12.5 <= FallingSnow.z p <= 12.5
  /\ 0.02 <= FallingSnow.speed p <= 0.1.

(** [n] frames in a row with the mesh mounted. *)
Fixpoint frames (random : nat -> R) (n : nat) (count : nat)
         (particles : list FallingSnow.Flake) (positions : list R)
         (rotationY : R) (k : nat) : completion (list R * R * nat) :=
  match n with
  | O => Normal (positions, rotationY, k)
  | S n' =>
      (out <- FallingSnow.useFrame random true count particles positions
                                   rotationY k ;;
       frames random n' count particles (fst (fst out)) (snd (fst out))
              (snd out))%js
  end.

End SnowFacts.

(* ================================================================== *)
(** ** The same arithmetic on binary64 values

    [classifyGesture] and the frame of [MagicParticles], written over the
    primitive binary64 numbers, so that they run with the rounding of the
    program.  [Math.pow(d, 2)] is the rounded product [d * d] and
    [Math.sqrt] the rounded square root; [Math.sin] and [Math.cos] are
    parameters. *)

Module Binary64.
Import PrimFloat.
Local Set Warnings "-inexact-float".

Record Landmark : Type := landmark { x : float; y : float; z : float }.

Record Point2 : Type := point2 { px : float; py : float }.

Record GestureResult : Type := mkGesture {
  type : GestureType;
  handCenter : option Point2;
  pinchDistance : float
}.

Definition deref (p : option Landmark) : completion Landmark :=
  match p with
  | Some l => Normal l
  | None => Throw TypeError
  end.

Definition Math_pow2 (b : float) : float := (b * b)%float.

Definition dist (p1 p2 : option Landmark) : completion float :=
  (a <- deref p1 ;;
   b <- deref p2 ;;
   Normal (sqrt (Math_pow2 (x a - x b) + Math_pow2 (y a - y b))%float))%js.

Definition classifyHand (landmarks : list Landmark)
  : completion GestureResult :=
  let thumbTip := nth_error landmarks 4 in
  let indexTip := nth_error landmarks 8 in
  let middleTip := nth_error landmarks 12 in
  let ringTip := nth_error landmarks 16 in
  let pinkyTip := nth_error landmarks 20 in
  let middleMCP := nth_error landmarks 9 in
  let wrist := nth_error landmarks 0 in
  (palmSize <- dist wrist middleMCP ;;
   let safeScale := if ltb palmSize 0.01 then 0.01%float else palmSize in
   pinchDist <- dist thumbTip indexTip ;;
   let isPinchCandidate := ltb pinchDist (safeScale * 0.65) in
   let isCurled := fun tip =>
     (d <- dist tip wrist ;; Normal (ltb d (safeScale * 1.35)))%js in
   curledFingers <-
     filterM isCurled [indexTip; middleTip; ringTip; pinkyTip] ;;
   let curledCount := List.length curledFingers in
   if Nat.eqb curledCount 4 then
     w <- deref wrist ;;
     Normal (mkGesture CLOSED_FIST (Some (point2 (x w) (y w))) 1)
   else if isPinchCandidate then
     i <- deref indexTip ;;
     Normal (mkGesture PINCH (Some (point2 (x i) (y i))) pinchDist)
   else if Nat.leb curledCount 1 then
     m <- deref middleMCP ;;
     Normal (mkGesture OPEN_PALM (Some (point2 (x m) (y m))) 1)
   else
     Normal (mkGesture NONE None 1))%js.

Definition classifyGesture (landmarks : option (list (list Landmark)))
  : completion GestureResult :=
  match landmarks with
  | None => Normal (mkGesture NONE None 0)
  | Some [] => Normal (mkGesture NONE None 0)
  | Some (primary :: _) => classifyHand primary
  end.

Definition typeOf (c : completion GestureResult) : option GestureType :=
  match c with
  | Normal g => Some (type g)
  | Throw _ => None
  end.

(** Scaling of a hand about its wrist, computed on binary64 values. *)
Definition scaleAbout (w : Landmark) (k : float) (p : Landmark) : Landmark :=
  landmark (x w + k * (x p - x w)) (y w + k * (y p - y w))
           (z w + k * (z p - z w)).

Definition scaleHand (k : float) (hand : list Landmark) : list Landmark :=
  match hand with
  | [] => []
  | w :: _ => map (scaleAbout w k) hand
  end.

(** A hand of 21 joints from the seven the classifier reads. *)
Definition handOf (wrist thumbTip indexTip middleTip ringTip pinkyTip
                   middleMCP : Landmark) : list Landmark :=
  [ wrist; wrist; wrist; wrist; thumbTip;
    wrist; wrist; wrist; indexTip;
    middleMCP; wrist; wrist; middleTip;
    wrist; wrist; wrist; ringTip;
    wrist; wrist; wrist; pinkyTip ].

(** A hand whose coordinates are all binary fractions: wrist at
    (0.5, 0.5), palm size 15/128, the four finger tips 81/512 from the
    wrist, which is 1.35 times the palm size, the thumb tip away from the
    index tip.  Its scaling by 3 about the wrist is again made of binary
    fractions of the camera frame. *)
Definition thresholdHand : list Landmark :=
  handOf (landmark 0.5 0.5 0) (landmark 0.5 0.625 0)
         (landmark 0.658203125 0.5 0) (landmark 0.658203125 0.5 0)
         (landmark 0.658203125 0.5 0) (landmark 0.658203125 0.5 0)
         (landmark 0.6171875 0.5 0).

(** [thresholdHand] scaled by 3 about its wrist. *)
Definition thresholdHandTimes3 : list Landmark :=
  handOf (landmark 0.5 0.5 0) (landmark 0.5 0.875 0)
         (landmark 0.974609375 0.5 0) (landmark 0.974609375 0.5 0)
         (landmark 0.974609375 0.5 0) (landmark 0.974609375 0.5 0)
         (landmark 0.8515625 0.5 0).

(** An open hand made of binary fractions, none of its distances near a
    threshold: palm size 1/8, the four finger tips 1/4 from the wrist,
    the thumb tip away from the index tip. *)
Definition clearHand : list Landmark :=
  handOf (landmark 0.5 0.5 0) (landmark 0.5 0.75 0)
         (landmark 0.75 0.5 0) (landmark 0.75 0.5 0)
         (landmark 0.75 0.5 0) (landmark 0.75 0.5 0)
         (landmark 0.625 0.5 0).

(** [THREE.Vector3] on binary64 values. *)
Record Vector3 : Type := vec3 { vx : float; vy : float; vz : float }.

(** [a.lerp(v, alpha)]: [a.x += (v.x - a.x) * alpha]. *)
Definition lerp (a v : Vector3) (alpha : float) : Vector3 :=
  vec3 (vx a + (vx v - vx a) * alpha)
       (vy a + (vy v - vy a) * alpha)
       (vz a + (vz v - vz a) * alpha).

(** [a.add(b)] and [a.distanceTo(b)] *)
Definition add (a b : Vector3) : Vector3 :=
  vec3 (vx a + vx b) (vy a + vy b) (vz a + vz b).

Definition distanceTo (a b : Vector3) : float :=
  let dx := (vx a - vx b)%float in
  let dy := (vy a - vy b)%float in
  let dz := (vz a - vz b)%float in
  sqrt (dx * dx + dy * dy + dz * dz).

(** [ParticleData] of [types.ts]; the [id] is a JavaScript number. *)
Record ParticleData : Type := mkParticle {
  id : float;
  initialPos : Vector3;
  treePos : Vector3;
  heartPos : Vector3;
  scatterPos : Vector3;
  ribbonPos : option Vector3;
  isRibbon : bool;
  isTrunk : bool;
  color : Color;
  size : float;
  speed : float;
  phase : float
}.

(** What a frame writes to the mesh for one particle. *)
Record Instance : Type := mkInstance {
  instPosition : Vector3;
  instScale : float;
  instColor : Color
}.

(** The inputs of one rendered frame. *)
Record Frame : Type := mkFrame {
  fMounted : bool;
  fAppState : AppState;
  fHand : option Vector3;
  fTime : float
}.

(** [Math.PI] *)
Definition Math_PI : float := 0x1.921fb54442d18p+1.

Section Integrator.
(** [Math.sin] and [Math.cos] of the engine. *)
Variable Math_sin : float -> float.
Variable Math_cos : float -> float.

Definition ribbonFlow (time : float) (rp : Vector3) : Vector3 :=
  let turns := 5%float in
  let originalH := vy rp in
  let angleOffset := (time * -0.5)%float in
  let normH := ((originalH + 5) / 10)%float in
  let spiralRadius := ((1 - normH) * 4.2)%float in
  let angle := (normH * Math_PI * 2 * turns + angleOffset)%float in
  vec3 (spiralRadius * Math_cos angle) originalH
       (spiralRadius * Math_sin angle).

Definition stateTarget (appState : AppState) (time : float)
           (p : ParticleData) : Vector3 :=
  if AppState_eqb appState SCATTER then scatterPos p
  else if AppState_eqb appState HEART then heartPos p
  else if AppState_eqb appState TREE && isRibbon p then
         match ribbonPos p with
         | Some rp => ribbonFlow time rp
         | None => treePos p
         end
       else treePos p.

Definition swirlOffset (time : float) (p : ParticleData) : Vector3 :=
  vec3 (Math_cos (time + id p) * 0.5) (Math_sin (time + id p) * 0.5) 0.

Definition swirls (appState : AppState) (handPosition : option Vector3)
           (p : ParticleData) : bool :=
  match handPosition with
  | Some h =>
      if AppState_eqb appState SCATTER then
        let dist := distanceTo (initialPos p) h in
        ltb dist 4
      else false
  | None => false
  end.

Definition frameTarget (appState : AppState)
           (handPosition : option Vector3) (time : float)
           (p : ParticleData) : Vector3 :=
  let target := stateTarget appState time p in
  if swirls appState handPosition p
  then add target (swirlOffset time p)
  else target.

Definition withInitialPos (p : ParticleData) (v : Vector3) : ParticleData :=
  {| id := id p; initialPos := v; treePos := treePos p;
     heartPos := heartPos p; scatterPos := scatterPos p;
     ribbonPos := ribbonPos p; isRibbon := isRibbon p;
     isTrunk := isTrunk p; color := color p; size := size p;
     speed := speed p; phase := phase p |}.

(** The callback of [particles.forEach]. *)
Definition updateParticle (appState : AppState)
           (handPosition : option Vector3) (time : float) (i : Z)
           (p : ParticleData) : ParticleData * Instance :=
  let target := frameTarget appState handPosition time p in
  let sway := (Math_sin (time * 2 + phase p) * 0.05)%float in
  let newPos := lerp (initialPos p) target 0.08 in
  let dummyPosition := vec3 (vx newPos) (vy newPos + sway) (vz newPos) in
  let scaleBase := if isRibbon p then 1.2%float else 1.0%float in
  let scale :=
    (size p * scaleBase * (1 + Math_sin (time * 5 + phase p) * 0.5))%float
  in
  let shown :=
    if negb (isRibbon p) && negb (isTrunk p) && (i mod 15 =? 0)%Z then
      let blink := ltb 0 (Math_sin (time * 3 + phase p)) in
      if blink then color p else ColorScaled (color p) 0.4
    else color p in
  (withInitialPos p newPos, mkInstance dummyPosition scale shown).

Definition useFrame (meshMounted : bool) (appState : AppState)
           (handPosition : option Vector3) (time : float)
           (particles : list ParticleData)
  : list ParticleData * list Instance :=
  if negb meshMounted then (particles, [])
  else
    let out :=
      forEachFrom (updateParticle appState handPosition time) 0%Z
                  particles in
    (map fst out, map snd out).

(** The particles after a sequence of frames. *)
Definition run (frames : list Frame) (particles : list ParticleData)
  : list ParticleData :=
  fold_left
    (fun ps f =>
       fst (useFrame (fMounted f) (fAppState f) (fHand f) (fTime f) ps))
    frames particles.

End Integrator.





End Binary64.

(* ================================================================== *)
(** ** The same code with every operation rounded

    [rnd] stands for the rounding of the arithmetic of the program: the
    result of an addition, subtraction, product, quotient or square root
    is [rnd] of its exact result, and a decimal literal that is not a
    binary64 value is [rnd] of its decimal value.  [Rounding rnd] collects
    what the theorems use of it.  The rounding to nearest of binary64 has
    these properties: on numbers of magnitude up to 1e100 its relative
    error is at most 2^-53, its absolute error below the normal range at
    most 2^-1075, and it at most doubles a number.  The identity has them
    too, and with it the definitions below are those of the sections
    above. *)

Record Rounding (rnd : R -> R) : Prop := mkRounding {
  rnd_monotone : forall a b : R, a <= b -> rnd a <= rnd b;
  rnd_idempotent : forall a : R, rnd (rnd a) = rnd a;
  rnd_error :
    forall a : R, Rabs a <= 1e100 ->
                  Rabs (rnd a - a) <= 1e-15 * Rabs a + 1e-100;
  rnd_double : forall a : R, Rabs a <= 1e100 -> Rabs (rnd a) <= 2 * Rabs a
}.

(** [Math.pow] of the engine is an approximation of the power; of
    [Math.pow(b, 2)] the theorems use that it is not negative and as
    close to the square as a rounded product would be.  The exact power
    is an instance. *)
Record Squaring (Math_pow : R -> nat -> R) : Prop := mkSquaring {
  pow_nonneg : forall b : R, 0 <= Math_pow b 2%nat;
  pow_error :
    forall b : R, Rabs b <= 1e40 ->
                  Rabs (Math_pow b 2%nat - b * b) <= 1e-15 * (b * b) + 1e-100
}.

Module Rounded.

Section Classifier.
Import HandRecognition.
Variable rnd : R -> R.
(** [Math.pow] of the engine. *)
Variable Math_pow : R -> nat -> R.

(** The 2D distance helper. *)
Definition dist (p1 p2 : option NormalizedLandmark) : completion R :=
  (a <- deref p1 ;;
   b <- deref p2 ;;
   Normal (rnd (sqrt (rnd (Math_pow (rnd (x a - x b)) 2
                           + Math_pow (rnd (y a - y b)) 2)))))%js.

Definition safeScaleOf (palmSize : R) : R :=
  if Rltb palmSize (rnd 0.01) then rnd 0.01 else palmSize.

Definition classifyHand (landmarks : list NormalizedLandmark)
  : completion GestureResult :=
  let thumbTip := nth_error landmarks 4 in
  let indexTip := nth_error landmarks 8 in
  let middleTip := nth_error landmarks 12 in
  let ringTip := nth_error landmarks 16 in
  let pinkyTip := nth_error landmarks 20 in
  let middleMCP := nth_error landmarks 9 in
  let wrist := nth_error landmarks 0 in
  (palmSize <- dist wrist middleMCP ;;
   let safeScale := safeScaleOf palmSize in
   pinchDist <- dist thumbTip indexTip ;;
   let isPinchCandidate := Rltb pinchDist (rnd (safeScale * rnd 0.65)) in
   let isCurled := fun tip =>
     (d <- dist tip wrist ;;
      Normal (Rltb d (rnd (safeScale * rnd 1.35))))%js in
   curledFingers <-
     filterM isCurled [indexTip; middleTip; ringTip; pinkyTip] ;;
   let curledCount := List.length curledFingers in
   if Nat.eqb curledCount 4 then
     w <- deref wrist ;;
     Normal (mkGesture CLOSED_FIST (Some (point2 (x w) (y w))) 1)
   else if isPinchCandidate then
     i <- deref indexTip ;;
     Normal (mkGesture PINCH (Some (point2 (x i) (y i))) pinchDist)
   else if Nat.leb curledCount 1 then
     m <- deref middleMCP ;;
     Normal (mkGesture OPEN_PALM (Some (point2 (x m) (y m))) 1)
   else
     Normal (mkGesture NONE None 1))%js.

Definition classifyGesture (result : HandLandmarkerResult)
  : completion GestureResult :=
  match landmarks result with
  | None => Normal (mkGesture NONE None 0)
  | Some [] => Normal (mkGesture NONE None 0)
  | Some (primary :: _) => classifyHand primary
  end.

End Classifier.

Section Integrator.
Import THREE.
Variable rnd : R -> R.
(** [Math.sin] and [Math.cos] of the engine. *)
Variable Math_sin : R -> R.
Variable Math_cos : R -> R.

(** [a.add(b)] *)
Definition add (a b : Vector3) : Vector3 :=
  vec3 (rnd (x a + x b)) (rnd (y a + y b)) (rnd (z a + z b)).

(** [a.distanceTo(b)] *)
Definition distanceTo (a b : Vector3) : R :=
  let dx := rnd (x a - x b) in
  let dy := rnd (y a - y b) in
  let dz := rnd (z a - z b) in
  rnd (sqrt (rnd (rnd (rnd (dx * dx) + rnd (dy * dy)) + rnd (dz * dz)))).

(** [a.lerp(v, alpha)]: [a.x += (v.x - a.x) * alpha]. *)
Definition lerp (a v : Vector3) (alpha : R) : Vector3 :=
  vec3 (rnd (x a + rnd (rnd (x v - x a) * alpha)))
       (rnd (y a + rnd (rnd (y v - y a) * alpha)))
       (rnd (z a + rnd (rnd (z v - z a) * alpha))).

Definition ribbonFlow (time : R) (rp : Vector3) : Vector3 :=
  let turns := 5 in
  let originalH := y rp in
  let angleOffset := rnd (time * -0.5) in
  let normH := rnd (rnd (originalH + 5) / 10) in
  let spiralRadius := rnd (rnd (1 - normH) * rnd 4.2) in
  let angle :=
    rnd (rnd (rnd (rnd (normH * rnd PI) * 2) * turns) + angleOffset) in
  vec3 (rnd (spiralRadius * Math_cos angle)) originalH
       (rnd (spiralRadius * Math_sin angle)).

Definition stateTarget (appState : AppState) (time : R) (p : ParticleData)
  : Vector3 :=
  if AppState_eqb appState SCATTER then scatterPos p
  else if AppState_eqb appState HEART then heartPos p
  else match MagicParticles.ribbonFlowGuard appState p with
       | Some rp => ribbonFlow time rp
       | None => treePos p
       end.

Definition swirlOffset (time : R) (p : ParticleData) : Vector3 :=
  vec3 (rnd (Math_cos (rnd (time + IZR (id p))) * 0.5))
       (rnd (Math_sin (rnd (time + IZR (id p))) * 0.5)) 0.

Definition swirls (appState : AppState) (handPosition : option Vector3)
           (p : ParticleData) : bool :=
  match handPosition with
  | Some h =>
      if AppState_eqb appState SCATTER then
        let dist := distanceTo (initialPos p) h in
        Rltb dist 4
      else false
  | None => false
  end.

Definition frameTarget (appState : AppState)
           (handPosition : option Vector3) (time : R) (p : ParticleData)
  : Vector3 :=
  let target := stateTarget appState time p in
  if swirls appState handPosition p
  then add target (swirlOffset time p)
  else target.

(** The callback of [particles.forEach]. *)
Definition updateParticle (appState : AppState)
           (handPosition : option Vector3) (time : R) (i : Z)
           (p : ParticleData) : ParticleData * MagicParticles.Instance :=
  let target := frameTarget appState handPosition time p in
  let sway :=
    rnd (Math_sin (rnd (rnd (time * 2) + phase p)) * rnd 0.05) in
  let newPos := lerp (initialPos p) target (rnd 0.08) in
  let dummyPosition := vec3 (x newPos) (rnd (y newPos + sway)) (z newPos) in
  let scaleBase := if isRibbon p then rnd 1.2 else 1.0 in
  let scale :=
    rnd (rnd (size p * scaleBase)
         * rnd (1 + rnd (Math_sin (rnd (rnd (time * 5) + phase p)) * 0.5)))
  in
  let shown :=
    if negb (isRibbon p) && negb (isTrunk p) && (i mod 15 =? 0)%Z then
      let blink := Rgtb (Math_sin (rnd (rnd (time * 3) + phase p))) 0 in
      if blink then color p else ColorScaled (color p) 0.4
    else color p in
  (MagicParticles.withInitialPos p newPos,
   MagicParticles.mkInstance dummyPosition scale shown).

Definition useFrame (meshMounted : bool) (appState : AppState)
           (handPosition : option Vector3) (time : R)
           (particles : list ParticleData)
  : list ParticleData * list MagicParticles.Instance :=
  if negb meshMounted then (particles, [])
  else
    let out :=
      forEachFrom (updateParticle appState handPosition time) 0%Z
                  particles in
    (map fst out, map snd out).

(** The particles after a sequence of frames. *)
Definition run (frames : list BatchFacts.Frame)
           (particles : list ParticleData) : list ParticleData :=
  fold_left
    (fun ps f =>
       fst (useFrame (BatchFacts.fMounted f) (BatchFacts.fAppState f)
                     (BatchFacts.fHand f) (BatchFacts.fTime f) ps))
    frames particles.

End Integrator.

End Rounded.

Module RoundedFacts.

(** A hand with coordinates of magnitude at most 1e30. *)
Definition boundedHand (hand : list HandRecognition.NormalizedLandmark)
  : Prop :=
  Forall (fun l => Rabs (HandRecognition.x l) <= 1e30
                   /\ Rabs (HandRecognition.y l) <= 1e30) hand.

(** The distance [d] is not within one millionth of the threshold
    [c * s]. *)
Definition clearOf (d s c : R) : Prop :=
  d < s * c * (1 - 1e-6) \/ s * c * (1 + 1e-6) < d.

(** None of the five distances the classifier compares is within one
    millionth of its threshold. *)
Definition offThresholds (hand : list HandRecognition.NormalizedLandmark)
  : Prop :=
  match nth_error hand 0, nth_error hand 4, nth_error hand 8,
        nth_error hand 12, nth_error hand 16, nth_error hand 20,
        nth_error hand 9 with
  | Some w, Some th, Some ix, Some mi, Some ri, Some pk, Some mcp =>
      let s := HandRecognition.planar w mcp in
      clearOf (HandRecognition.planar ix w) s 1.35
      /\ clearOf (HandRecognition.planar mi w) s 1.35
      /\ clearOf (HandRecognition.planar ri w) s 1.35
      /\ clearOf (HandRecognition.planar pk w) s 1.35
      /\ clearOf (HandRecognition.planar th ix) s 0.65
  | _, _, _, _, _, _, _ => False
  end.










End RoundedFacts.

(* ================================================================== *)
(** * Properties *)

(** ** Real arithmetic used throughout *)

Lemma Rltb_true_iff (a b : R) : Rltb a b = true <-> a < b.
Proof.
  unfold Rltb. destruct (Rlt_dec a b); split; intros; auto; discriminate.
Qed.

Lemma Rltb_false_iff (a b : R) : Rltb a b = false <-> b <= a.
Proof.
  unfold Rltb. destruct (Rlt_dec a b); split; intros; auto;
    try discriminate; lra.
Qed.

Lemma sqrt_lt_bound (a c : R) : 0 <= a -> 0 < c -> a < c * c -> sqrt a < c.
Proof.
  intros Ha Hc Hlt.
  rewrite <- (sqrt_square c) by lra.
  apply sqrt_lt_1_alt. lra.
Qed.

Lemma sqrt_ge_bound (a c : R) : 0 <= c -> c * c <= a -> c <= sqrt a.
Proof.
  intros Hc Hle.
  rewrite <- (sqrt_square c) at 1 by lra.
  apply sqrt_le_1_alt. exact Hle.
Qed.

Lemma sqrt_scale (k a : R) : 0 <= k -> 0 <= a -> sqrt (k * k * a) = k * sqrt a.
Proof.
  intros Hk Ha.
  rewrite sqrt_mult by nra.
  rewrite sqrt_square by exact Hk. reflexivity.
Qed.

(** Decides a comparison of a square root with a positive constant. *)
Ltac sqrt_cmp :=
  first
    [ apply sqrt_lt_bound; [ nra | lra | nra ]
    | apply sqrt_ge_bound; [ lra | nra ]
    | apply Rlt_le; apply sqrt_lt_bound; [ nra | lra | nra ] ].

(** Evaluates every test [Rltb (sqrt e) c] of the goal. *)
Ltac eval_Rltb :=
  repeat match goal with
    | |- context [Rltb ?a ?b] =>
        first
          [ replace (Rltb a b) with true
              by (symmetry; apply Rltb_true_iff; first [ lra | sqrt_cmp ])
          | replace (Rltb a b) with false
              by (symmetry; apply Rltb_false_iff; first [ lra | sqrt_cmp ]) ]
    end.

(** ** The gesture classifier *)

Section Classifier.
Import HandRecognition HandFacts.

Lemma planar_nonneg (a b : NormalizedLandmark) : 0 <= planar a b.
Proof. unfold planar. apply sqrt_pos. Qed.

Lemma safeScaleOf_clamped (p : R) : 0.01 <= safeScaleOf p.
Proof.
  unfold safeScaleOf.
  destruct (Rltb p 0.01) eqn:E; [ lra | apply Rltb_false_iff in E; lra ].
Qed.

Lemma safeScaleOf_id (p : R) : 0.01 <= p -> safeScaleOf p = p.
Proof.
  intros H. unfold safeScaleOf.
  destruct (Rltb p 0.01) eqn:E; [ apply Rltb_true_iff in E; lra | easy ].
Qed.

(** With the seven joints present, [classifyHand] returns [decide]. *)
Lemma classifyHand_decide hand w th ix mi ri pk mcp :
  nth_error hand 0 = Some w ->
  nth_error hand 4 = Some th ->
  nth_error hand 8 = Some ix ->
  nth_error hand 12 = Some mi ->
  nth_error hand 16 = Some ri ->
  nth_error hand 20 = Some pk ->
  nth_error hand 9 = Some mcp ->
  classifyHand hand = Normal (decide w th ix mi ri pk mcp).
Proof.
  intros H0 H4 H8 H12 H16 H20 H9.
  unfold classifyHand, decide, countCurled, curledIn.
  rewrite H0, H4, H8, H12, H16, H20, H9. cbn [dist deref bind filterM].
  fold (planar w mcp) (planar th ix) (planar ix w) (planar mi w)
       (planar ri w) (planar pk w).
  set (s := safeScaleOf (planar w mcp)).
  cbn [filter].
  destruct (Rltb (planar ix w) (s * 1.35)),
    (Rltb (planar mi w) (s * 1.35)),
    (Rltb (planar ri w) (s * 1.35)),
    (Rltb (planar pk w) (s * 1.35));
    cbn [List.length Nat.eqb Nat.leb bind deref];
    destruct (Rltb (planar th ix) (s * 0.65)); reflexivity.
Qed.

Lemma joint_present (hand : list NormalizedLandmark) (i : nat) :
  List.length hand = 21%nat -> (i < 21)%nat ->
  exists l, nth_error hand i = Some l.
Proof.
  intros Hlen Hi.
  destruct (nth_error hand i) eqn:E; [ eauto | ].
  apply nth_error_None in E. lia.
Qed.

Lemma planar_horizontal (a b : NormalizedLandmark) :
  y a = y b -> planar a b = Rabs (x a - x b).
Proof.
  intros Hy. unfold planar, Math_pow. rewrite Hy.
  replace ((x a - x b) ^ 2 + (y b - y b) ^ 2)
    with ((x a - x b) * (x a - x b)) by ring.
  apply sqrt_Rsqr_abs.
Qed.

(** Rewrites [Rabs e] to [e] or [- e] for a closed [e]. *)
Ltac eval_Rabs :=
  repeat match goal with
    | |- context [Rabs ?e] =>
        first [ rewrite (Rabs_right e) by lra
              | rewrite (Rabs_left e) by lra ]
    end.

(** Evaluates [decide] or a planar comparison on joints that share their
    [y] coordinate. *)
Ltac eval_planar :=
  unfold decide, countCurled, curledIn; cbn [filter];
  rewrite ?planar_horizontal by reflexivity;
  cbn [x y]; eval_Rabs; unfold safeScaleOf; eval_Rltb;
  cbn [filter List.length Nat.eqb Nat.leb].

Lemma planar_scale (w a b : NormalizedLandmark) (k : R) :
  0 <= k -> planar (scaleAbout w k a) (scaleAbout w k b) = k * planar a b.
Proof.
  intros Hk. unfold planar, scaleAbout, Math_pow. cbn [x y].
  replace ((x w + k * (x a - x w) - (x w + k * (x b - x w))) ^ 2 +
           (y w + k * (y a - y w) - (y w + k * (y b - y w))) ^ 2)
    with (k * k * ((x a - x b) ^ 2 + (y a - y b) ^ 2)) by ring.
  apply sqrt_scale;
    [ exact Hk | apply Rplus_le_le_0_compat; apply pow2_ge_0 ].
Qed.

Lemma Rltb_scale (k a s c : R) :
  0 < k -> Rltb (k * a) (k * s * c) = Rltb a (s * c).
Proof.
  intros Hk.
  destruct (Rltb a (s * c)) eqn:E.
  - apply Rltb_true_iff in E. apply Rltb_true_iff. nra.
  - apply Rltb_false_iff in E. apply Rltb_false_iff. nra.
Qed.

(** Away from the clamp, scaling the seven joints leaves the tag alone. *)
Lemma decide_scale (o w th ix mi ri pk mcp : NormalizedLandmark) (k : R) :
  0 < k -> 0.01 <= planar w mcp -> 0.01 <= k * planar w mcp ->
  type (decide (scaleAbout o k w) (scaleAbout o k th) (scaleAbout o k ix)
               (scaleAbout o k mi) (scaleAbout o k ri) (scaleAbout o k pk)
               (scaleAbout o k mcp))
  = type (decide w th ix mi ri pk mcp).
Proof.
  intros Hk Hp Hkp.
  unfold decide, countCurled, curledIn. cbn [filter].
  rewrite !planar_scale by lra.
  rewrite (safeScaleOf_id _ Hp), (safeScaleOf_id _ Hkp).
  rewrite !Rltb_scale by exact Hk.
  set (s := planar w mcp).
  destruct (Rltb (planar ix w) (s * 1.35)),
    (Rltb (planar mi w) (s * 1.35)),
    (Rltb (planar ri w) (s * 1.35)),
    (Rltb (planar pk w) (s * 1.35));
    cbn [List.length Nat.eqb Nat.leb];
    destruct (Rltb (planar th ix) (s * 0.65)); reflexivity.
Qed.

Lemma scaleHand_joint (hand : list NormalizedLandmark) (k : R) (i : nat)
      (w l : NormalizedLandmark) :
  nth_error hand 0 = Some w -> nth_error hand i = Some l ->
  nth_error (scaleHand k hand) i = Some (scaleAbout w k l).
Proof.
  intros H0 Hi. destruct hand as [| w0 rest]; [ discriminate | ].
  cbn in H0. injection H0 as ->.
  unfold scaleHand. rewrite nth_error_map, Hi. reflexivity.
Qed.

(** C1 -- fist before pinch.  For every hand of 21 joints whose index,
    middle, ring and pinky tips are all curled (planar distance to the
    wrist below 1.35 times the clamped palm size) and whose thumb tip is
    within 0.65 times the clamped palm size of the index tip,
    [classifyGesture] returns CLOSED_FIST anchored at the wrist with pinch
    metric 1; the tag is not PINCH. *)
Theorem classifyGesture_fist_priority
        (hand : list NormalizedLandmark)
        (others : list (list NormalizedLandmark))
        (wrist thumbTip indexTip middleTip ringTip pinkyTip middleMCP
         : NormalizedLandmark) :
  List.length hand = 21%nat ->
  nth_error hand 0 = Some wrist ->
  nth_error hand 4 = Some thumbTip ->
  nth_error hand 8 = Some indexTip ->
  nth_error hand 12 = Some middleTip ->
  nth_error hand 16 = Some ringTip ->
  nth_error hand 20 = Some pinkyTip ->
  nth_error hand 9 = Some middleMCP ->
  planar indexTip wrist < safeScaleOf (planar wrist middleMCP) * 1.35 ->
  planar middleTip wrist < safeScaleOf (planar wrist middleMCP) * 1.35 ->
  planar ringTip wrist < safeScaleOf (planar wrist middleMCP) * 1.35 ->
  planar pinkyTip wrist < safeScaleOf (planar wrist middleMCP) * 1.35 ->
  planar thumbTip indexTip < safeScaleOf (planar wrist middleMCP) * 0.65 ->
  classifyGesture (mkResult (Some (hand :: others)))
  = Normal (mkGesture CLOSED_FIST (Some (point2 (x wrist) (y wrist))) 1)
  /\ typeOf (classifyGesture (mkResult (Some (hand :: others))))
     <> Some PINCH.
Proof.
  intros _ H0 H4 H8 H12 H16 H20 H9 Ci Cm Cr Cp _.
  assert (E : classifyGesture (mkResult (Some (hand :: others)))
              = Normal (mkGesture CLOSED_FIST
                                  (Some (point2 (x wrist) (y wrist))) 1)).
  { unfold classifyGesture. cbn [landmarks].
    rewrite (classifyHand_decide hand _ _ _ _ _ _ _ H0 H4 H8 H12 H16 H20 H9).
    unfold decide, countCurled, curledIn. cbn [filter].
    apply Rltb_true_iff in Ci, Cm, Cr, Cp.
    rewrite Ci, Cm, Cr, Cp. reflexivity. }
  split; [ exact E | rewrite E; cbn; discriminate ].
Qed.

Lemma classifyGesture_fist_priority_witness :
  classifyGesture (mkResult (Some [fistHand]))
  = Normal (mkGesture CLOSED_FIST (Some (point2 0.5 0.5)) 1)
  /\ typeOf (classifyGesture (mkResult (Some [fistHand]))) <> Some PINCH.
Proof.
  apply (classifyGesture_fist_priority
           fistHand [] (landmark 0.5 0.5 0) (landmark 0.56 0.5 0)
           (landmark 0.55 0.5 0) (landmark 0.55 0.5 0)
           (landmark 0.55 0.5 0) (landmark 0.55 0.5 0)
           (landmark 0.6 0.5 0));
    try reflexivity; eval_planar; lra.
Defined.

(** C2 -- no hands.  On a detection result without hands, whether the
    landmark list is absent or empty, [classifyGesture] returns normally
    with tag NONE and a null anchor; the pinch metric it returns is 0,
    where every other result that is not a pinch carries 1, so the result
    is not the NONE result with pinch metric 1. *)
Theorem classifyGesture_no_hands_metric :
  classifyGesture noLandmarks = Normal (mkGesture NONE None 0)
  /\ classifyGesture noHands = Normal (mkGesture NONE None 0)
  /\ classifyGesture noLandmarks <> Normal (mkGesture NONE None 1)
  /\ classifyGesture noHands <> Normal (mkGesture NONE None 1).
Proof.
  repeat split; cbn; intros E; injection E as E; lra.
Qed.

(** C3, as stated, fails.  The open hand of palm size 0.1 is an OPEN_PALM;
    scaled about its wrist by 0.01 its palm size falls under the clamp and
    the scaled hand is a CLOSED_FIST. *)
Lemma classifyGesture_scale_changes_type :
  0 < 0.01
  /\ typeOf (classifyGesture (mkResult (Some [openHand]))) = Some OPEN_PALM
  /\ typeOf (classifyGesture (scaleResult 0.01 (mkResult (Some [openHand]))))
     = Some CLOSED_FIST.
Proof.
  split; [ lra | split ].
  - unfold classifyGesture. cbn [landmarks].
    erewrite classifyHand_decide by reflexivity.
    cbn [typeOf]. eval_planar. reflexivity.
  - unfold classifyGesture, scaleResult.
    cbn [landmarks option_map map scaleHand openHand handOf scaleAbout x y z].
    erewrite classifyHand_decide by reflexivity.
    cbn [typeOf]. unfold scaleAbout. cbn [x y z]. eval_planar. reflexivity.
Qed.

End Classifier.


(** ** The particle integrator *)

Section Particles.
Import THREE MagicParticles ParticleFacts.

Lemma sqrt_gt_bound (a c : R) : 0 <= c -> c * c < a -> c < sqrt a.
Proof.
  intros Hc Hlt.
  rewrite <- (sqrt_square c) at 1 by lra.
  apply sqrt_lt_1_alt. nra.
Qed.

Lemma centreHand_is_origin : centreHand = Some (vec3 0 0 0).
Proof. unfold centreHand, App.handPosOf. cbn. do 2 f_equal; lra. Qed.

(** The swirl offset has length 0.5: adding it always moves the target. *)
Lemma swirl_moves_target (v : Vector3) (time : R) (p : ParticleData) :
  add v (swirlOffset time p) <> v.
Proof.
  intros E. destruct v as [vx vy vz].
  unfold add, swirlOffset in E. cbn [x y z] in E.
  injection E as Ex Ey _.
  pose proof (sin2_cos2 (time + IZR (id p))) as H.
  unfold Rsqr in H. nra.
Qed.

Lemma updateParticle_initialPos appState hand time i p :
  initialPos (fst (updateParticle appState hand time i p))
  = smooth (initialPos p) (frameTarget appState hand time p).
Proof. reflexivity. Qed.

Lemma nth_error_forEachFrom {A B : Type} (f : Z -> A -> B) (l : list A) :
  forall (i : Z) (n : nat),
    nth_error (forEachFrom f i l) n
    = option_map (f (i + Z.of_nat n)%Z) (nth_error l n).
Proof.
  induction l as [| a l IH]; intros i n.
  - destruct n; reflexivity.
  - destruct n as [| n].
    + cbn. now rewrite Z.add_0_r.
    + cbn [forEachFrom nth_error]. rewrite IH. do 2 f_equal. lia.
Qed.

(** C4, as stated, fails.  A particle created at its scatter position,
    4.1 units from the hand, spends one frame in the TREE state; in the
    next frame, in the SCATTER state with the hand at the centre, its
    scatter position is still farther than 4 units from the hand and its
    target nevertheless carries the swirl offset. *)
Lemma swirl_ignores_scatter_position :
  initialPos farParticle = scatterPos farParticle
  /\ centreHand = Some (vec3 0 0 0)
  /\ 4 < distanceTo (scatterPos farParticleMoved) (vec3 0 0 0)
  /\ includesSwirl SCATTER (Some (vec3 0 0 0)) 0 farParticleMoved
  /\ frameTarget SCATTER (Some (vec3 0 0 0)) 0 farParticleMoved
     <> stateTarget SCATTER 0 farParticleMoved.
Proof.
  assert (S : includesSwirl SCATTER (Some (vec3 0 0 0)) 0 farParticleMoved).
  { unfold includesSwirl, frameTarget, swirls.
    cbn [AppState_eqb].
    replace (Rltb (distanceTo (initialPos farParticleMoved) (vec3 0 0 0)) 4)
      with true; [ reflexivity | ].
    symmetry. apply Rltb_true_iff.
    unfold farParticleMoved, updateParticle, frameTarget, swirls,
      stateTarget, ribbonFlowGuard, distanceTo, lerp, farParticle.
    cbn [fst initialPos withInitialPos treePos isRibbon ribbonPos
         AppState_eqb andb x y z].
    sqrt_cmp. }
  repeat split.
  - exact centreHand_is_origin.
  - unfold farParticleMoved, updateParticle, distanceTo, farParticle.
    cbn [fst scatterPos withInitialPos x y z].
    apply sqrt_gt_bound; [ lra | nra ].
  - exact S.
  - rewrite S. apply swirl_moves_target.
Qed.

(** C4, amended -- the swirl follows the stored position.  In every frame
    with a hand anchor and the SCATTER state, a particle's target carries
    the swirl offset if and only if the particle's stored current position
    (the field [initialPos], created as a copy of the scatter position and
    moved by every frame) is less than 4 units from the hand; at 4 units or
    more the target is the scatter position itself. *)
Theorem swirl_iff_stored_position_near
        (h : Vector3) (time : R) (p : ParticleData) :
  (includesSwirl SCATTER (Some h) time p
   <-> distanceTo (initialPos p) h < 4)
  /\ (4 <= distanceTo (initialPos p) h ->
      frameTarget SCATTER (Some h) time p = scatterPos p).
Proof.
  unfold includesSwirl, frameTarget, swirls, stateTarget.
  cbn [AppState_eqb].
  destruct (Rltb (distanceTo (initialPos p) h) 4) eqn:E.
  - apply Rltb_true_iff in E. repeat split; auto. lra.
  - apply Rltb_false_iff in E. repeat split; auto; try lra.
    intros Heq. exfalso. eapply swirl_moves_target. symmetry. exact Heq.
Qed.

(** C5, as stated, fails.  A particle resting on its heart target with
    phase [PI / 2] stays where it is in a HEART frame at time 0; smoothing
    toward the target plus sway would have lifted it by 0.08 * 0.05. *)
Lemma stored_position_ignores_sway :
  y (initialPos (fst (updateParticle HEART None 0 1000 restingParticle))) = 0
  /\ y (smoothTowardSwayed HEART None 0 restingParticle) = 0.004
  /\ initialPos (fst (updateParticle HEART None 0 1000 restingParticle))
     <> smoothTowardSwayed HEART None 0 restingParticle.
Proof.
  assert (A : y (initialPos
                   (fst (updateParticle HEART None 0 1000 restingParticle)))
              = 0).
  { cbn. lra. }
  assert (B : y (smoothTowardSwayed HEART None 0 restingParticle) = 0.004).
  { unfold smoothTowardSwayed, sway, frameTarget, swirls, stateTarget,
      restingParticle, lerp, add.
    cbn [AppState_eqb initialPos heartPos phase x y z].
    replace (0 * 2 + PI / 2) with (PI / 2) by lra.
    rewrite sin_PI2. lra. }
  repeat split; [ exact A | exact B | ].
  intros E. rewrite E, B in A. lra.
Qed.

(** C5, amended -- smoothing toward the target, sway on the emitted
    position.  In every frame with the mesh mounted, each particle's
    stored position moves by the blend factor 0.08 toward the frame's
    target alone, [new = old + 0.08 * (target - old)]; the vertical sway
    [sin (2 * time + phase) * 0.05] is added afterwards to the [y] of the
    position written to the mesh and is not stored. *)
Theorem useFrame_smooths_then_sways
        (appState : AppState) (hand : option Vector3) (time : R)
        (particles : list ParticleData) (n : nat) (p : ParticleData) :
  nth_error particles n = Some p ->
  exists (p' : ParticleData) (inst : Instance),
    nth_error (fst (useFrame true appState hand time particles)) n = Some p'
    /\ nth_error (snd (useFrame true appState hand time particles)) n
       = Some inst
    /\ (let old := initialPos p in
        let target := frameTarget appState hand time p in
        initialPos p'
        = vec3 (x old + 0.08 * (x target - x old))
               (y old + 0.08 * (y target - y old))
               (z old + 0.08 * (z target - z old)))
    /\ instPosition inst
       = vec3 (x (initialPos p'))
              (y (initialPos p') + sin (time * 2 + phase p) * 0.05)
              (z (initialPos p')).
Proof.
  intros Hn.
  exists (fst (updateParticle appState hand time (Z.of_nat n) p)),
    (snd (updateParticle appState hand time (Z.of_nat n) p)).
  unfold useFrame. cbn [negb fst snd].
  rewrite !nth_error_map, nth_error_forEachFrom, Hn.
  cbn [option_map]. rewrite Z.add_0_l.
  repeat split.
  cbn [updateParticle fst withInitialPos initialPos]. unfold lerp.
  f_equal; ring.
Qed.

Lemma useFrame_smooths_then_sways_witness :
  exists (p' : ParticleData) (inst : Instance),
    nth_error (fst (useFrame true HEART None 0 [restingParticle])) 0
    = Some p'
    /\ nth_error (snd (useFrame true HEART None 0 [restingParticle])) 0
       = Some inst
    /\ (let old := initialPos restingParticle in
        let target := frameTarget HEART None 0 restingParticle in
        initialPos p'
        = vec3 (x old + 0.08 * (x target - x old))
               (y old + 0.08 * (y target - y old))
               (z old + 0.08 * (z target - z old)))
    /\ instPosition inst
       = vec3 (x (initialPos p'))
              (y (initialPos p') + sin (0 * 2 + phase restingParticle) * 0.05)
              (z (initialPos p')).
Proof.
  apply (useFrame_smooths_then_sways HEART None 0 [restingParticle] 0
                                     restingParticle).
  reflexivity.
Defined.

(** *** The generated batch *)

Lemma particleAt_flags (random : nat -> R) (i : Z) (k : nat) :
  let p := fst (particleAt random i k) in
  (isRibbon p && isTrunk p)%bool = false
  /\ (isRibbon p = true -> ribbonPos p <> None)
  /\ (isRibbon p = false -> ribbonPos p = None).
Proof.
  unfold particleAt, rbind, ret, Math_random.
  destruct (i <? RIBBON_COUNT)%Z;
    destruct (Rgtb (IZR i) (IZR COUNT - IZR COUNT * 0.1));
    cbn [fst snd negb andb isRibbon isTrunk ribbonPos].
  all: repeat split; intros; first [ discriminate | reflexivity ].
Qed.

Lemma generateFrom_In (random : nat -> R) (n : nat) :
  forall (i : Z) (k : nat) (p : ParticleData),
    In p (fst (generateFrom random n i k)) ->
    exists (j : Z) (k' : nat), p = fst (particleAt random j k').
Proof.
  induction n as [| n IH]; intros i k p Hin.
  - contradiction.
  - cbn [generateFrom] in Hin. unfold rbind at 1 in Hin.
    destruct (particleAt random i k) as [p0 k1] eqn:E1.
    unfold rbind in Hin.
    destruct (generateFrom random n (i + 1)%Z k1) as [rest k2] eqn:E2.
    cbn [ret fst] in Hin. destruct Hin as [<- | Hin].
    + exists i, k. now rewrite E1.
    + apply (IH (i + 1)%Z k1). now rewrite E2.
Qed.

Lemma generateFrom_head (random : nat -> R) (n : nat) (i : Z) (k : nat) :
  In (fst (particleAt random i k)) (fst (generateFrom random (S n) i k)).
Proof.
  cbn [generateFrom]. unfold rbind at 1.
  destruct (particleAt random i k) as [p0 k1].
  unfold rbind.
  destruct (generateFrom random n (i + 1)%Z k1) as [rest k2].
  cbn [ret fst]. now left.
Qed.

Lemma COUNT_positive : exists n : nat, Z.to_nat COUNT = S n.
Proof. exists (Nat.pred (Z.to_nat COUNT)). unfold COUNT. lia. Qed.

(** C9 -- flags of a generated particle.  For every particle of the
    generated batch, whatever the random draws: [isRibbon] and [isTrunk]
    are not both true; a particle with [isRibbon] carries a ribbon
    position; a particle without [isRibbon] carries none, the guard of the
    ribbon-flow branch fails for it in every application state, and its
    target is one of its stored scatter, heart and tree positions. *)
Theorem generated_particle_flags
        (random : nat -> R) (p : ParticleData) :
  In p (generateParticles random) ->
  (isRibbon p && isTrunk p)%bool = false
  /\ (isRibbon p = true -> ribbonPos p <> None)
  /\ (isRibbon p = false ->
      ribbonPos p = None
      /\ forall (appState : AppState) (time : R),
          ribbonFlowGuard appState p = None
          /\ stateTarget appState time p
             = match appState with
               | SCATTER => scatterPos p
               | HEART => heartPos p
               | _ => treePos p
               end).
Proof.
  intros Hin. unfold generateParticles in Hin.
  apply generateFrom_In in Hin. destruct Hin as (j & k & ->).
  destruct (particleAt_flags random j k) as (Hex & Hrib & Hnone).
  repeat split; auto.
  - unfold ribbonFlowGuard. rewrite H.
    now destruct (AppState_eqb appState TREE).
  - unfold stateTarget, ribbonFlowGuard. rewrite H.
    now destruct appState.
Qed.

Lemma generated_particle_flags_witness :
  let p := fst (particleAt zeroOracle 0%Z 0%nat) in
  (isRibbon p && isTrunk p)%bool = false
  /\ (isRibbon p = true -> ribbonPos p <> None)
  /\ (isRibbon p = false ->
      ribbonPos p = None
      /\ forall (appState : AppState) (time : R),
          ribbonFlowGuard appState p = None
          /\ stateTarget appState time p
             = match appState with
               | SCATTER => scatterPos p
               | HEART => heartPos p
               | _ => treePos p
               end).
Proof.
  apply (generated_particle_flags zeroOracle).
  unfold generateParticles.
  destruct COUNT_positive as [n ->].
  apply generateFrom_head.
Defined.

End Particles.


(** ** The photo grab controller *)

Section Photos.
Import THREE FloatingPhotos PhotoFacts.

Lemma foldFrom_app {A S : Type} (f : S -> Z -> A -> S) (l1 l2 : list A) :
  forall (s : S) (i : Z),
    foldFrom f s i (l1 ++ l2)
    = foldFrom f (foldFrom f s i l1) (i + Z.of_nat (List.length l1))%Z l2.
Proof.
  induction l1 as [| a l1 IH]; intros s i.
  - cbn. now rewrite Z.add_0_r.
  - cbn [app foldFrom List.length]. rewrite IH. f_equal. lia.
Qed.

(** Children that are all farther than [d] keep the running minimum
    above [d]. *)
Lemma scan_keeps_above (g : Group) (photos : list PhotoData) (h : Vector3)
      (d : R) (l : list Child) :
  forall (i : Z) (acc : Distance * option string),
    ltDistance d (fst acc) = true ->
    (forall (n : nat) (c : Child) (ph : PhotoData),
        nth_error l n = Some c ->
        arrayGet photos (i + Z.of_nat n)%Z = Some ph ->
        d < handDistance g h c) ->
    ltDistance d (fst (foldFrom (scanChild g photos h) acc i l)) = true.
Proof.
  induction l as [| a l IH]; intros i acc Hacc Hfar; [ exact Hacc | ].
  cbn [foldFrom]. apply IH.
  - unfold scanChild.
    destruct (arrayGet photos i) as [ph |] eqn:Eph; [ | exact Hacc ].
    match goal with |- context [if ?b then _ else _] => destruct b end;
      [ | exact Hacc ].
    cbn [fst ltDistance]. apply Rltb_true_iff.
    apply (Hfar 0%nat a ph); [ reflexivity | now rewrite Z.add_0_r ].
  - intros n c ph Hn Hph. apply (Hfar (S n) c ph); [ exact Hn | ].
    now replace (i + Z.of_nat (S n))%Z with (i + 1 + Z.of_nat n)%Z by lia.
Qed.

(** Children that are at least as far as the current minimum leave the
    selection alone. *)
Lemma scan_keeps_selection (g : Group) (photos : list PhotoData)
      (h : Vector3) (d : R) (sel : option string) (l : list Child) :
  forall i : Z,
    (forall (n : nat) (c : Child) (ph : PhotoData),
        nth_error l n = Some c ->
        arrayGet photos (i + Z.of_nat n)%Z = Some ph ->
        d <= handDistance g h c) ->
    foldFrom (scanChild g photos h) (Finite d, sel) i l = (Finite d, sel).
Proof.
  induction l as [| a l IH]; intros i Hfar; [ reflexivity | ].
  cbn [foldFrom].
  replace (scanChild g photos h (Finite d, sel) i a) with (Finite d, sel).
  - apply IH. intros n c ph Hn Hph. apply (Hfar (S n) c ph); [ exact Hn | ].
    now replace (i + Z.of_nat (S n))%Z with (i + 1 + Z.of_nat n)%Z by lia.
  - unfold scanChild.
    destruct (arrayGet photos i) as [ph |] eqn:Eph; [ | reflexivity ].
    cbn [fst ltDistance].
    replace (Rltb (distanceTo h (localToWorld g (childPosition a))) d)
      with false; [ now rewrite andb_false_r | ].
    symmetry. apply Rltb_false_iff.
    apply (Hfar 0%nat a ph); [ reflexivity | now rewrite Z.add_0_r ].
Qed.

(** Children that are all at 1.5 units or more select nothing. *)
Lemma scan_selects_nothing (g : Group) (photos : list PhotoData)
      (h : Vector3) (l : list Child) :
  forall i : Z,
    (forall (n : nat) (c : Child) (ph : PhotoData),
        nth_error l n = Some c ->
        arrayGet photos (i + Z.of_nat n)%Z = Some ph ->
        1.5 <= handDistance g h c) ->
    foldFrom (scanChild g photos h) (Infinity, None) i l = (Infinity, None).
Proof.
  induction l as [| a l IH]; intros i Hfar; [ reflexivity | ].
  cbn [foldFrom].
  replace (scanChild g photos h (Infinity, None) i a)
    with (Infinity, @None string).
  - apply IH. intros n c ph Hn Hph. apply (Hfar (S n) c ph); [ exact Hn | ].
    now replace (i + Z.of_nat (S n))%Z with (i + 1 + Z.of_nat n)%Z by lia.
  - unfold scanChild.
    destruct (arrayGet photos i) as [ph |] eqn:Eph; [ | reflexivity ].
    replace (Rltb (distanceTo h (localToWorld g (childPosition a))) 1.5)
      with false; [ reflexivity | ].
    symmetry. apply Rltb_false_iff.
    apply (Hfar 0%nat a ph); [ reflexivity | now rewrite Z.add_0_r ].
Qed.

(** The search returns the first child at the least distance, when that
    distance is below 1.5. *)
Lemma findClosest_selects (g : Group) (photos : list PhotoData)
      (h : Vector3) (j : nat) (child : Child) (photo : PhotoData) :
  nth_error (children g) j = Some child ->
  arrayGet photos (Z.of_nat j) = Some photo ->
  handDistance g h child < 1.5 ->
  (forall (n : nat) (c : Child) (ph : PhotoData),
      nth_error (children g) n = Some c ->
      arrayGet photos (Z.of_nat n) = Some ph ->
      (n < j)%nat -> handDistance g h child < handDistance g h c) ->
  (forall (n : nat) (c : Child) (ph : PhotoData),
      nth_error (children g) n = Some c ->
      arrayGet photos (Z.of_nat n) = Some ph ->
      (j < n)%nat -> handDistance g h child <= handDistance g h c) ->
  findClosest g photos SCATTER (Some h) true = Some (photoId photo).
Proof.
  intros Hj Hph Hnear Hbefore Hafter.
  unfold findClosest. cbn [andb AppState_eqb].
  destruct (nth_error_split _ _ Hj) as (pre & post & Hsplit & Hlen).
  rewrite Hsplit, foldFrom_app. cbn [foldFrom]. rewrite Z.add_0_l, Hlen.
  set (acc := foldFrom (scanChild g photos h) (Infinity, None) 0%Z pre).
  assert (Hacc : ltDistance (handDistance g h child) (fst acc) = true).
  { apply scan_keeps_above; [ reflexivity | ].
    intros n c ph Hn Hp. rewrite Z.add_0_l in Hp.
    assert (n < j)%nat
      by (rewrite <- Hlen; apply nth_error_Some; congruence).
    apply (Hbefore n c ph); auto.
    rewrite Hsplit, nth_error_app1; [ exact Hn | lia ]. }
  unfold scanChild at 2. rewrite Hph.
  fold (handDistance g h child). rewrite Hacc.
  replace (Rltb (handDistance g h child) 1.5) with true
    by (symmetry; now apply Rltb_true_iff).
  cbn [andb]. rewrite scan_keeps_selection; [ reflexivity | ].
  intros n c ph Hn Hp.
  replace (Z.of_nat j + 1 + Z.of_nat n)%Z
    with (Z.of_nat (j + 1 + n)) in Hp by lia.
  apply (Hafter (j + 1 + n)%nat c ph); [ | exact Hp | lia ].
  rewrite Hsplit, nth_error_app2 by lia.
  replace (j + 1 + n - List.length pre)%nat with (S n) by lia.
  exact Hn.
Qed.

Lemma beyondThreshold_no_candidate (f : Frame) :
  beyondThreshold f -> closestOf f = None.
Proof.
  intros Hfar. unfold closestOf, findClosest.
  destruct (fHand f) as [h |] eqn:Eh; [ | reflexivity ].
  destruct (fPinching f && AppState_eqb (fAppState f) SCATTER);
    [ | reflexivity ].
  rewrite scan_selects_nothing; [ reflexivity | ].
  intros n c ph Hn Hp. rewrite Z.add_0_l in Hp.
  exact (Hfar h Eh n c ph Hn Hp).
Qed.

Lemma step_unfold (active : option string) (f : Frame) :
  step active f = updateActive (closestOf f) (fPinching f) active.
Proof. reflexivity. Qed.

Lemma step_keeps (a : string) (f : Frame) :
  keepsGrab a f -> step (Some a) f = Some a.
Proof.
  intros [Hpinch Hcand]. rewrite step_unfold, Hpinch. unfold updateActive.
  destruct Hcand as [Hfar | [Hfalsy | Hsame]].
  - now rewrite (beyondThreshold_no_candidate f Hfar).
  - now rewrite Hfalsy.
  - rewrite Hsame. now destruct (truthy (Some a)).
Qed.

Lemma released_no_candidate (f : Frame) :
  fPinching f = false -> closestOf f = None.
Proof.
  intros Hp. unfold closestOf, findClosest. rewrite Hp.
  now destruct (fHand f).
Qed.

(** Evaluates a frame of the controller on explicit photos. *)
Ltac eval_frame :=
  repeat (progress
            (cbn -[IZR Rltb sqrt sin];
             try unfold distanceTo, updateActive, scanChild, animateChild,
               photoTarget, lerp, add;
             cbn -[IZR Rltb sqrt sin];
             try change (Pos.to_nat 1) with 1%nat;
             cbn -[IZR Rltb sqrt sin];
             rewrite ?Rplus_0_l, ?sin_0;
             eval_Rltb)).

(** C7, as stated, fails.  Photo A is grabbed by a pinch at its position;
    in the next frame the pinch continues with the hand at photo B, three
    units away, and the active grab target is B, not A. *)
Lemma grab_lost_while_pinching :
  snd afterPinchAtA = Some "A"%string
  /\ snd afterMoveToB = Some "B"%string
  /\ snd afterMoveToB <> snd afterPinchAtA.
Proof.
  assert (A : snd afterPinchAtA = Some "A"%string).
  { unfold afterPinchAtA, useFrame, findClosest, twoGroup, groupOf,
      twoPhotos.
    eval_frame. reflexivity. }
  assert (B : snd afterMoveToB = Some "B"%string).
  { unfold afterMoveToB, afterPinchAtA, useFrame, findClosest, twoGroup,
      groupOf, twoPhotos.
    eval_frame. reflexivity. }
  repeat split; [ exact A | exact B | rewrite A, B; discriminate ].
Qed.

(** C7, amended -- the grab is sticky while it is not contested.  With
    the photo group mounted and [a] the active grab target: over any run
    of frames in which the pinch continues and either the hand is at least
    1.5 units from every rendered photo or the frame selects no photo other
    than [a], the active grab target stays [a]; and in the first frame
    after them in which the pinch has ended, no candidate exists and the
    active grab target is cleared. *)
Theorem grab_sticky_until_release
        (a : string) (frames : list Frame) (released : Frame) :
  Forall (keepsGrab a) frames ->
  fPinching released = false ->
  run frames (Some a) = Some a
  /\ closestOf released = None
  /\ run (frames ++ [released]) (Some a) = None.
Proof.
  intros Hkeep Hrel.
  assert (Hrun : run frames (Some a) = Some a).
  { unfold run. induction Hkeep as [| f fs Hf _ IH]; [ reflexivity | ].
    cbn [fold_left]. now rewrite (step_keeps a f Hf). }
  repeat split; [ exact Hrun | now apply released_no_candidate | ].
  unfold run in *. rewrite fold_left_app, Hrun. cbn [fold_left].
  rewrite step_unfold, (released_no_candidate released Hrel), Hrel.
  reflexivity.
Qed.

Lemma grab_sticky_until_release_witness :
  run [farFrame] (Some "A"%string) = Some "A"%string
  /\ closestOf releasedFrame = None
  /\ run ([farFrame] ++ [releasedFrame]) (Some "A"%string) = None.
Proof.
  apply (grab_sticky_until_release "A"%string [farFrame] releasedFrame).
  - constructor; [ | constructor ].
    split; [ reflexivity | left ].
    intros h Hh n c ph Hn _. cbn in Hh. injection Hh as <-.
    destruct n as [| [| n]]; cbn in Hn;
      [ injection Hn as <- | injection Hn as <- | destruct n; discriminate ];
      unfold handDistance, distanceTo; cbn -[IZR sqrt]; sqrt_cmp.
  - reflexivity.
Defined.

(** C10 -- the grab passes to the closest photo.  With the photo group
    mounted, a pinch in the SCATTER state and a hand anchor: if the
    rendered photo at slot [j] is less than 1.5 units from the hand,
    strictly closer than every photo before it and at least as close as
    every photo after it, and its id is not empty, then after the frame
    the active grab target is that photo, whatever it was before; if it
    was another photo, the grab has changed hands with the pinch still
    on. *)
Theorem grab_passes_to_closest
        (g : Group) (photos : list PhotoData) (h : Vector3) (time : R)
        (active : option string) (j : nat) (child : Child)
        (photo : PhotoData) :
  nth_error (children g) j = Some child ->
  arrayGet photos (Z.of_nat j) = Some photo ->
  photoId photo <> EmptyString ->
  handDistance g h child < 1.5 ->
  (forall (n : nat) (c : Child) (ph : PhotoData),
      nth_error (children g) n = Some c ->
      arrayGet photos (Z.of_nat n) = Some ph ->
      (n < j)%nat -> handDistance g h child < handDistance g h c) ->
  (forall (n : nat) (c : Child) (ph : PhotoData),
      nth_error (children g) n = Some c ->
      arrayGet photos (Z.of_nat n) = Some ph ->
      (j < n)%nat -> handDistance g h child <= handDistance g h c) ->
  activeAfter (Some g) photos SCATTER (Some h) true time active
  = Some (photoId photo)
  /\ (active <> Some (photoId photo) ->
      activeAfter (Some g) photos SCATTER (Some h) true time active
      <> active).
Proof.
  intros Hj Hph Hid Hnear Hbefore Hafter.
  assert (E : activeAfter (Some g) photos SCATTER (Some h) true time active
              = Some (photoId photo)).
  { unfold activeAfter, useFrame. cbn [snd].
    rewrite (findClosest_selects g photos h j child photo
               Hj Hph Hnear Hbefore Hafter).
    unfold updateActive, truthy.
    destruct (String.eqb (photoId photo) EmptyString) eqn:Eq;
      [ apply String.eqb_eq in Eq; contradiction | reflexivity ]. }
  split; [ exact E | intros Hne; rewrite E; congruence ].
Qed.

Lemma grab_passes_to_closest_witness :
  activeAfter (Some twoGroup) twoPhotos SCATTER (Some (vec3 0 0 0)) true 1
              (Some "B"%string)
  = Some (photoId photoA)
  /\ (Some "B"%string <> Some (photoId photoA) ->
      activeAfter (Some twoGroup) twoPhotos SCATTER (Some (vec3 0 0 0)) true
                  1 (Some "B"%string)
      <> Some "B"%string).
Proof.
  assert (D0 : handDistance twoGroup (vec3 0 0 0) (childAt (vec3 0 0 0)) = 0).
  { unfold handDistance, distanceTo. cbn -[IZR sqrt].
    replace ((0 - 0) * (0 - 0) + (0 - 0) * (0 - 0) + (0 - 0) * (0 - 0))
      with 0 by ring.
    apply sqrt_0. }
  apply (grab_passes_to_closest twoGroup twoPhotos (vec3 0 0 0) 1
           (Some "B"%string) 1 (childAt (vec3 0 0 0)) photoA).
  - reflexivity.
  - reflexivity.
  - discriminate.
  - rewrite D0. lra.
  - intros n c ph Hn _ Hlt. rewrite D0.
    destruct n as [| n]; [ | lia ].
    cbn in Hn. injection Hn as <-.
    unfold handDistance, distanceTo. cbn -[IZR sqrt].
    apply sqrt_gt_bound; [ lra | nra ].
  - intros n c ph Hn _ Hlt.
    destruct n as [| [| n]]; [ lia | lia | ].
    cbn in Hn. destruct n; discriminate.
Defined.

(** C8, as stated, fails.  A photo rendered at the origin with scale 0 and
    home (1, 0, 0) moves to x = 0.1 and scale 0.035 in one frame; the
    particle integrator's step toward the same targets would give x = 0.08
    and scale 0.028. *)
Lemma photo_blend_is_not_particle_blend :
  let moved := animateChild (groupOf [freshChild]) [onePhoto] None 0 None 0
                            freshChild in
  let target := photoTarget (groupOf [freshChild]) onePhoto None 0 false 0 in
  x (childPosition moved) = 0.1
  /\ x (MagicParticles.smooth (childPosition freshChild) (fst target)) = 0.08
  /\ x (childScale moved) = 0.035
  /\ MathUtils.lerp (x (childScale freshChild)) (snd target) 0.08 = 0.028
  /\ childPosition moved
     <> MagicParticles.smooth (childPosition freshChild) (fst target).
Proof.
  cbn zeta.
  assert (A : x (childPosition
                   (animateChild (groupOf [freshChild]) [onePhoto] None 0
                                 None 0 freshChild)) = 0.1).
  { cbn -[IZR sin]. lra. }
  assert (B : x (MagicParticles.smooth
                   (childPosition freshChild)
                   (fst (photoTarget (groupOf [freshChild]) onePhoto None 0
                                     false 0))) = 0.08).
  { cbn -[IZR sin]. lra. }
  repeat split; [ exact A | exact B | | | ].
  - cbn -[IZR sin]. unfold MathUtils.lerp. lra.
  - cbn -[IZR sin]. unfold MathUtils.lerp. lra.
  - intros E. rewrite E, B in A. lra.
Qed.

(** C8, amended -- photos blend by 0.1, particles by 0.08.  In every
    frame, a rendered photo's position moves toward its target position
    and its uniform scale toward its target scale with the same blend
    factor 0.1; this is the same first-order smoothing as the particle
    integrator's, whose blend factor is 0.08, a different value. *)
Theorem photo_blend_factor
        (g : Group) (photos : list PhotoData) (hand : option Vector3)
        (time : R) (active : option string) (idx : Z) (child : Child)
        (photo : PhotoData) :
  arrayGet photos idx = Some photo ->
  let target :=
    photoTarget g photo hand time (isGrabbedBy active photo) idx in
  let moved := animateChild g photos hand time active idx child in
  let s := x (childScale child) + 0.1 * (snd target - x (childScale child)) in
  childPosition moved = lerp (childPosition child) (fst target) 0.1
  /\ childScale moved = vec3 s s s
  /\ (forall (appState : AppState) (hand' : option Vector3) (time' : R)
             (i : Z) (p : ParticleData),
         initialPos (fst (MagicParticles.updateParticle
                            appState hand' time' i p))
         = lerp (initialPos p)
                (MagicParticles.frameTarget appState hand' time' p) 0.08)
  /\ 0.1 <> 0.08.
Proof.
  intros Hph. cbn zeta. unfold animateChild. rewrite Hph.
  destruct (photoTarget g photo hand time (isGrabbedBy active photo) idx)
    as [tp ts].
  cbn [childPosition childScale fst snd].
  repeat split; [ | lra ].
  unfold MathUtils.lerp. f_equal; ring.
Qed.

Lemma photo_blend_factor_witness :
  let target :=
    photoTarget (groupOf [freshChild]) onePhoto None 0
                (isGrabbedBy None onePhoto) 0 in
  let moved := animateChild (groupOf [freshChild]) [onePhoto] None 0 None 0
                            freshChild in
  let s := x (childScale freshChild)
           + 0.1 * (snd target - x (childScale freshChild)) in
  childPosition moved = lerp (childPosition freshChild) (fst target) 0.1
  /\ childScale moved = vec3 s s s
  /\ (forall (appState : AppState) (hand' : option Vector3) (time' : R)
             (i : Z) (p : ParticleData),
         initialPos (fst (MagicParticles.updateParticle
                            appState hand' time' i p))
         = lerp (initialPos p)
                (MagicParticles.frameTarget appState hand' time' p) 0.08)
  /\ 0.1 <> 0.08.
Proof.
  apply (photo_blend_factor (groupOf [freshChild]) [onePhoto] None 0 None 0
                            freshChild onePhoto).
  reflexivity.
Defined.

End Photos.


(** ** More on the gesture classifier *)

(** Rewrites [Rabs e] to [e] or [- e] for a closed [e]. *)
Ltac eval_abs :=
  repeat match goal with
    | |- context [Rabs ?e] =>
        first [ rewrite (Rabs_right e) by lra
              | rewrite (Rabs_left e) by lra ]
    end.

Section ClassifierMore.
Import HandRecognition HandFacts HandMaps.

(** Evaluates [decide] on joints that share their [y] coordinate. *)
Ltac eval_joints :=
  unfold decide, countCurled, curledIn; cbn [filter];
  rewrite ?planar_horizontal by reflexivity;
  cbn [x y]; eval_abs; unfold safeScaleOf; eval_Rltb;
  cbn [filter List.length Nat.eqb Nat.leb].

Lemma classifyHand_short (hand : list NormalizedLandmark) :
  (List.length hand < 21)%nat -> classifyHand hand = Throw TypeError.
Proof.
  intros Hlen.
  assert (H20 : nth_error hand 20 = None) by (apply nth_error_None; lia).
  unfold classifyHand. rewrite H20.
  destruct (nth_error hand 0), (nth_error hand 9), (nth_error hand 4),
    (nth_error hand 8), (nth_error hand 12), (nth_error hand 16);
    cbn [dist deref bind filterM]; reflexivity.
Qed.

Lemma joint_present_ge (hand : list NormalizedLandmark) (i : nat) :
  (21 <= List.length hand)%nat -> (i < 21)%nat ->
  exists l, nth_error hand i = Some l.
Proof.
  intros Hlen Hi.
  destruct (nth_error hand i) eqn:E; [ eauto | ].
  apply nth_error_None in E. lia.
Qed.

Lemma classifyHand_long (hand : list NormalizedLandmark) :
  (21 <= List.length hand)%nat ->
  exists w th ix mi ri pk mcp,
    nth_error hand 0 = Some w /\ nth_error hand 4 = Some th
    /\ nth_error hand 8 = Some ix /\ nth_error hand 12 = Some mi
    /\ nth_error hand 16 = Some ri /\ nth_error hand 20 = Some pk
    /\ nth_error hand 9 = Some mcp
    /\ classifyHand hand = Normal (decide w th ix mi ri pk mcp).
Proof.
  intros Hlen.
  destruct (joint_present_ge hand 0 Hlen ltac:(lia)) as [w H0].
  destruct (joint_present_ge hand 4 Hlen ltac:(lia)) as [th H4].
  destruct (joint_present_ge hand 8 Hlen ltac:(lia)) as [ix H8].
  destruct (joint_present_ge hand 12 Hlen ltac:(lia)) as [mi H12].
  destruct (joint_present_ge hand 16 Hlen ltac:(lia)) as [ri H16].
  destruct (joint_present_ge hand 20 Hlen ltac:(lia)) as [pk H20].
  destruct (joint_present_ge hand 9 Hlen ltac:(lia)) as [mcp H9].
  exists w, th, ix, mi, ri, pk, mcp. repeat split; auto.
  now apply classifyHand_decide.
Qed.

(** X1 -- when the classifier throws.  On a result with at least one
    hand, [classifyGesture] throws a [TypeError] exactly when the primary
    hand has fewer than 21 joints, and returns a gesture exactly when it
    has 21 or more. *)
Theorem classifyGesture_throws_iff_short
        (hand : list NormalizedLandmark)
        (others : list (list NormalizedLandmark)) :
  (classifyGesture (mkResult (Some (hand :: others))) = Throw TypeError
   <-> (List.length hand < 21)%nat)
  /\ ((exists g, classifyGesture (mkResult (Some (hand :: others)))
                 = Normal g)
      <-> (21 <= List.length hand)%nat).
Proof.
  unfold classifyGesture. cbn [landmarks].
  destruct (Nat.lt_ge_cases (List.length hand) 21) as [Hs | Hl].
  - pose proof (classifyHand_short hand Hs) as E. rewrite E.
    split; split; intros H; auto; try lia.
    destruct H as [g Hg]. discriminate.
  - destruct (classifyHand_long hand Hl)
      as (w & th & ix & mi & ri & pk & mcp & _ & _ & _ & _ & _ & _ & _ & E).
    rewrite E. split; split; intros H; auto; try lia; try discriminate.
    eauto.
Qed.

Lemma decide_anchor (w th ix mi ri pk mcp : NormalizedLandmark) :
  (handCenter (decide w th ix mi ri pk mcp) = None
   <-> type (decide w th ix mi ri pk mcp) = NONE)
  /\ 0 <= pinchDistance (decide w th ix mi ri pk mcp).
Proof.
  unfold decide.
  destruct (Nat.eqb _ 4); [ cbn; split; [ split; discriminate | lra ] | ].
  destruct (Rltb (planar th ix) _);
    [ cbn; split; [ split; discriminate | apply planar_nonneg ] | ].
  destruct (Nat.leb _ 1); cbn; split; try lra; split; auto; discriminate.
Qed.

Lemma returned_anchor (r : HandLandmarkerResult) (g : GestureResult) :
  classifyGesture r = Normal g ->
  (handCenter g = None <-> type g = NONE) /\ 0 <= pinchDistance g.
Proof.
  unfold classifyGesture.
  destruct (landmarks r) as [[| hand others] |].
  - intros E. injection E as <-. cbn. split; [ tauto | lra ].
  - intros E.
    destruct (Nat.lt_ge_cases (List.length hand) 21) as [Hs | Hl].
    + rewrite (classifyHand_short hand Hs) in E. discriminate.
    + destruct (classifyHand_long hand Hl)
        as (w & th & ix & mi & ri & pk & mcp
            & _ & _ & _ & _ & _ & _ & _ & E').
      rewrite E' in E. injection E as <-. apply decide_anchor.
  - intros E. injection E as <-. cbn. split; [ tauto | lra ].
Qed.

(** The anchor of a returned gesture is a joint of the primary hand. *)
Lemma returned_anchor_is_joint (r : HandLandmarkerResult)
      (g : GestureResult) (c : Point2) :
  classifyGesture r = Normal g -> handCenter g = Some c ->
  exists hands hand l,
    landmarks r = Some hands /\ In hand hands /\ In l hand
    /\ px c = x l /\ py c = y l.
Proof.
  unfold classifyGesture.
  destruct (landmarks r) as [[| hand others] |] eqn:El.
  - intros E. injection E as <-. discriminate.
  - intros E Hc.
    destruct (Nat.lt_ge_cases (List.length hand) 21) as [Hs | Hl].
    + rewrite (classifyHand_short hand Hs) in E. discriminate.
    + destruct (classifyHand_long hand Hl)
        as (w & th & ix & mi & ri & pk & mcp
            & H0 & _ & H8 & _ & _ & _ & H9 & E').
      rewrite E' in E. injection E as <-.
      exists (hand :: others), hand.
      apply nth_error_In in H0, H8, H9.
      unfold decide in Hc.
      destruct (Nat.eqb _ 4);
        [ injection Hc as <-; exists w; cbn; intuition | ].
      destruct (Rltb (planar th ix) _);
        [ injection Hc as <-; exists ix; cbn; intuition | ].
      destruct (Nat.leb _ 1);
        [ injection Hc as <-; exists mcp; cbn; intuition | discriminate ].
  - intros E. injection E as <-. discriminate.
Qed.

(** X2 -- anchor and tag agree.  Whenever [classifyGesture] returns, the
    anchor is null exactly when the tag is NONE, and the pinch metric is
    not negative. *)
Theorem classifyGesture_anchor_iff_gesture
        (r : HandLandmarkerResult) (g : GestureResult) :
  classifyGesture r = Normal g ->
  (handCenter g = None <-> type g = NONE) /\ 0 <= pinchDistance g.
Proof. apply returned_anchor. Qed.

Lemma classifyGesture_anchor_iff_gesture_witness :
  (handCenter (mkGesture OPEN_PALM (Some (point2 0.6 0.5)) 1) = None
   <-> type (mkGesture OPEN_PALM (Some (point2 0.6 0.5)) 1) = NONE)
  /\ 0 <= pinchDistance (mkGesture OPEN_PALM (Some (point2 0.6 0.5)) 1).
Proof.
  apply (classifyGesture_anchor_iff_gesture (mkResult (Some [openHand]))).
  unfold classifyGesture. cbn [landmarks].
  erewrite classifyHand_decide by reflexivity.
  eval_joints. reflexivity.
Defined.

(** X3 -- what a PINCH carries.  When a hand with its seven joints
    present is classified PINCH, the anchor is the index tip, the pinch
    metric is the planar thumb-to-index distance, that distance is below
    0.65 times the clamped palm size, and at least one of the four finger
    tips is not curled. *)
Theorem classifyGesture_pinch_result
        (hand : list NormalizedLandmark)
        (others : list (list NormalizedLandmark))
        (wrist thumbTip indexTip middleTip ringTip pinkyTip middleMCP
         : NormalizedLandmark) :
  nth_error hand 0 = Some wrist ->
  nth_error hand 4 = Some thumbTip ->
  nth_error hand 8 = Some indexTip ->
  nth_error hand 12 = Some middleTip ->
  nth_error hand 16 = Some ringTip ->
  nth_error hand 20 = Some pinkyTip ->
  nth_error hand 9 = Some middleMCP ->
  typeOf (classifyGesture (mkResult (Some (hand :: others)))) = Some PINCH ->
  classifyGesture (mkResult (Some (hand :: others)))
  = Normal (mkGesture PINCH (Some (point2 (x indexTip) (y indexTip)))
                      (planar thumbTip indexTip))
  /\ planar thumbTip indexTip < safeScaleOf (planar wrist middleMCP) * 0.65
  /\ ~ (planar indexTip wrist < safeScaleOf (planar wrist middleMCP) * 1.35
        /\ planar middleTip wrist
           < safeScaleOf (planar wrist middleMCP) * 1.35
        /\ planar ringTip wrist
           < safeScaleOf (planar wrist middleMCP) * 1.35
        /\ planar pinkyTip wrist
           < safeScaleOf (planar wrist middleMCP) * 1.35).
Proof.
  intros H0 H4 H8 H12 H16 H20 H9.
  unfold classifyGesture. cbn [landmarks].
  rewrite (classifyHand_decide hand _ _ _ _ _ _ _ H0 H4 H8 H12 H16 H20 H9).
  cbn [typeOf]. unfold decide, countCurled, curledIn. cbn [filter].
  set (s := safeScaleOf (planar wrist middleMCP)).
  destruct (Rltb (planar indexTip wrist) (s * 1.35)) eqn:Ci,
    (Rltb (planar middleTip wrist) (s * 1.35)) eqn:Cm,
    (Rltb (planar ringTip wrist) (s * 1.35)) eqn:Cr,
    (Rltb (planar pinkyTip wrist) (s * 1.35)) eqn:Cp;
    cbn [List.length Nat.eqb Nat.leb];
    try (intros E; discriminate E);
    destruct (Rltb (planar thumbTip indexTip) (s * 0.65)) eqn:Pn;
    try (destruct (Nat.leb _ 1)); cbn [type];
    intros E; try discriminate E;
    (split; [ reflexivity | split; [ now apply Rltb_true_iff | ] ]);
    intros (Ai & Am & Ar & Ap);
    apply Rltb_true_iff in Ai, Am, Ar, Ap; congruence.
Qed.

Lemma classifyGesture_pinch_result_witness :
  classifyGesture (mkResult (Some [pinchHand]))
  = Normal (mkGesture PINCH (Some (point2 0.7 0.5))
                      (planar (landmark 0.71 0.5 0) (landmark 0.7 0.5 0)))
  /\ planar (landmark 0.71 0.5 0) (landmark 0.7 0.5 0)
     < safeScaleOf (planar (landmark 0.5 0.5 0) (landmark 0.6 0.5 0)) * 0.65
  /\ ~ (planar (landmark 0.7 0.5 0) (landmark 0.5 0.5 0)
        < safeScaleOf (planar (landmark 0.5 0.5 0) (landmark 0.6 0.5 0))
          * 1.35
        /\ planar (landmark 0.7 0.5 0) (landmark 0.5 0.5 0)
           < safeScaleOf (planar (landmark 0.5 0.5 0) (landmark 0.6 0.5 0))
             * 1.35
        /\ planar (landmark 0.7 0.5 0) (landmark 0.5 0.5 0)
           < safeScaleOf (planar (landmark 0.5 0.5 0) (landmark 0.6 0.5 0))
             * 1.35
        /\ planar (landmark 0.7 0.5 0) (landmark 0.5 0.5 0)
           < safeScaleOf (planar (landmark 0.5 0.5 0) (landmark 0.6 0.5 0))
             * 1.35).
Proof.
  apply (classifyGesture_pinch_result
           pinchHand [] (landmark 0.5 0.5 0) (landmark 0.71 0.5 0)
           (landmark 0.7 0.5 0) (landmark 0.7 0.5 0) (landmark 0.7 0.5 0)
           (landmark 0.7 0.5 0) (landmark 0.6 0.5 0));
    try reflexivity.
  unfold classifyGesture. cbn [landmarks].
  erewrite classifyHand_decide by reflexivity.
  cbn [typeOf]. eval_joints. reflexivity.
Defined.

Lemma planar_move (sx sy dx dy dz : R) (a b : NormalizedLandmark) :
  sx * sx = 1 -> sy * sy = 1 ->
  planar (moveJoint sx sy dx dy dz a) (moveJoint sx sy dx dy dz b)
  = planar a b.
Proof.
  intros Hx Hy. unfold planar, moveJoint, Math_pow. cbn [x y].
  f_equal.
  replace ((sx * x a + dx - (sx * x b + dx)) ^ 2)
    with (sx * sx * (x a - x b) ^ 2) by ring.
  replace ((sy * y a + dy - (sy * y b + dy)) ^ 2)
    with (sy * sy * (y a - y b) ^ 2) by ring.
  rewrite Hx, Hy. ring.
Qed.

Lemma decide_move (sx sy dx dy dz : R)
      (w th ix mi ri pk mcp : NormalizedLandmark) :
  sx * sx = 1 -> sy * sy = 1 ->
  Normal (decide (moveJoint sx sy dx dy dz w) (moveJoint sx sy dx dy dz th)
                 (moveJoint sx sy dx dy dz ix) (moveJoint sx sy dx dy dz mi)
                 (moveJoint sx sy dx dy dz ri) (moveJoint sx sy dx dy dz pk)
                 (moveJoint sx sy dx dy dz mcp))
  = moveOutcome sx sy dx dy (Normal (decide w th ix mi ri pk mcp)).
Proof.
  intros Hx Hy. unfold decide, countCurled, curledIn. cbn [filter].
  rewrite !(planar_move sx sy dx dy dz) by assumption.
  set (s := safeScaleOf (planar w mcp)).
  destruct (Rltb (planar ix w) (s * 1.35)),
    (Rltb (planar mi w) (s * 1.35)),
    (Rltb (planar ri w) (s * 1.35)),
    (Rltb (planar pk w) (s * 1.35));
    cbn [List.length Nat.eqb Nat.leb];
    destruct (Rltb (planar th ix) (s * 0.65)); reflexivity.
Qed.

(** X4 -- the classifier commutes with motions of the image.  Mirroring
    either image axis and shifting all joints (in the plane and in depth)
    leaves the gesture tag and the pinch metric unchanged and moves the
    anchor along; a result on which the classifier throws still throws. *)
Theorem classifyGesture_commutes_with_motion
        (sx sy dx dy dz : R) (r : HandLandmarkerResult) :
  sx * sx = 1 -> sy * sy = 1 ->
  classifyGesture (moveResult sx sy dx dy dz r)
  = moveOutcome sx sy dx dy (classifyGesture r).
Proof.
  intros Hx Hy. unfold classifyGesture, moveResult. cbn [landmarks].
  destruct (landmarks r) as [[| hand others] |]; cbn [option_map map];
    try reflexivity.
  destruct (Nat.lt_ge_cases (List.length hand) 21) as [Hs | Hl].
  - rewrite (classifyHand_short hand Hs).
    rewrite classifyHand_short by (now rewrite length_map).
    reflexivity.
  - destruct (classifyHand_long hand Hl)
      as (w & th & ix & mi & ri & pk & mcp
          & H0 & H4 & H8 & H12 & H16 & H20 & H9 & E).
    rewrite E, <- (decide_move sx sy dx dy dz) by assumption.
    apply classifyHand_decide;
      rewrite nth_error_map;
      first [ rewrite H0 | rewrite H4 | rewrite H8 | rewrite H12
            | rewrite H16 | rewrite H20 | rewrite H9 ]; reflexivity.
Qed.

Lemma classifyGesture_commutes_with_motion_witness :
  classifyGesture (moveResult (-1) 1 1 0 0 (mkResult (Some [openHand])))
  = moveOutcome (-1) 1 1 0 (classifyGesture (mkResult (Some [openHand]))).
Proof.
  apply (classifyGesture_commutes_with_motion
           (-1) 1 1 0 0 (mkResult (Some [openHand]))); lra.
Defined.

Lemma decide_flatten (w th ix mi ri pk mcp : NormalizedLandmark) :
  decide (flatten w) (flatten th) (flatten ix) (flatten mi) (flatten ri)
         (flatten pk) (flatten mcp)
  = decide w th ix mi ri pk mcp.
Proof.
  assert (P : forall a b, planar (flatten a) (flatten b) = planar a b)
    by reflexivity.
  unfold decide, countCurled, curledIn. cbn [filter]. rewrite !P.
  set (s := safeScaleOf (planar w mcp)).
  destruct (Rltb (planar ix w) (s * 1.35)),
    (Rltb (planar mi w) (s * 1.35)),
    (Rltb (planar ri w) (s * 1.35)),
    (Rltb (planar pk w) (s * 1.35));
    cbn [List.length Nat.eqb Nat.leb];
    destruct (Rltb (planar th ix) (s * 0.65)); reflexivity.
Qed.

(** X5 -- only the plane of the primary hand matters.  The outcome of
    [classifyGesture] is the outcome on the primary hand alone with every
    depth coordinate set to 0: the [z] of the joints and the hands after
    the first are never read. *)
Theorem classifyGesture_reads_primary_plane (r : HandLandmarkerResult) :
  classifyGesture (planarView r) = classifyGesture r.
Proof.
  unfold planarView, classifyGesture.
  destruct (landmarks r) as [[| hand others] |] eqn:E; rewrite ?E;
    try reflexivity.
  cbn [landmarks].
  destruct (Nat.lt_ge_cases (List.length hand) 21) as [Hs | Hl].
  - rewrite (classifyHand_short hand Hs).
    apply classifyHand_short. now rewrite length_map.
  - destruct (classifyHand_long hand Hl)
      as (w & th & ix & mi & ri & pk & mcp
          & H0 & H4 & H8 & H12 & H16 & H20 & H9 & E').
    rewrite E'.
    rewrite (classifyHand_decide (map flatten hand)
               (flatten w) (flatten th) (flatten ix) (flatten mi)
               (flatten ri) (flatten pk) (flatten mcp));
      [ now rewrite decide_flatten | rewrite nth_error_map .. ];
      first [ rewrite H0 | rewrite H4 | rewrite H8 | rewrite H12
            | rewrite H16 | rewrite H20 | rewrite H9 ]; reflexivity.
Qed.

Lemma openHand_is_open_palm :
  classifyGesture (mkResult (Some [openHand]))
  = Normal (mkGesture OPEN_PALM (Some (point2 0.6 0.5)) 1).
Proof.
  unfold classifyGesture. cbn [landmarks].
  erewrite classifyHand_decide by reflexivity.
  eval_joints. reflexivity.
Qed.

Lemma shortHand_throws (hand : list NormalizedLandmark)
      (others : list (list NormalizedLandmark)) :
  classifyGesture (mkResult (Some (hand :: others))) = Throw TypeError
  <-> (List.length hand < 21)%nat.
Proof.
  unfold classifyGesture. cbn [landmarks].
  destruct (Nat.lt_ge_cases (List.length hand) 21) as [Hs | Hl].
  - rewrite (classifyHand_short hand Hs). split; auto.
  - destruct (classifyHand_long hand Hl)
      as (w & th & ix & mi & ri & pk & mcp & _ & _ & _ & _ & _ & _ & _ & E).
    rewrite E. split; [ discriminate | lia ].
Qed.

End ClassifierMore.


(** ** The application state *)

Section AppState.
Import AppFacts.

Lemma applyDetection_inv (r : HandRecognition.HandLandmarkerResult)
      (s s' : App.Model) :
  App.applyDetection r s = Normal s' ->
  exists g,
    HandRecognition.classifyGesture r = Normal g
    /\ s' = App.mkModel
              (App.nextAppState (HandRecognition.type g) (App.appState s))
              (HandRecognition.type g) (App.photos s)
              (App.handPosOf (HandRecognition.handCenter g))
              (App.isPinchingOf (HandRecognition.type g))
              (App.loading s) (App.cameraActive s).
Proof.
  unfold App.applyDetection.
  destruct (HandRecognition.classifyGesture r) as [g | e]; cbn [bind];
    intros E; [ injection E as <-; eauto | discriminate ].
Qed.

(** X6 -- the state after a detection is coherent.  When a detection is
    processed, the pinch flag is set exactly for the PINCH gesture, the
    hand position is null exactly for the NONE gesture (so a pinch always
    comes with a hand position), the photos are untouched, and the
    application state becomes SCATTER on OPEN_PALM, TREE on CLOSED_FIST
    and is kept otherwise. *)
Theorem applyDetection_coherent
        (r : HandRecognition.HandLandmarkerResult) (s s' : App.Model) :
  App.applyDetection r s = Normal s' ->
  (App.isPinching s' = true <-> App.gesture s' = PINCH)
  /\ (App.handPos s' = None <-> App.gesture s' = NONE)
  /\ (App.isPinching s' = true -> App.handPos s' <> None)
  /\ App.photos s' = App.photos s
  /\ App.appState s'
     = match App.gesture s' with
       | OPEN_PALM => SCATTER
       | CLOSED_FIST => TREE
       | _ => App.appState s
       end.
Proof.
  intros E. destruct (applyDetection_inv r s s' E) as (g & Hg & ->).
  destruct (returned_anchor r g Hg) as [[Ha Hb] _].
  cbn [App.isPinching App.gesture App.handPos App.photos App.appState].
  assert (Hn : App.handPosOf (HandRecognition.handCenter g) = None
               <-> HandRecognition.type g = NONE).
  { destruct (HandRecognition.handCenter g) eqn:Ec; cbn;
      split; intros H; auto; try discriminate.
    specialize (Hb H). discriminate. }
  repeat split.
  - unfold App.isPinchingOf. now destruct (HandRecognition.type g).
  - intros ->. reflexivity.
  - apply Hn.
  - apply Hn.
  - unfold App.isPinchingOf. intros Hp Hnone. apply Hn in Hnone.
    rewrite Hnone in Hp. discriminate.
Qed.

Lemma applyDetection_coherent_witness :
  exists s',
    App.applyDetection (HandRecognition.mkResult (Some [])) App.initial
    = Normal s'
    /\ (App.isPinching s' = true <-> App.gesture s' = PINCH)
    /\ (App.handPos s' = None <-> App.gesture s' = NONE)
    /\ (App.isPinching s' = true -> App.handPos s' <> None)
    /\ App.photos s' = App.photos App.initial
    /\ App.appState s'
       = match App.gesture s' with
         | OPEN_PALM => SCATTER
         | CLOSED_FIST => TREE
         | _ => App.appState App.initial
         end.
Proof.
  eexists. split; [ reflexivity | ].
  apply (applyDetection_coherent (HandRecognition.mkResult (Some []))
                                 App.initial).
  reflexivity.
Defined.

(** X7 -- the hand position stays on the interaction plane.  When a
    detection whose joints all lie in the camera frame (x and y between 0
    and 1) is processed, the hand position is null or lies in the
    rectangle -5..5 by -4..4 of the plane z = 0. *)
Theorem applyDetection_hand_in_plane
        (r : HandRecognition.HandLandmarkerResult) (s s' : App.Model) :
  inCameraFrame r ->
  App.applyDetection r s = Normal s' ->
  match App.handPos s' with
  | Some v => inHandPlane v
  | None => True
  end.
Proof.
  intros Hframe E. destruct (applyDetection_inv r s s' E) as (g & Hg & ->).
  cbn [App.handPos].
  destruct (HandRecognition.handCenter g) as [c |] eqn:Ec; cbn; [ | exact I ].
  destruct (returned_anchor_is_joint r g c Hg Ec)
    as (hands & hand & l & Hl & Hh & Hin & Hx & Hy).
  destruct (Hframe hands hand l Hl Hh Hin) as [Bx By].
  unfold inHandPlane. cbn [THREE.x THREE.y THREE.z].
  rewrite Hx, Hy. repeat split; lra.
Qed.

Lemma applyDetection_hand_in_plane_witness :
  match App.handPos
          (App.mkModel SCATTER OPEN_PALM []
                       (App.handPosOf
                          (Some (HandRecognition.point2 0.6 0.5)))
                       false true false) with
  | Some v => inHandPlane v
  | None => True
  end.
Proof.
  apply (applyDetection_hand_in_plane
           (HandRecognition.mkResult (Some [HandFacts.openHand]))
           App.initial).
  - intros hands hand l Hl Hh Hin. cbn in Hl. injection Hl as <-.
    destruct Hh as [<- | []].
    unfold HandFacts.openHand, HandFacts.handOf in Hin.
    repeat (destruct Hin as [<- | Hin]; [ cbn; lra | ]).
    contradiction.
  - unfold App.applyDetection. rewrite openHand_is_open_palm. reflexivity.
Defined.

Section Handlers.
Variable random : nat -> R.
Variable uuidv4 : nat -> string.
Variable createObjectURL : nat -> App.File -> string.

Lemma newPhotosOf_spec (files : list App.File) :
  forall c : App.Calls,
    List.length (fst (App.newPhotosOf random uuidv4 createObjectURL files c))
    = List.length (filter isImage files)
    /\ ((forall k, 0 <= random k < 1) ->
        Forall (fun ph => inPhotoBox (position ph))
               (fst (App.newPhotosOf random uuidv4 createObjectURL
                                     files c))).
Proof.
  induction files as [| f files IH]; intros c.
  - cbn. split; [ reflexivity | constructor ].
  - cbn [App.newPhotosOf filter]. unfold isImage at 1.
    destruct (prefix "image/" (App.fileType f)).
    + destruct (IH (App.mkCalls (S (S (S (App.nRandom c))))
                                (S (App.nUuid c)) (S (App.nUrl c))))
        as [Hlen Hbox].
      destruct (App.newPhotosOf random uuidv4 createObjectURL files _)
        as [more c'].
      cbn [fst List.length] in *. split; [ now rewrite Hlen | ].
      intros Hr. constructor; [ | now apply Hbox ].
      unfold inPhotoBox. cbn [position THREE.x THREE.y THREE.z].
      pose proof (Hr (App.nRandom c)).
      pose proof (Hr (S (App.nRandom c))).
      pose proof (Hr (S (S (App.nRandom c)))).
      repeat split; lra.
    + apply IH.
Qed.

Lemma handle_appState (sc : App.Model * App.Calls) (e : App.Event) :
  App.appState (fst sc) = TREE \/ App.appState (fst sc) = SCATTER ->
  App.appState (fst (App.handle random uuidv4 createObjectURL sc e)) = TREE
  \/ App.appState (fst (App.handle random uuidv4 createObjectURL sc e))
     = SCATTER.
Proof.
  destruct sc as [s c]. cbn [fst]. intros Hs.
  destruct e as [r | | files]; cbn [App.handle].
  - destruct (App.applyDetection r s) as [s' |] eqn:E; cbn [fst]; auto.
    destruct (applyDetection_inv r s s' E) as (g & _ & ->).
    cbn [App.appState]. unfold App.nextAppState.
    destruct (HandRecognition.type g); auto.
  - cbn. exact Hs.
  - unfold App.handleFileUpload.
    destruct files as [[| f fs] |]; [ exact Hs | | exact Hs ].
    destruct (App.newPhotosOf random uuidv4 createObjectURL (f :: fs) c).
    right. reflexivity.
Qed.

End Handlers.

(** X8 -- the application never leaves TREE and SCATTER.  Starting from
    the initial state, after any sequence of processed detections, camera
    stops and uploads the application state is TREE or SCATTER; the HEART
    and PHOTO_VIEW states are never entered. *)
Theorem appState_tree_or_scatter
        (random : nat -> R) (uuidv4 : nat -> string)
        (createObjectURL : nat -> App.File -> string)
        (events : list App.Event) (c : App.Calls) :
  App.appState
    (fst (App.handleAll random uuidv4 createObjectURL events
                        (App.initial, c))) = TREE
  \/ App.appState
       (fst (App.handleAll random uuidv4 createObjectURL events
                           (App.initial, c))) = SCATTER.
Proof.
  unfold App.handleAll.
  assert (H : App.appState (fst (App.initial, c)) = TREE
              \/ App.appState (fst (App.initial, c)) = SCATTER)
    by (left; reflexivity).
  revert H. generalize (App.initial, c).
  induction events as [| e events IH]; intros sc H; [ exact H | ].
  cbn [fold_left]. apply IH. now apply handle_appState.
Qed.

(** X9 -- an upload appends.  [handleFileUpload] keeps the photos already
    there, in their slots, and appends one photo per selected file whose
    type starts with [image/]; gesture, hand position and pinch flag are
    untouched; the application state becomes SCATTER as soon as one file
    was selected, image or not, and nothing changes when none was.  With
    [Math.random] in the unit interval every new photo is placed in the
    box -4..4 by -3..3 by -4..4. *)
Theorem handleFileUpload_appends
        (random : nat -> R) (uuidv4 : nat -> string)
        (createObjectURL : nat -> App.File -> string)
        (files : option (list App.File)) (c : App.Calls) (s : App.Model) :
  (forall k, 0 <= random k < 1) ->
  let s' := fst (App.handleFileUpload random uuidv4 createObjectURL
                                      files c s) in
  let selected := match files with Some fs => fs | None => [] end in
  (exists added,
      App.photos s' = App.photos s ++ added
      /\ List.length added = List.length (filter isImage selected)
      /\ Forall (fun ph => inPhotoBox (position ph)) added)
  /\ App.gesture s' = App.gesture s
  /\ App.handPos s' = App.handPos s
  /\ App.isPinching s' = App.isPinching s
  /\ (selected <> [] -> App.appState s' = SCATTER)
  /\ (selected = [] -> s' = s).
Proof.
  intros Hr. cbn zeta. unfold App.handleFileUpload.
  destruct files as [[| f fs] |].
  - repeat split; auto; try congruence.
    exists []. rewrite app_nil_r. repeat split; constructor.
  - destruct (newPhotosOf_spec random uuidv4 createObjectURL (f :: fs) c)
      as [Hlen Hbox].
    destruct (App.newPhotosOf random uuidv4 createObjectURL (f :: fs) c)
      as [added c'].
    cbn [fst App.photos App.gesture App.handPos App.isPinching
         App.appState] in *.
    repeat split; auto; try discriminate.
    exists added. repeat split; auto.
  - repeat split; auto; try congruence.
    exists []. rewrite app_nil_r. repeat split; constructor.
Qed.

Lemma handleFileUpload_appends_witness :
  let s' := fst (App.handleFileUpload
                   (fun _ => 0) (fun _ => "id"%string)
                   (fun _ _ => "blob:"%string)
                   (Some someFiles) (App.mkCalls 0 0 0) App.initial) in
  let selected := someFiles in
  (exists added,
      App.photos s' = App.photos App.initial ++ added
      /\ List.length added = List.length (filter isImage selected)
      /\ Forall (fun ph => inPhotoBox (position ph)) added)
  /\ App.gesture s' = App.gesture App.initial
  /\ App.handPos s' = App.handPos App.initial
  /\ App.isPinching s' = App.isPinching App.initial
  /\ (selected <> [] -> App.appState s' = SCATTER)
  /\ (selected = [] -> s' = App.initial).
Proof.
  apply (handleFileUpload_appends
           (fun _ => 0) (fun _ => "id"%string) (fun _ _ => "blob:"%string)
           (Some someFiles) (App.mkCalls 0 0 0) App.initial).
  intros k. lra.
Defined.

(** X10 -- stopping the camera does not release a pinch.  [stopCamera]
    resets the gesture to NONE and the hand position to null but leaves
    the pinch flag as it is; so when the camera is stopped during a pinch,
    a photo that is the active grab target stays the active grab target in
    every later frame of the photo controller, and being without a hand it
    is animated toward its home position at the idle scale. *)
Theorem stopCamera_keeps_pinch
        (s : App.Model) (g : FloatingPhotos.Group)
        (photos : list PhotoData) (time : R) (a : string)
        (photo : PhotoData) (idx : Z) :
  App.isPinching s = true ->
  App.gesture (App.stopCamera s) = NONE
  /\ App.handPos (App.stopCamera s) = None
  /\ App.isPinching (App.stopCamera s) = true
  /\ FloatingPhotos.activeAfter
       (Some g) photos (App.appState (App.stopCamera s))
       (App.handPos (App.stopCamera s))
       (App.isPinching (App.stopCamera s)) time (Some a)
     = Some a
  /\ FloatingPhotos.photoTarget g photo (App.handPos (App.stopCamera s))
                                time true idx
     = (THREE.vec3 (THREE.x (position photo))
                   (THREE.y (position photo)
                    + sin (time + IZR idx) * 0.002)
                   (THREE.z (position photo)),
        0.35).
Proof.
  intros Hp. cbn [App.stopCamera App.gesture App.handPos App.isPinching
                  App.appState].
  repeat split; auto.
  unfold FloatingPhotos.activeAfter, FloatingPhotos.useFrame.
  cbn [snd FloatingPhotos.findClosest FloatingPhotos.updateActive
       FloatingPhotos.truthy].
  now rewrite Hp.
Qed.

Lemma stopCamera_keeps_pinch_witness :
  App.gesture (App.stopCamera pinchingState) = NONE
  /\ App.handPos (App.stopCamera pinchingState) = None
  /\ App.isPinching (App.stopCamera pinchingState) = true
  /\ FloatingPhotos.activeAfter
       (Some PhotoFacts.twoGroup) PhotoFacts.twoPhotos
       (App.appState (App.stopCamera pinchingState))
       (App.handPos (App.stopCamera pinchingState))
       (App.isPinching (App.stopCamera pinchingState)) 1 (Some "A"%string)
     = Some "A"%string
  /\ FloatingPhotos.photoTarget
       PhotoFacts.twoGroup PhotoFacts.photoA
       (App.handPos (App.stopCamera pinchingState)) 1 true 1
     = (THREE.vec3 (THREE.x (position PhotoFacts.photoA))
                   (THREE.y (position PhotoFacts.photoA)
                    + sin (1 + IZR 1) * 0.002)
                   (THREE.z (position PhotoFacts.photoA)),
        0.35).
Proof.
  apply (stopCamera_keeps_pinch pinchingState PhotoFacts.twoGroup
                                PhotoFacts.twoPhotos 1 "A"%string
                                PhotoFacts.photoA 1).
  reflexivity.
Defined.

(** X11 -- the scene only turns forward.  In a frame of [RotatingScene]
    with the group mounted and a frame time that is not negative, the
    rotation grows by at least 0.2 times the frame time; it grows by
    exactly that, and the remembered hand abscissa is kept, unless the
    gesture is OPEN_PALM with a hand position, in which case the hand
    abscissa is remembered. *)
Theorem rotatingScene_turns_forward
        (gesture : GestureType) (handPos : option THREE.Vector3)
        (delta : R) (s : RotatingScene.Scene) :
  0 <= delta ->
  let s' := RotatingScene.useFrame true gesture handPos delta s in
  RotatingScene.rotationY s + delta * 0.2 <= RotatingScene.rotationY s'
  /\ match handPos with
     | Some h =>
         if GestureType_eqb gesture OPEN_PALM
         then RotatingScene.lastHandX s' = THREE.x h
         else RotatingScene.rotationY s'
              = RotatingScene.rotationY s + delta * 0.2
              /\ RotatingScene.lastHandX s' = RotatingScene.lastHandX s
     | None =>
         RotatingScene.rotationY s'
         = RotatingScene.rotationY s + delta * 0.2
         /\ RotatingScene.lastHandX s' = RotatingScene.lastHandX s
     end.
Proof.
  intros Hd. cbn zeta. unfold RotatingScene.useFrame. cbn [negb].
  destruct handPos as [h |]; [ | cbn; lra ].
  destruct (GestureType_eqb gesture OPEN_PALM); [ | cbn; lra ].
  destruct (Rgtb _ 0.02); cbn; split; try reflexivity; try lra.
  pose proof (Rabs_pos (THREE.x h - RotatingScene.lastHandX s)). nra.
Qed.

Lemma rotatingScene_turns_forward_witness :
  let s' := RotatingScene.useFrame true OPEN_PALM
                                   (Some (THREE.vec3 1 0 0)) 0.016
                                   (RotatingScene.mkScene 0 0) in
  RotatingScene.rotationY (RotatingScene.mkScene 0 0) + 0.016 * 0.2
  <= RotatingScene.rotationY s'
  /\ RotatingScene.lastHandX s' = THREE.x (THREE.vec3 1 0 0).
Proof.
  apply (rotatingScene_turns_forward
           OPEN_PALM (Some (THREE.vec3 1 0 0)) 0.016
           (RotatingScene.mkScene 0 0)).
  lra.
Defined.

(** X23 -- when the prediction loop stops.  [predictWebcam] leaves the
    state alone and requests no further frame when the video is not live;
    with a live video it requests the next frame whenever it returns, and
    the state changes only if the video is ready (ready state 4) and a
    detection result came back; it throws, requesting no further frame,
    exactly when the video is live and ready and the detection holds a
    primary hand of fewer than 21 joints. *)
Theorem predictWebcam_loop
        (videoLive : bool) (readyState : Z)
        (detected : option HandRecognition.HandLandmarkerResult)
        (s : App.Model) :
  (videoLive = false ->
   App.predictWebcam videoLive readyState detected s = Normal (s, false))
  /\ (forall s' again,
         videoLive = true ->
         App.predictWebcam videoLive readyState detected s
         = Normal (s', again) ->
         again = true
         /\ (s' <> s -> readyState = 4%Z /\ detected <> None))
  /\ (App.predictWebcam videoLive readyState detected s = Throw TypeError
      <-> videoLive = true /\ readyState = 4%Z
          /\ exists hand others,
              detected
              = Some (HandRecognition.mkResult (Some (hand :: others)))
              /\ (List.length hand < 21)%nat).
Proof.
  unfold App.predictWebcam. split; [ | split ].
  - intros ->. reflexivity.
  - intros s' again -> E. cbn [negb] in E.
    destruct (readyState =? 4)%Z eqn:Er.
    + destruct detected as [r |].
      * destruct (App.applyDetection r s) as [s1 | e]; cbn [bind] in E;
          [ injection E as <- <- | discriminate ].
        split; [ reflexivity | ]. intros _.
        split; [ now apply Z.eqb_eq | discriminate ].
      * injection E as <- <-.
        split; [ reflexivity | intros H; now contradiction H ].
    + injection E as <- <-.
      split; [ reflexivity | intros H; now contradiction H ].
  - split.
    + intros E. destruct videoLive; cbn [negb] in E; [ | discriminate ].
      destruct (readyState =? 4)%Z eqn:Er; [ | discriminate ].
      destruct detected as [r |]; [ | discriminate ].
      unfold App.applyDetection in E.
      destruct (HandRecognition.classifyGesture r) as [g | e] eqn:Eg;
        cbn [bind] in E; [ discriminate | ].
      split; [ reflexivity | split; [ now apply Z.eqb_eq | ] ].
      destruct r as [[[| hand others] |]];
        [ cbn in Eg; discriminate | | cbn in Eg; discriminate ].
      exists hand, others. split; [ reflexivity | ].
      apply (shortHand_throws hand others). now destruct e.
    + intros (-> & -> & hand & others & -> & Hlen). cbn [negb].
      rewrite Z.eqb_refl. unfold App.applyDetection.
      apply (shortHand_throws hand others) in Hlen.
      rewrite Hlen. reflexivity.
Qed.

End AppState.


(** ** The generated batch and its frames *)

(** Brings the range of every draw that occurs in the goal. *)
Ltac pose_draws random Hr :=
  repeat match goal with
    | |- context [random ?n] =>
        lazymatch goal with
        | _ : 0 <= random n < 1 |- _ => fail
        | _ => pose proof (Hr n)
        end
    end.

(** Brings the range of every sine and cosine that occurs in the goal. *)
Ltac pose_trig :=
  repeat match goal with
    | |- context [cos ?a] =>
        lazymatch goal with
        | _ : -1 <= cos a <= 1 |- _ => fail
        | _ => pose proof (COS_bound a)
        end
    | |- context [sin ?a] =>
        lazymatch goal with
        | _ : -1 <= sin a <= 1 |- _ => fail
        | _ => pose proof (SIN_bound a)
        end
    end.

Section Batch.
Import THREE MagicParticles BatchFacts.

Lemma scaled_trig_bound (a c b : R) :
  0 <= a <= b -> -1 <= c <= 1 -> - b <= a * c <= b.
Proof. intros Ha Hc. split; nra. Qed.

Lemma generateFrom_length (random : nat -> R) (n : nat) :
  forall (i : Z) (k : nat),
    List.length (fst (generateFrom random n i k)) = n.
Proof.
  induction n as [| n IH]; intros i k; [ reflexivity | ].
  cbn [generateFrom]. unfold rbind at 1.
  destruct (particleAt random i k) as [p0 k1].
  unfold rbind. specialize (IH (i + 1)%Z k1).
  destruct (generateFrom random n (i + 1)%Z k1) as [rest k2].
  cbn [ret fst List.length] in *. now rewrite IH.
Qed.

Lemma generateFrom_nth (random : nat -> R) (n : nat) :
  forall (i : Z) (k : nat) (m : nat) (p : ParticleData),
    nth_error (fst (generateFrom random n i k)) m = Some p ->
    exists k' : nat, p = fst (particleAt random (i + Z.of_nat m) k').
Proof.
  induction n as [| n IH]; intros i k m p Hm.
  - destruct m; discriminate.
  - cbn [generateFrom] in Hm. unfold rbind at 1 in Hm.
    destruct (particleAt random i k) as [p0 k1] eqn:E1.
    unfold rbind in Hm.
    destruct (generateFrom random n (i + 1)%Z k1) as [rest k2] eqn:E2.
    cbn [ret fst] in Hm. destruct m as [| m].
    + cbn in Hm. injection Hm as <-. exists k.
      now rewrite Z.add_0_r, E1.
    + cbn [nth_error] in Hm.
      destruct (IH (i + 1)%Z k1 m p) as [k' ->]; [ now rewrite E2 | ].
      exists k'. do 2 f_equal. lia.
Qed.

Lemma generateParticles_unfold (random : nat -> R) :
  generateParticles random
  = fst (generateFrom random (Z.to_nat COUNT) 0%Z 0%nat).
Proof. reflexivity. Qed.

Lemma generateParticles_nth (random : nat -> R) (n : nat)
      (p : ParticleData) :
  nth_error (generateParticles random) n = Some p ->
  exists k : nat, p = fst (particleAt random (Z.of_nat n) k).
Proof.
  rewrite generateParticles_unfold. intros Hn.
  apply generateFrom_nth in Hn. destruct Hn as [k ->].
  exists k. now rewrite Z.add_0_l.
Qed.

Lemma trunk_threshold (i : Z) :
  Rgtb (IZR i) (IZR COUNT - IZR COUNT * 0.1) = true <-> (5400 < i)%Z.
Proof.
  unfold Rgtb, COUNT. rewrite Rltb_true_iff.
  replace (6000 - 6000 * 0.1) with (IZR 5400) by lra.
  split; [ apply lt_IZR | apply IZR_lt ].
Qed.

Lemma particleAt_layout (random : nat -> R) (i : Z) (k : nat) :
  let p := fst (particleAt random i k) in
  id p = i /\ initialPos p = scatterPos p
  /\ isRibbon p = (i <? RIBBON_COUNT)%Z
  /\ isTrunk p
     = (negb (i <? RIBBON_COUNT)%Z
        && Rgtb (IZR i) (IZR COUNT - IZR COUNT * 0.1))%bool
  /\ (isRibbon p = true -> ribbonPos p = Some (treePos p)).
Proof.
  unfold particleAt, rbind, ret, Math_random.
  destruct (i <? RIBBON_COUNT)%Z;
    destruct (Rgtb (IZR i) (IZR COUNT - IZR COUNT * 0.1));
    cbn [fst snd negb andb id initialPos scatterPos isRibbon isTrunk
         ribbonPos treePos];
    repeat split; intros; first [ reflexivity | discriminate ].
Qed.

(** X12 -- the layout of the batch.  The generated batch has 6000
    particles; the particle in slot [n] has id [n] and starts at its
    scatter position; it is a ribbon particle exactly when [n < 800] and
    a trunk particle exactly when [n > 5400] (slots 5401 to 5999); the
    tree position of a ribbon particle is its ribbon position. *)
Theorem generateParticles_layout (random : nat -> R) :
  Z.of_nat (List.length (generateParticles random)) = 6000%Z
  /\ forall (n : nat) (p : ParticleData),
      nth_error (generateParticles random) n = Some p ->
      id p = Z.of_nat n
      /\ initialPos p = scatterPos p
      /\ (isRibbon p = true <-> (Z.of_nat n < 800)%Z)
      /\ (isTrunk p = true <-> (5400 < Z.of_nat n)%Z)
      /\ (isRibbon p = true -> ribbonPos p = Some (treePos p)).
Proof.
  split.
  - rewrite generateParticles_unfold, generateFrom_length. unfold COUNT.
    lia.
  - intros n p Hn. apply generateParticles_nth in Hn.
    destruct Hn as [k ->].
    destruct (particleAt_layout random (Z.of_nat n) k)
      as (Hid & Hpos & Hrib & Htrunk & Hrp).
    repeat split; auto.
    + rewrite Hrib. unfold RIBBON_COUNT. apply Z.ltb_lt.
    + rewrite Hrib. unfold RIBBON_COUNT. apply Z.ltb_lt.
    + rewrite Htrunk. intros H. apply andb_prop in H as [_ H].
      now apply trunk_threshold.
    + rewrite Htrunk. intros H. apply andb_true_intro. split.
      * apply negb_true_iff, Z.ltb_ge. unfold RIBBON_COUNT. lia.
      * now apply trunk_threshold.
Qed.

Lemma cube_bound (a : R) : -1 <= a <= 1 -> -1 <= Math_pow a 3 <= 1.
Proof.
  intros Ha. unfold Math_pow. cbn [pow].
  assert (0 <= a * a <= 1) by nra. split; nra.
Qed.

Lemma ribbon_height (i : Z) :
  (0 <= i)%Z -> (i <? RIBBON_COUNT)%Z = true ->
  0 <= IZR i / IZR RIBBON_COUNT < 1.
Proof.
  unfold RIBBON_COUNT. intros H0 Hlt. apply Z.ltb_lt in Hlt.
  apply IZR_le in H0. apply IZR_lt in Hlt. lra.
Qed.

(** Every generated particle has bounded targets and a bounded size. *)
Lemma particleAt_tame (random : nat -> R) (i : Z) (k : nat) :
  inUnit random -> (0 <= i)%Z ->
  tameTargets (fst (particleAt random i k))
  /\ within 7.5 (initialPos (fst (particleAt random i k)))
  /\ 0.05 <= size (fst (particleAt random i k)) <= 0.2.
Proof.
  intros Hr Hi. unfold tameTargets, within.
  unfold particleAt, rbind, ret, Math_random.
  destruct (i <? RIBBON_COUNT)%Z eqn:Erib;
    destruct (Rgtb (IZR i) (IZR COUNT - IZR COUNT * 0.1));
    cbn [fst snd negb andb initialPos scatterPos treePos heartPos ribbonPos
         size x y z];
    try pose proof (ribbon_height i Hi Erib) as Hh;
    pose_draws random Hr; pose_trig;
    repeat match goal with
      | |- context [Math_pow (sin ?a) 3] =>
          lazymatch goal with
          | _ : -1 <= Math_pow (sin a) 3 <= 1 |- _ => fail
          | _ => pose proof (cube_bound (sin a) (SIN_bound a))
          end
      end;
    repeat match goal with
      | |- _ /\ _ => split
      | |- forall _, _ => intros
      | H : Some _ = Some _ |- _ => injection H as <-; cbn [x y z]
      | H : None = Some _ |- _ => discriminate H
      end;
    unfold RIBBON_COUNT in *;
    try lra;
    try (match goal with
         | |- context [?a * cos ?t] =>
             pose proof (scaled_trig_bound a (cos t) 5
                           ltac:(split; nra) (COS_bound t))
         | |- context [?a * sin ?t] =>
             pose proof (scaled_trig_bound a (sin t) 5
                           ltac:(split; nra) (SIN_bound t))
         end; lra);
    nra.
Qed.

Lemma on_circle (r t : R) :
  r * cos t * (r * cos t) + r * sin t * (r * sin t) = r * r.
Proof.
  pose proof (sin2_cos2 t) as H. unfold Rsqr in H.
  replace (r * cos t * (r * cos t) + r * sin t * (r * sin t))
    with (r * r * (sin t * sin t + cos t * cos t)) by ring.
  rewrite H. ring.
Qed.

Lemma shrink_square (a r : R) :
  0 <= a <= 1 -> 0 <= r -> a * r * (a * r) <= r * r.
Proof.
  intros Ha Hr.
  assert (0 <= a * r <= r) by nra. nra.
Qed.

Lemma particleAt_shape (random : nat -> R) (i : Z) (k : nat) :
  inUnit random -> (0 <= i)%Z ->
  let p := fst (particleAt random i k) in
  let t := treePos p in
  (isRibbon p = false -> isTrunk p = false ->
   -5 <= y t <= 5
   /\ 0 <= coneRadius (y t) <= 3.5
   /\ x t * x t + z t * z t <= coneRadius (y t) * coneRadius (y t))
  /\ (isTrunk p = true ->
      -0.4 <= x t <= 0.4 /\ -5 <= y t <= -1 /\ -0.4 <= z t <= 0.4)
  /\ (isRibbon p = true ->
      y t = IZR i / 800 * 10 - 5
      /\ 0 <= spiralRadius (y t) <= 4.2
      /\ x t * x t + z t * z t = spiralRadius (y t) * spiralRadius (y t)).
Proof.
  intros Hr Hi. cbn zeta. unfold coneRadius, spiralRadius.
  unfold particleAt, rbind, ret, Math_random.
  destruct (i <? RIBBON_COUNT)%Z eqn:Erib;
    destruct (Rgtb (IZR i) (IZR COUNT - IZR COUNT * 0.1));
    cbn [fst snd negb andb treePos isRibbon isTrunk x y z];
    try pose proof (ribbon_height i Hi Erib) as Hh;
    unfold RIBBON_COUNT in *;
    (split; [ | split ]); intros; try discriminate;
    pose_draws random Hr;
    rewrite ?on_circle;
    repeat split; try lra; try (apply shrink_square; lra); try nra.
Qed.

(** X13 -- the shape of the tree.  With [Math.random] in the unit
    interval, every particle of the generated batch has its tree position
    in its part of the tree: a canopy particle (neither ribbon nor trunk)
    inside the cone whose radius shrinks linearly from 3.5 at height -5 to
    0 at height 5; a trunk particle in the column of half width 0.4
    between heights -5 and -1; a ribbon particle on the spiral, at height
    [id / 800 * 10 - 5] and at the spiral radius of that height, which
    shrinks from 4.2 to 0. *)
Theorem generateParticles_tree_shape
        (random : nat -> R) (n : nat) (p : ParticleData) :
  inUnit random ->
  nth_error (generateParticles random) n = Some p ->
  let t := treePos p in
  (isRibbon p = false -> isTrunk p = false ->
   -5 <= y t <= 5
   /\ 0 <= coneRadius (y t) <= 3.5
   /\ x t * x t + z t * z t <= coneRadius (y t) * coneRadius (y t))
  /\ (isTrunk p = true ->
      -0.4 <= x t <= 0.4 /\ -5 <= y t <= -1 /\ -0.4 <= z t <= 0.4)
  /\ (isRibbon p = true ->
      y t = IZR (id p) / 800 * 10 - 5
      /\ 0 <= spiralRadius (y t) <= 4.2
      /\ x t * x t + z t * z t = spiralRadius (y t) * spiralRadius (y t)).
Proof.
  intros Hr Hn. apply generateParticles_nth in Hn. destruct Hn as [k ->].
  destruct (particleAt_layout random (Z.of_nat n) k) as (-> & _).
  apply particleAt_shape; [ exact Hr | lia ].
Qed.

Lemma generateParticles_head (random : nat -> R) :
  nth_error (generateParticles random) 0
  = Some (fst (particleAt random 0%Z 0%nat)).
Proof.
  rewrite generateParticles_unfold.
  destruct COUNT_positive as [n ->].
  cbn [generateFrom]. unfold rbind at 1.
  destruct (particleAt random 0%Z 0%nat) as [p0 k1].
  unfold rbind.
  destruct (generateFrom random n (0 + 1)%Z k1) as [rest k2].
  reflexivity.
Qed.

Lemma zeroOracle_inUnit : inUnit ParticleFacts.zeroOracle.
Proof. intros k. unfold ParticleFacts.zeroOracle. lra. Qed.

Lemma generateParticles_tree_shape_witness :
  let p := fst (particleAt ParticleFacts.zeroOracle 0%Z 0%nat) in
  let t := treePos p in
  (isRibbon p = false -> isTrunk p = false ->
   -5 <= y t <= 5
   /\ 0 <= coneRadius (y t) <= 3.5
   /\ x t * x t + z t * z t <= coneRadius (y t) * coneRadius (y t))
  /\ (isTrunk p = true ->
      -0.4 <= x t <= 0.4 /\ -5 <= y t <= -1 /\ -0.4 <= z t <= 0.4)
  /\ (isRibbon p = true ->
      y t = IZR (id p) / 800 * 10 - 5
      /\ 0 <= spiralRadius (y t) <= 4.2
      /\ x t * x t + z t * z t = spiralRadius (y t) * spiralRadius (y t)).
Proof.
  apply (generateParticles_tree_shape ParticleFacts.zeroOracle 0).
  - exact zeroOracle_inUnit.
  - apply generateParticles_head.
Defined.

Lemma particleAt_ribbon_flow (random : nat -> R) (i : Z) (k : nat)
      (time : R) :
  let p := fst (particleAt random i k) in
  isRibbon p = true ->
  stateTarget TREE time p = turnAboutY (time * -0.5) (treePos p).
Proof.
  cbn zeta. unfold stateTarget, ribbonFlowGuard, ribbonFlow, turnAboutY.
  unfold particleAt, rbind, ret, Math_random.
  destruct (i <? RIBBON_COUNT)%Z;
    destruct (Rgtb (IZR i) (IZR COUNT - IZR COUNT * 0.1));
    cbn [fst snd negb andb treePos isRibbon ribbonPos AppState_eqb x y z];
    intros; try discriminate;
    rewrite cos_plus, sin_plus; f_equal; ring.
Qed.

(** X14 -- the ribbon flows by turning about the trunk.  For every ribbon
    particle of the generated batch, the target chosen in the TREE state
    at time [t] is the particle's tree position turned about the vertical
    axis by the angle [-0.5 * t]: its height and its distance from the
    axis are those of the stored position, and at time 0 the target is the
    stored position itself. *)
Theorem generateParticles_ribbon_flow
        (random : nat -> R) (n : nat) (p : ParticleData) (time : R) :
  nth_error (generateParticles random) n = Some p ->
  isRibbon p = true ->
  stateTarget TREE time p = turnAboutY (time * -0.5) (treePos p)
  /\ y (stateTarget TREE time p) = y (treePos p)
  /\ stateTarget TREE 0 p = treePos p.
Proof.
  intros Hn Hrib. apply generateParticles_nth in Hn.
  destruct Hn as [k ->].
  rewrite !particleAt_ribbon_flow by exact Hrib.
  repeat split. unfold turnAboutY.
  replace (0 * -0.5) with 0 by ring. rewrite cos_0, sin_0.
  destruct (treePos _) as [tx ty tz]. cbn [x y z]. f_equal; ring.
Qed.

Lemma generateParticles_ribbon_flow_witness :
  let p := fst (particleAt ParticleFacts.zeroOracle 0%Z 0%nat) in
  stateTarget TREE 1 p = turnAboutY (1 * -0.5) (treePos p)
  /\ y (stateTarget TREE 1 p) = y (treePos p)
  /\ stateTarget TREE 0 p = treePos p.
Proof.
  apply (generateParticles_ribbon_flow ParticleFacts.zeroOracle 0).
  - apply generateParticles_head.
  - reflexivity.
Defined.

Lemma palette_pick (rc : R) :
  0 <= rc < 1 ->
  In (match arrayGet mixedPalette
              (Math_floor (rc * IZR (Z.of_nat (List.length mixedPalette))))
      with
      | Some c => c
      | None => colorUndefined
      end) mixedPalette.
Proof.
  intros Hrc. change (Z.of_nat (List.length mixedPalette)) with 6%Z.
  unfold Math_floor.
  destruct (base_Int_part (rc * 6)) as [Hlo Hhi].
  set (ip := Int_part (rc * 6)) in *.
  assert (Hlt : (ip < 6)%Z) by (apply lt_IZR; lra).
  assert (Hgt : (-1 < ip)%Z) by (apply lt_IZR; lra).
  assert (Hcases : ip = 0%Z \/ ip = 1%Z \/ ip = 2%Z \/ ip = 3%Z
                   \/ ip = 4%Z \/ ip = 5%Z) by lia.
  destruct Hcases as [-> | [-> | [-> | [-> | [-> | ->]]]]];
    cbn; auto 10.
Qed.

Lemma particleAt_color (random : nat -> R) (i : Z) (k : nat) :
  inUnit random ->
  let p := fst (particleAt random i k) in
  (isRibbon p = true -> color p = ribbonColor)
  /\ (isTrunk p = true -> color p = trunkColor)
  /\ (isRibbon p = false -> isTrunk p = false ->
      In (color p) mixedPalette).
Proof.
  intros Hr. cbn zeta.
  unfold particleAt, rbind, ret, Math_random.
  destruct (i <? RIBBON_COUNT)%Z;
    destruct (Rgtb (IZR i) (IZR COUNT - IZR COUNT * 0.1));
    cbn [fst snd negb andb isRibbon isTrunk color];
    repeat split; intros; try discriminate; try reflexivity.
  apply palette_pick. apply Hr.
Qed.

Lemma instance_of_sized (appState : AppState) (hand : option Vector3)
      (time : R) (i : Z) (p : ParticleData) :
  0.05 <= size p <= 0.2 ->
  let inst := snd (updateParticle appState hand time i p) in
  0.025 <= instScale inst <= 0.36
  /\ (instColor inst = color p
      \/ instColor inst = ColorScaled (color p) 0.4)
  /\ (isRibbon p = true \/ isTrunk p = true \/ (i mod 15 <> 0)%Z ->
      instColor inst = color p).
Proof.
  intros Hs. cbn zeta. unfold updateParticle. cbn [snd instScale instColor].
  pose proof (SIN_bound (time * 5 + phase p)) as Hsin.
  repeat split.
  - destruct (isRibbon p); nra.
  - destruct (isRibbon p); nra.
  - destruct (negb (isRibbon p) && negb (isTrunk p) && (i mod 15 =? 0)%Z);
      [ destruct (Rgtb _ 0) | ]; auto.
  - intros H.
    destruct (isRibbon p), (isTrunk p); cbn [negb andb]; try reflexivity.
    destruct H as [H | [H | H]]; try discriminate.
    apply Z.eqb_neq in H. now rewrite H.
Qed.

(** X15 -- colours and sizes on screen.  With [Math.random] in the unit
    interval, every particle of the generated batch carries the ribbon
    colour if it is a ribbon particle, the trunk colour if it is a trunk
    particle and a colour of the palette otherwise (never an undefined
    one); and in every frame the scale written to the mesh is positive,
    between 0.025 and 0.36, and the colour written is the particle's own
    or its copy dimmed by 0.4, the dimmed copy being used only for canopy
    particles whose slot is a multiple of 15. *)
Theorem generateParticles_appearance
        (random : nat -> R) (n : nat) (p : ParticleData) :
  inUnit random ->
  nth_error (generateParticles random) n = Some p ->
  (isRibbon p = true -> color p = ribbonColor)
  /\ (isTrunk p = true -> color p = trunkColor)
  /\ (isRibbon p = false -> isTrunk p = false -> In (color p) mixedPalette)
  /\ forall (appState : AppState) (hand : option Vector3) (time : R)
            (i : Z),
      let inst := snd (updateParticle appState hand time i p) in
      0.025 <= instScale inst <= 0.36
      /\ (instColor inst = color p
          \/ instColor inst = ColorScaled (color p) 0.4)
      /\ (isRibbon p = true \/ isTrunk p = true \/ (i mod 15 <> 0)%Z ->
          instColor inst = color p).
Proof.
  intros Hr Hn. apply generateParticles_nth in Hn. destruct Hn as [k ->].
  destruct (particleAt_color random (Z.of_nat n) k Hr)
    as (Hc1 & Hc2 & Hc3).
  destruct (particleAt_tame random (Z.of_nat n) k Hr ltac:(lia))
    as (_ & _ & Hsize).
  repeat split; auto; intros; now apply instance_of_sized.
Qed.

Lemma generateParticles_appearance_witness :
  let p := fst (particleAt ParticleFacts.zeroOracle 0%Z 0%nat) in
  (isRibbon p = true -> color p = ribbonColor)
  /\ (isTrunk p = true -> color p = trunkColor)
  /\ (isRibbon p = false -> isTrunk p = false -> In (color p) mixedPalette)
  /\ forall (appState : AppState) (hand : option Vector3) (time : R)
            (i : Z),
      let inst := snd (updateParticle appState hand time i p) in
      0.025 <= instScale inst <= 0.36
      /\ (instColor inst = color p
          \/ instColor inst = ColorScaled (color p) 0.4)
      /\ (isRibbon p = true \/ isTrunk p = true \/ (i mod 15 <> 0)%Z ->
          instColor inst = color p).
Proof.
  apply (generateParticles_appearance ParticleFacts.zeroOracle 0).
  - exact zeroOracle_inUnit.
  - apply generateParticles_head.
Defined.

Lemma map_forEachFrom {A B C : Type} (g : B -> C) (f : Z -> A -> B)
      (l : list A) :
  forall i : Z,
    map g (forEachFrom f i l) = forEachFrom (fun j a => g (f j a)) i l.
Proof.
  induction l as [| a l IH]; intros i; [ reflexivity | ].
  cbn [forEachFrom map]. now rewrite IH.
Qed.

Lemma Forall2_forEachFrom {A B : Type} (rel : A -> B -> Prop)
      (f : Z -> A -> B) (l : list A) :
  (forall j a, rel a (f j a)) ->
  forall i : Z, Forall2 rel l (forEachFrom f i l).
Proof.
  intros H. induction l as [| a l IH]; intros i; constructor; auto.
Qed.

Lemma Forall_forEachFrom {A B : Type} (P : A -> Prop) (Q : B -> Prop)
      (f : Z -> A -> B) (l : list A) :
  (forall j a, P a -> Q (f j a)) ->
  Forall P l -> forall i : Z, Forall Q (forEachFrom f i l).
Proof.
  intros H HP. induction HP as [| a l Ha _ IH]; intros i;
    constructor; auto.
Qed.

Lemma sameIdentity_refl (p : ParticleData) : sameIdentity p p.
Proof. unfold sameIdentity. repeat split. Qed.

Lemma sameIdentity_trans (p q r : ParticleData) :
  sameIdentity p q -> sameIdentity q r -> sameIdentity p r.
Proof. unfold sameIdentity. intuition congruence. Qed.

Lemma Forall2_sameIdentity_trans (l1 l2 l3 : list ParticleData) :
  Forall2 sameIdentity l1 l2 -> Forall2 sameIdentity l2 l3 ->
  Forall2 sameIdentity l1 l3.
Proof.
  intros H12. revert l3.
  induction H12 as [| a b l1 l2 Hab _ IH]; intros l3 H23;
    inversion H23; subst; constructor.
  - eapply sameIdentity_trans; eauto.
  - now apply IH.
Qed.

Lemma useFrame_sameIdentity (f : Frame) (particles : list ParticleData) :
  Forall2 sameIdentity particles
          (fst (useFrame (fMounted f) (fAppState f) (fHand f) (fTime f)
                         particles)).
Proof.
  unfold useFrame. destruct (fMounted f); cbn [negb fst].
  - rewrite map_forEachFrom. apply Forall2_forEachFrom.
    intros j a. unfold sameIdentity. cbn. repeat split.
  - induction particles; constructor; auto using sameIdentity_refl.
Qed.

(** X16 -- frames move particles and nothing else.  After any sequence of
    frames the batch has the same particles in the same slots: ids,
    targets, flags, colour, size, speed and phase of each are unchanged
    (only the stored position moves).  A frame with the mesh mounted
    writes one instance per particle; a frame without it changes nothing
    and writes nothing. *)
Theorem run_keeps_identity
        (frames : list Frame) (particles : list ParticleData) :
  Forall2 sameIdentity particles (run frames particles)
  /\ List.length (run frames particles) = List.length particles
  /\ forall (appState : AppState) (hand : option Vector3) (time : R),
      List.length (snd (useFrame true appState hand time particles))
      = List.length particles
      /\ useFrame false appState hand time particles = (particles, []).
Proof.
  assert (H : Forall2 sameIdentity particles (run frames particles)).
  { unfold run. revert particles.
    induction frames as [| f frames IH]; intros particles; cbn [fold_left].
    - induction particles; constructor; auto using sameIdentity_refl.
    - eapply Forall2_sameIdentity_trans;
        [ apply (useFrame_sameIdentity f) | apply IH ]. }
  split; [ exact H | split ].
  - symmetry. eapply Forall2_length. exact H.
  - clear H. intros appState hand time. split; [ | reflexivity ].
    unfold useFrame. cbn [negb snd].
    rewrite length_map.
    generalize 0%Z. induction particles as [| a l IH]; intros i;
      [ reflexivity | ].
    cbn [forEachFrom List.length]. now rewrite IH.
Qed.

Lemma within_lerp (b : R) (p t : Vector3) :
  within b p -> within b t -> within b (lerp p t 0.08).
Proof.
  unfold within, lerp. cbn [x y z]. intros (Hx & Hy & Hz) (Tx & Ty & Tz).
  repeat split; lra.
Qed.

Lemma frameTarget_within (appState : AppState) (hand : option Vector3)
      (time : R) (p : ParticleData) :
  tameTargets p -> within 8 (frameTarget appState hand time p).
Proof.
  intros (Hs & Ht & Hh & Hr).
  assert (Hst : within 7.5 (stateTarget appState time p)
                \/ appState = SCATTER).
  { destruct appState; auto; left; unfold stateTarget; cbn [AppState_eqb].
    - unfold ribbonFlowGuard. cbn [AppState_eqb andb].
      destruct (isRibbon p);
        [ destruct (ribbonPos p) as [rp |] eqn:Erp | ];
        try (unfold within in *; intuition lra).
      specialize (Hr rp eq_refl).
      unfold ribbonFlow, within. cbn [x y z].
      set (a := (y rp + 5) / 10 * PI * 2 * 5 + time * -0.5).
      pose proof (scaled_trig_bound ((1 - (y rp + 5) / 10) * 4.2) (cos a)
                    4.2 ltac:(lra) (COS_bound a)).
      pose proof (scaled_trig_bound ((1 - (y rp + 5) / 10) * 4.2) (sin a)
                    4.2 ltac:(lra) (SIN_bound a)).
      repeat split; lra.
    - unfold within in *. intuition lra.
    - unfold ribbonFlowGuard. cbn [AppState_eqb andb].
      unfold within in *. intuition lra. }
  unfold frameTarget.
  destruct (swirls appState hand p) eqn:Esw.
  - assert (appState = SCATTER) as ->.
    { unfold swirls in Esw. destruct hand; [ | discriminate ].
      destruct appState; cbn in Esw; try discriminate. reflexivity. }
    unfold stateTarget, add, swirlOffset, within in *.
    cbn [AppState_eqb x y z].
    pose proof (COS_bound (time + IZR (id p))).
    pose proof (SIN_bound (time + IZR (id p))).
    intuition lra.
  - destruct Hst as [Hst | ->].
    + unfold within in *. intuition lra.
    + unfold stateTarget, within in *. cbn [AppState_eqb]. intuition lra.
Qed.

Lemma useFrame_keeps_cube (f : Frame) (particles : list ParticleData) :
  Forall (fun p => tameTargets p /\ within 8 (initialPos p)) particles ->
  Forall (fun p => tameTargets p /\ within 8 (initialPos p))
         (fst (useFrame (fMounted f) (fAppState f) (fHand f) (fTime f)
                        particles)).
Proof.
  intros H. unfold useFrame. destruct (fMounted f); cbn [negb fst]; auto.
  rewrite map_forEachFrom.
  apply Forall_forEachFrom
    with (P := fun p => tameTargets p /\ within 8 (initialPos p));
    [ | exact H ].
  intros j a [Ht Hw]. split; [ exact Ht | ].
  cbn [updateParticle fst withInitialPos initialPos].
  apply within_lerp; [ exact Hw | now apply frameTarget_within ].
Qed.

(** X17 -- the batch stays in a cube.  With [Math.random] in the unit
    interval, after any sequence of frames, in any application states,
    with or without a hand, at any times, every particle of the generated
    batch has its stored position in the cube of half side 8 around the
    origin. *)
Theorem generateParticles_stay_in_cube
        (random : nat -> R) (frames : list Frame) (p : ParticleData) :
  inUnit random ->
  In p (run frames (generateParticles random)) ->
  within 8 (initialPos p).
Proof.
  intros Hr Hin.
  assert (H0 : Forall (fun q => tameTargets q /\ within 8 (initialPos q))
                      (generateParticles random)).
  { apply Forall_forall. intros q Hq.
    apply In_nth_error in Hq. destruct Hq as [n Hn].
    apply generateParticles_nth in Hn. destruct Hn as [k ->].
    destruct (particleAt_tame random (Z.of_nat n) k Hr ltac:(lia))
      as (Ht & Hw & _).
    split; [ exact Ht | ]. unfold within in *. intuition lra. }
  assert (H : Forall (fun q => tameTargets q /\ within 8 (initialPos q))
                     (run frames (generateParticles random))).
  { clear Hin. unfold run. revert H0. generalize (generateParticles random).
    induction frames as [| f frames IH]; intros l Hl; cbn [fold_left];
      [ exact Hl | ].
    apply IH. now apply useFrame_keeps_cube. }
  rewrite Forall_forall in H. now apply H.
Qed.

Lemma generateParticles_stay_in_cube_witness :
  within 8 (initialPos (fst (particleAt ParticleFacts.zeroOracle 0%Z 0%nat))).
Proof.
  apply (generateParticles_stay_in_cube ParticleFacts.zeroOracle []).
  - exact zeroOracle_inUnit.
  - cbn [run fold_left]. eapply nth_error_In.
    apply generateParticles_head.
Defined.

End Batch.


(** ** More on the photo grab controller *)

Section PhotosMore.
Import THREE FloatingPhotos PhotoFacts GrabFacts.

Lemma nth_error_snoc {A : Type} (l : list A) (a c : A) (n : nat) :
  nth_error (l ++ [a]) n = Some c ->
  (n < List.length l /\ nth_error l n = Some c)%nat
  \/ (n = List.length l /\ c = a).
Proof.
  intros H. destruct (Nat.lt_ge_cases n (List.length l)) as [Hlt | Hge].
  - left. rewrite nth_error_app1 in H by exact Hlt. auto.
  - right. rewrite nth_error_app2 in H by exact Hge.
    destruct (n - List.length l)%nat as [| m] eqn:E.
    + cbn in H. injection H as <-. split; [ lia | reflexivity ].
    + cbn in H. destruct m; discriminate.
Qed.

Lemma scan_invariant (g : Group) (photos : list PhotoData) (h : Vector3)
      (l : list Child) :
  scanned g photos h l
          (foldFrom (scanChild g photos h) (Infinity, None) 0%Z l).
Proof.
  induction l as [| a l IH] using rev_ind.
  - cbn. split; [ reflexivity | ]. intros n c ph Hn. destruct n; discriminate.
  - rewrite foldFrom_app. cbn [foldFrom]. rewrite Z.add_0_l.
    set (acc := foldFrom (scanChild g photos h) (Infinity, None) 0%Z l)
      in *.
    unfold scanChild.
    destruct (arrayGet photos (Z.of_nat (List.length l))) as [photo |] eqn:Ep.
    + fold (handDistance g h a).
      destruct acc as [[| d] sel]; unfold scanned in *; cbn [fst snd] in *.
      * cbn [ltDistance]. rewrite andb_true_r.
        destruct IH as [-> Hfar].
        destruct (Rltb (handDistance g h a) 1.5) eqn:E; cbn [fst snd].
        -- apply Rltb_true_iff in E.
           exists (List.length l), a, photo. repeat split; auto.
           ++ now rewrite nth_error_app2, Nat.sub_diag by lia.
           ++ intros m c' ph' Hm Hp.
              destruct (nth_error_snoc l a c' m Hm) as [[_ Hm'] | [_ ->]];
                [ | lra ].
              specialize (Hfar m c' ph' Hm' Hp). lra.
        -- apply Rltb_false_iff in E. split; [ reflexivity | ].
           intros n c ph Hn Hp.
           destruct (nth_error_snoc l a c n Hn) as [[_ Hn'] | [_ ->]];
             [ now apply (Hfar n c ph) | exact E ].
      * destruct IH as (n & c & ph & Hsel & Hn & Hp & Hd & Hlt & Hmin).
        cbn [ltDistance].
        destruct (Rltb (handDistance g h a) 1.5) eqn:E1;
          destruct (Rltb (handDistance g h a) d) eqn:E2;
          cbn [andb fst snd].
        -- apply Rltb_true_iff in E1, E2.
           exists (List.length l), a, photo. repeat split; auto.
           ++ now rewrite nth_error_app2, Nat.sub_diag by lia.
           ++ intros m c' ph' Hm Hp'.
              destruct (nth_error_snoc l a c' m Hm) as [[_ Hm'] | [_ ->]];
                [ | lra ].
              specialize (Hmin m c' ph' Hm' Hp'). lra.
        -- apply Rltb_false_iff in E2.
           exists n, c, ph. repeat split; auto.
           ++ rewrite nth_error_app1; [ exact Hn | ].
              apply nth_error_Some. congruence.
           ++ intros m c' ph' Hm Hp'.
              destruct (nth_error_snoc l a c' m Hm) as [[_ Hm'] | [_ ->]];
                [ now apply (Hmin m c' ph') | exact E2 ].
        -- apply Rltb_false_iff in E1.
           exists n, c, ph. repeat split; auto.
           ++ rewrite nth_error_app1; [ exact Hn | ].
              apply nth_error_Some. congruence.
           ++ intros m c' ph' Hm Hp'.
              destruct (nth_error_snoc l a c' m Hm) as [[_ Hm'] | [_ ->]];
                [ now apply (Hmin m c' ph') | lra ].
        -- apply Rltb_false_iff in E1.
           exists n, c, ph. repeat split; auto.
           ++ rewrite nth_error_app1; [ exact Hn | ].
              apply nth_error_Some. congruence.
           ++ intros m c' ph' Hm Hp'.
              destruct (nth_error_snoc l a c' m Hm) as [[_ Hm'] | [_ ->]];
                [ now apply (Hmin m c' ph') | lra ].
    + destruct acc as [[| d] sel]; unfold scanned in *; cbn [fst snd] in *.
      * destruct IH as [-> Hfar]. split; [ reflexivity | ].
        intros n c ph Hn Hp.
        destruct (nth_error_snoc l a c n Hn) as [[_ Hn'] | [-> _]];
          [ now apply (Hfar n c ph) | congruence ].
      * destruct IH as (n & c & ph & Hsel & Hn & Hp & Hd & Hlt & Hmin).
        exists n, c, ph. repeat split; auto.
        -- rewrite nth_error_app1; [ exact Hn | ].
           apply nth_error_Some. congruence.
        -- intros m c' ph' Hm Hp'.
           destruct (nth_error_snoc l a c' m Hm) as [[_ Hm'] | [-> _]];
             [ now apply (Hmin m c' ph') | congruence ].
Qed.

(** X18 -- what the search for the closest photo returns.  When
    [closestId] is an id, the state is SCATTER, the pinch is on, there is
    a hand position, and the id is that of a rendered photo less than 1.5
    units from the hand and at least as close as every other rendered
    photo.  When it is null, the pinch is off, or there is no hand, or the
    state is not SCATTER, or every rendered photo is at 1.5 units or
    more. *)
Theorem findClosest_characterised
        (g : Group) (photos : list PhotoData) (appState : AppState)
        (hand : option Vector3) (isPinching : bool) :
  match findClosest g photos appState hand isPinching with
  | Some id =>
      appState = SCATTER /\ isPinching = true
      /\ exists (h : Vector3) (n : nat) (c : Child) (ph : PhotoData),
          hand = Some h
          /\ nth_error (children g) n = Some c
          /\ arrayGet photos (Z.of_nat n) = Some ph
          /\ photoId ph = id
          /\ handDistance g h c < 1.5
          /\ forall (m : nat) (c' : Child) (ph' : PhotoData),
              nth_error (children g) m = Some c' ->
              arrayGet photos (Z.of_nat m) = Some ph' ->
              handDistance g h c <= handDistance g h c'
  | None =>
      isPinching = false \/ hand = None \/ appState <> SCATTER
      \/ exists h : Vector3,
          hand = Some h
          /\ forall (n : nat) (c : Child) (ph : PhotoData),
              nth_error (children g) n = Some c ->
              arrayGet photos (Z.of_nat n) = Some ph ->
              1.5 <= handDistance g h c
  end.
Proof.
  unfold findClosest.
  destruct hand as [h |]; [ | auto ].
  destruct isPinching; [ | cbn [andb]; auto ].
  destruct appState; cbn [andb AppState_eqb];
    try (right; right; left; discriminate).
  pose proof (scan_invariant g photos h (children g)) as Inv.
  destruct (foldFrom (scanChild g photos h) (Infinity, None) 0%Z
                     (children g)) as [[| d] sel];
    unfold scanned in Inv; cbn [fst snd] in *.
  - destruct Inv as [-> Hfar]. right. right. right. exists h. auto.
  - destruct Inv as (n & c & ph & -> & Hn & Hp & Hd & Hlt & Hmin).
    repeat split; auto. exists h, n, c, ph. subst d. repeat split; auto.
Qed.

(** X19 -- no grab without a pinch in the SCATTER state.  In a frame in
    which the state is not SCATTER, or the pinch is off, or there is no
    hand position, no photo is selected: the active grab target is kept
    if the pinch is on and cleared if it is off, whatever the distances
    to the photos. *)
Theorem no_grab_outside_scatter_pinch
        (g : Group) (photos : list PhotoData) (appState : AppState)
        (hand : option Vector3) (isPinching : bool) (time : R)
        (active : option string) :
  appState <> SCATTER \/ isPinching = false \/ hand = None ->
  findClosest g photos appState hand isPinching = None
  /\ activeAfter (Some g) photos appState hand isPinching time active
     = (if isPinching then active else None).
Proof.
  intros H.
  assert (E : findClosest g photos appState hand isPinching = None).
  { unfold findClosest. destruct hand as [h |]; [ | reflexivity ].
    destruct isPinching; [ | reflexivity ].
    destruct appState; cbn; try reflexivity.
    destruct H as [H | [H | H]]; [ now contradiction H | | ]; discriminate. }
  split; [ exact E | ].
  unfold activeAfter, useFrame. cbn [snd]. rewrite E.
  unfold updateActive. cbn [truthy]. now destruct isPinching.
Qed.

Lemma no_grab_outside_scatter_pinch_witness :
  findClosest twoGroup twoPhotos TREE (Some (vec3 0 0 0)) true = None
  /\ activeAfter (Some twoGroup) twoPhotos TREE (Some (vec3 0 0 0)) true 0
                 None
     = (if true then None else None).
Proof.
  apply (no_grab_outside_scatter_pinch twoGroup twoPhotos TREE
                                       (Some (vec3 0 0 0)) true 0 None).
  left. discriminate.
Defined.

(** X20 -- at most one photo is grabbed.  When the photos have pairwise
    different ids, at most one slot holds a photo that counts as grabbed
    for a given active grab target. *)
Theorem at_most_one_grabbed
        (photos : list PhotoData) (active : option string) (i j : Z)
        (pi pj : PhotoData) :
  NoDup (map photoId photos) ->
  arrayGet photos i = Some pi ->
  arrayGet photos j = Some pj ->
  isGrabbedBy active pi = true ->
  isGrabbedBy active pj = true ->
  i = j.
Proof.
  intros Hnd Hi Hj Gi Gj.
  unfold isGrabbedBy in *. destruct active as [a |]; [ | discriminate ].
  apply String.eqb_eq in Gi, Gj.
  unfold arrayGet in *.
  destruct (i <? 0)%Z eqn:Ei; [ discriminate | ].
  destruct (j <? 0)%Z eqn:Ej; [ discriminate | ].
  apply Z.ltb_ge in Ei, Ej.
  assert (E : Z.to_nat i = Z.to_nat j).
  { rewrite NoDup_nth_error in Hnd. apply Hnd.
    - rewrite length_map. apply nth_error_Some. congruence.
    - rewrite !nth_error_map, Hi, Hj. cbn. congruence. }
  lia.
Qed.

Lemma at_most_one_grabbed_witness : 1%Z = 1%Z.
Proof.
  apply (at_most_one_grabbed twoPhotos (Some "A"%string) 1 1 photoA photoA);
    try reflexivity.
  cbn. repeat constructor; cbn; intuition discriminate.
Defined.

Lemma animateChild_scale (g : Group) (photos : list PhotoData)
      (hand : option Vector3) (time : R) (active : option string)
      (idx : Z) (c : Child) :
  scaleInRange c ->
  scaleInRange (animateChild g photos hand time active idx c).
Proof.
  unfold scaleInRange, animateChild. intros Hc.
  destruct (arrayGet photos idx) as [photo |]; [ | exact Hc ].
  unfold photoTarget.
  destruct (isGrabbedBy active photo), hand;
    cbn [childScale x]; unfold MathUtils.lerp; lra.
Qed.

(** X21 -- a frame keeps the rendered photos in shape.  A frame of the
    photo controller keeps the number of rendered photos and the group's
    transform, leaves untouched every child that has no photo in its slot
    (one that is still loading), and keeps every uniform scale that is
    between 0.35 and 4 in that range. *)
Theorem useFrame_keeps_children
        (g : Group) (photos : list PhotoData) (appState : AppState)
        (hand : option Vector3) (isPinching : bool) (time : R)
        (active : option string) :
  exists g' : Group,
    fst (useFrame (Some g) photos appState hand isPinching time active)
    = Some g'
    /\ List.length (children g') = List.length (children g)
    /\ localToWorld g' = localToWorld g
    /\ worldToLocal g' = worldToLocal g
    /\ (forall (n : nat) (c : Child),
           nth_error (children g) n = Some c ->
           arrayGet photos (Z.of_nat n) = None ->
           nth_error (children g') n = Some c)
    /\ (Forall scaleInRange (children g) ->
        Forall scaleInRange (children g')).
Proof.
  unfold useFrame. cbn [fst]. eexists. split; [ reflexivity | ].
  cbn [children localToWorld worldToLocal].
  set (a' := updateActive _ _ _).
  repeat split.
  - generalize 0%Z. induction (children g) as [| c l IH]; intros i;
      [ reflexivity | ].
    cbn [forEachFrom List.length]. now rewrite IH.
  - intros n c Hn Hp. rewrite nth_error_forEachFrom, Hn. cbn [option_map].
    rewrite Z.add_0_l. unfold animateChild. now rewrite Hp.
  - intros H. apply Forall_forEachFrom with (P := scaleInRange);
      [ | exact H ].
    intros j c Hc. now apply animateChild_scale.
Qed.

End PhotosMore.


(** ** Falling snow *)

Section Snow.
Import SnowFacts.

Lemma length_arraySet {A : Type} (l : list A) :
  forall (i : nat) (v : A), List.length (arraySet l i v) = List.length l.
Proof.
  induction l as [| a l IH]; intros i v; [ reflexivity | ].
  destruct i; cbn; [ reflexivity | now rewrite IH ].
Qed.

Lemma nth_error_arraySet {A : Type} (l : list A) :
  forall (i j : nat) (v w : A),
    nth_error (arraySet l i v) j = Some w ->
    (j = i /\ w = v) \/ nth_error l j = Some w.
Proof.
  induction l as [| a l IH]; intros i j v w H.
  - destruct i; cbn in H; destruct j; discriminate.
  - destruct i as [| i], j as [| j]; cbn in H |- *; auto.
    + injection H as <-. auto.
    + destruct (IH i j v w H) as [[-> ->] | H']; auto.
Qed.

Lemma inBox_arraySet (positions : list R) (i : nat) (v : R) :
  inBox positions ->
  (i mod 3 = 1%nat -> -10 <= v <= 10) ->
  (i mod 3 <> 1%nat -> -12.5 <= v <= 12.5) ->
  inBox (arraySet positions i v).
Proof.
  intros Hbox Hy Hxz j w Hj.
  destruct (nth_error_arraySet positions i j v w Hj) as [[-> ->] | H].
  - split; assumption.
  - now apply Hbox.
Qed.

Lemma slot_x (i : nat) : ((i * 3) mod 3 <> 1)%nat.
Proof. rewrite Nat.Div0.mod_mul. discriminate. Qed.

Lemma slot_y (i : nat) : ((i * 3 + 1) mod 3 = 1)%nat.
Proof.
  rewrite Nat.add_comm, Nat.Div0.mod_add. reflexivity.
Qed.

Lemma slot_z (i : nat) : ((i * 3 + 2) mod 3 <> 1)%nat.
Proof.
  rewrite Nat.add_comm, Nat.Div0.mod_add. discriminate.
Qed.

Lemma fall_inBox (random : nat -> R) (particles : list FallingSnow.Flake) :
  (forall k, 0 <= random k < 1) ->
  Forall flakeOk particles ->
  forall (n i : nat) (positions : list R) (k : nat),
    (i + n <= List.length particles)%nat ->
    inBox positions ->
    exists (positions' : list R) (k' : nat),
      FallingSnow.fall random n i particles positions k
      = Normal (positions', k')
      /\ inBox positions'
      /\ List.length positions' = List.length positions.
Proof.
  intros Hr Hok. induction n as [| n IH]; intros i positions k Hlen Hbox.
  - exists positions, k. auto.
  - cbn [FallingSnow.fall].
    destruct (nth_error particles i) as [p |] eqn:Ep;
      [ | apply nth_error_None in Ep; lia ].
    assert (Hp : flakeOk p).
    { rewrite Forall_forall in Hok. apply Hok.
      eapply nth_error_In. exact Ep. }
    destruct Hp as (_ & _ & _ & Hspeed).
    destruct (nth_error positions (i * 3 + 1)) as [y0 |] eqn:Ey;
      [ | apply IH; [ lia | exact Hbox ] ].
    destruct (Hbox _ _ Ey) as [Hy0 _]. specialize (Hy0 (slot_y i)).
    destruct (Rltb (y0 - FallingSnow.speed p) (-10)) eqn:E.
    + pose proof (Hr k). pose proof (Hr (S k)).
      edestruct (IH (S i)
                    (arraySet
                       (arraySet
                          (arraySet positions (i * 3)
                                    ((random k - 0.5) * 25))
                          (i * 3 + 2) ((random (S k) - 0.5) * 25))
                       (i * 3 + 1) 10)
                    (S (S k)))
        as (positions' & k' & Hrun & Hbox' & Hlen'); [ lia | | ].
      * repeat apply inBox_arraySet; auto; intros Hm;
          first [ lra
                | exfalso; now apply (slot_x i)
                | exfalso; now apply (slot_z i)
                | exfalso; apply Hm; apply slot_y ].
      * exists positions', k'.
        split; [ exact Hrun | split; [ exact Hbox' | ] ].
        now rewrite Hlen', !length_arraySet.
    + apply Rltb_false_iff in E.
      edestruct (IH (S i)
                    (arraySet positions (i * 3 + 1)
                              (y0 - FallingSnow.speed p)) k)
        as (positions' & k' & Hrun & Hbox' & Hlen'); [ lia | | ].
      * apply inBox_arraySet; auto; intros Hm;
          [ lra | exfalso; apply Hm; apply slot_y ].
      * exists positions', k'.
        split; [ exact Hrun | split; [ exact Hbox' | ] ].
        now rewrite Hlen', length_arraySet.
Qed.

Lemma makeFlakes_ok (random : nat -> R) :
  (forall k, 0 <= random k < 1) ->
  forall (count k : nat),
    List.length (fst (FallingSnow.makeFlakes random count k)) = count
    /\ Forall flakeOk (fst (FallingSnow.makeFlakes random count k)).
Proof.
  intros Hr. induction count as [| count IH]; intros k.
  - cbn. split; [ reflexivity | constructor ].
  - cbn [FallingSnow.makeFlakes].
    destruct (IH (S (S (S (S k))))) as [Hlen Hok].
    destruct (FallingSnow.makeFlakes random count (S (S (S (S k)))))
      as [rest k'].
    cbn [fst List.length] in *. split; [ now rewrite Hlen | ].
    constructor; [ | exact Hok ].
    unfold flakeOk. cbn.
    pose proof (Hr k). pose proof (Hr (S k)). pose proof (Hr (S (S k))).
    pose proof (Hr (S (S (S k)))). repeat split; lra.
Qed.

Lemma initialPositions_ok (particles : list FallingSnow.Flake) :
  Forall flakeOk particles ->
  inBox (FallingSnow.initialPositions particles)
  /\ List.length (FallingSnow.initialPositions particles)
     = (3 * List.length particles)%nat.
Proof.
  unfold FallingSnow.initialPositions.
  induction 1 as [| p l Hp _ [IHbox IHlen]].
  - split; [ | reflexivity ]. intros j v Hj. destruct j; discriminate.
  - cbn [flat_map app List.length]. split; [ | rewrite IHlen; lia ].
    destruct Hp as (Hx & Hy & Hz & _).
    intros j v Hj.
    destruct j as [| [| [| j]]]; cbn in Hj.
    + injection Hj as <-. split; [ discriminate | auto ].
    + injection Hj as <-. split; [ auto | intros H; now contradiction H ].
    + injection Hj as <-. split; [ discriminate | auto ].
    + destruct (IHbox j v Hj) as [A B].
      replace (S (S (S j))) with (j + 1 * 3)%nat by lia.
      rewrite Nat.Div0.mod_add. auto.
Qed.

(** X22 -- the snow stays in its box and the loop never fails.  With
    [Math.random] in the unit interval, starting from the generated
    flakes and their initial position buffer, any number of frames runs
    without an exception, keeps the buffer at three coordinates per
    flake, keeps every height between -10 and 10 and every other
    coordinate between -12.5 and 12.5, and turns the points by 0.0005 per
    frame. *)
Theorem snow_stays_in_box
        (random : nat -> R) (count k0 k : nat) (n : nat) :
  (forall j, 0 <= random j < 1) ->
  let particles := fst (FallingSnow.makeFlakes random count k0) in
  exists (positions : list R) (k' : nat),
    frames random n count particles
           (FallingSnow.initialPositions particles) 0 k
    = Normal (positions, INR n * 0.0005, k')
    /\ inBox positions
    /\ List.length positions = (3 * count)%nat.
Proof.
  intros Hr. cbn zeta.
  destruct (makeFlakes_ok random Hr count k0) as [Hlen Hok].
  set (particles := fst (FallingSnow.makeFlakes random count k0)) in *.
  destruct (initialPositions_ok particles Hok) as [Hbox0 Hlen0].
  rewrite Hlen in Hlen0.
  assert (G : forall (m : nat) (positions : list R) (rot : R) (k1 : nat),
             inBox positions ->
             List.length positions = (3 * count)%nat ->
             exists (positions' : list R) (k' : nat),
               frames random m count particles positions rot k1
               = Normal (positions', rot + INR m * 0.0005, k')
               /\ inBox positions'
               /\ List.length positions' = (3 * count)%nat).
  { induction m as [| m IH]; intros positions rot k1 Hb Hl.
    - exists positions, k1. cbn [frames INR].
      replace (rot + 0 * 0.0005) with rot by ring. auto.
    - cbn [frames]. unfold FallingSnow.useFrame. cbn [negb].
      destruct (fall_inBox random particles Hr Hok count 0 positions k1
                           ltac:(lia) Hb)
        as (p1 & k2 & Hrun & Hb1 & Hl1).
      rewrite Hrun. cbn [bind fst snd].
      destruct (IH p1 (rot + 0.0005) k2 Hb1 ltac:(congruence))
        as (p2 & k3 & Hrun2 & Hb2 & Hl2).
      exists p2, k3. rewrite Hrun2.
      split; [ | split; [ exact Hb2 | exact Hl2 ] ].
      replace (rot + INR (S m) * 0.0005)
        with (rot + 0.0005 + INR m * 0.0005) by (rewrite S_INR; ring).
      reflexivity. }
  destruct (G n (FallingSnow.initialPositions particles) 0 k Hbox0 Hlen0)
    as (positions & k' & Hrun & Hb & Hl).
  exists positions, k'. rewrite Hrun.
  split; [ | split; [ exact Hb | exact Hl ] ].
  replace (0 + INR n * 0.0005) with (INR n * 0.0005) by ring.
  reflexivity.
Qed.

Lemma snow_stays_in_box_witness :
  let particles := fst (FallingSnow.makeFlakes (fun _ => 0) 2 0) in
  exists (positions : list R) (k' : nat),
    frames (fun _ => 0) 3 2 particles
           (FallingSnow.initialPositions particles) 0 8
    = Normal (positions, INR 3 * 0.0005, k')
    /\ inBox positions
    /\ List.length positions = (3 * 2)%nat.
Proof.
  apply (snow_stays_in_box (fun _ => 0) 2 0 8 3).
  intros j. lra.
Defined.

End Snow.

(* ================================================================== *)
(** ** Rounded arithmetic *)

Section RoundingLaws.
Variable rnd : R -> R.
Hypothesis Hr : Rounding rnd.

Lemma rnd_zero : rnd 0 = 0.
Proof.
  pose proof (rnd_double rnd Hr 0) as H.
  rewrite Rabs_R0 in H. specialize (H ltac:(lra)).
  revert H. unfold Rabs. destruct (Rcase_abs (rnd 0)); lra.
Qed.

Lemma rnd_nonneg (a : R) : 0 <= a -> 0 <= rnd a.
Proof.
  intros H. rewrite <- rnd_zero. now apply (rnd_monotone rnd Hr).
Qed.


Lemma rnd_close_pos (a : R) :
  0 <= a <= 1e100 ->
  a - (1e-15 * a + 1e-100) <= rnd a <= a + (1e-15 * a + 1e-100)
  /\ 0 <= rnd a <= 2 * a.
Proof.
  intros [H0 H1].
  pose proof (rnd_error rnd Hr a) as E.
  pose proof (rnd_double rnd Hr a) as D.
  pose proof (rnd_nonneg a H0) as N.
  rewrite (Rabs_right a) in E, D by lra.
  specialize (E H1). specialize (D H1).
  rewrite (Rabs_right (rnd a)) in D by lra.
  revert E. unfold Rabs. destruct (Rcase_abs (rnd a - a)); lra.
Qed.


End RoundingLaws.

(** Exact arithmetic is an instance of the rounded one. *)
Lemma Rounding_exact : Rounding (fun a : R => a).
Proof.
  constructor.
  - intros a b H. exact H.
  - reflexivity.
  - intros a _. replace (a - a) with 0 by ring. rewrite Rabs_R0.
    pose proof (Rabs_pos a). lra.
  - intros a _. pose proof (Rabs_pos a). lra.
Qed.

Lemma Squaring_exact : Squaring Math_pow.
Proof.
  constructor; intros b; unfold Math_pow.
  - apply pow2_ge_0.
  - intros _. replace (b ^ 2 - b * b) with 0 by ring. rewrite Rabs_R0.
    pose proof (Rle_0_sqr b) as H. unfold Rsqr in H. lra.
Qed.

(** With the identity for [rnd] and the exact functions for [Math.pow],
    [Math.sin] and [Math.cos], the rounded definitions are the exact
    ones. *)
Lemma classifyGesture_exact (r : HandRecognition.HandLandmarkerResult) :
  Rounded.classifyGesture (fun a => a) Math_pow r
  = HandRecognition.classifyGesture r.
Proof. reflexivity. Qed.

Lemma useFrame_exact (meshMounted : bool) (appState : AppState)
      (handPosition : option THREE.Vector3) (time : R)
      (particles : list ParticleData) :
  Rounded.useFrame (fun a => a) sin cos meshMounted appState handPosition
                   time particles
  = MagicParticles.useFrame meshMounted appState handPosition time
                            particles.
Proof. reflexivity. Qed.

(** *** The particle integrator on rounded numbers *)

Section RoundedIntegrator.
Import THREE BatchFacts RoundedFacts.
Variable rnd : R -> R.
Hypothesis Hr : Rounding rnd.


Lemma scale_between (d a lo hi : R) :
  0 <= d -> lo <= a <= hi -> lo * d <= d * a <= hi * d.
Proof. intros Hd Ha. nra. Qed.




End RoundedIntegrator.

Section RoundedRun.
Import THREE BatchFacts RoundedFacts.
Variable rnd : R -> R.
Hypothesis Hr : Rounding rnd.
Variable Math_sin : R -> R.
Variable Math_cos : R -> R.

Lemma Rabs_bounds (a m : R) : Rabs a <= m <-> - m <= a <= m.
Proof. unfold Rabs. destruct (Rcase_abs a); lra. Qed.












End RoundedRun.

Section IntegratorClaim.
Import THREE BatchFacts RoundedFacts.



End IntegratorClaim.

Section IntegratorBinary64.
Import PrimFloat Binary64.


End IntegratorBinary64.

(** *** The gesture classifier on rounded numbers *)

Section RoundedDistance.
Import HandRecognition HandFacts RoundedFacts.
Variable rnd : R -> R.
Hypothesis Hr : Rounding rnd.
Variable power : R -> nat -> R.
Hypothesis Hp : Squaring power.

Lemma product_bound (s t e m : R) :
  - e <= s <= e -> 0 <= t <= m -> - (e * m) <= s * t <= e * m.
Proof. intros Hs Ht. nra. Qed.

Lemma rnd_abs (a : R) :
  Rabs a <= 1e100 ->
  - (1e-15 * Rabs a + 1e-100) <= rnd a - a <= 1e-15 * Rabs a + 1e-100
  /\ Rabs (rnd a) <= 2 * Rabs a.
Proof.
  intros H. split; [ | now apply (rnd_double rnd Hr) ].
  apply Rabs_bounds. now apply (rnd_error rnd Hr).
Qed.

(** The rounded square of a rounded difference. *)
Lemma square_error (d : R) :
  - (2e30) <= d <= 2e30 ->
  let p := power (rnd d) 2 in
  0 <= p
  /\ d * d * (1 - 8e-15) - 1e-69 <= p <= d * d * (1 + 8e-15) + 1e-69.
Proof.
  intros Hd p. split; [ apply (pow_nonneg power Hp) | ].
  assert (Ad : Rabs d <= 2e30) by (apply Rabs_bounds; exact Hd).
  destruct (rnd_abs d ltac:(lra)) as [E1 E2].
  set (u := rnd d) in *.
  assert (Au : Rabs u <= 1e40) by lra.
  pose proof (pow_error power Hp u Au) as E3. fold p in E3.
  apply Rabs_bounds in E3.
  pose proof (Rsqr_abs d) as Q. unfold Rsqr in Q.
  pose proof (Rabs_pos d) as P0.
  assert (S1 : Rabs (u + d) <= 3 * Rabs d).
  { eapply Rle_trans; [ apply Rabs_triang | lra ]. }
  assert (T : - ((1e-15 * Rabs d + 1e-100) * (3 * Rabs d))
              <= u * u - d * d
              <= (1e-15 * Rabs d + 1e-100) * (3 * Rabs d)).
  { replace (u * u - d * d) with ((u - d) * (u + d)) by ring.
    destruct (Rle_or_lt 0 (u + d)) as [S | S].
    - apply product_bound; [ exact E1 | ].
      rewrite Rabs_right in S1 by lra. lra.
    - replace ((u - d) * (u + d)) with ((d - u) * - (u + d)) by ring.
      apply product_bound; [ lra | ].
      rewrite Rabs_left in S1 by lra. lra. }
  set (a := Rabs d) in *.
  assert (A2 : 0 <= a * a) by (apply Rmult_le_pos; lra).
  assert (A3 : a * 1e-100 <= 2e-70) by lra.
  assert (T' : - (3e-15 * (a * a) + 6e-70) <= u * u - d * d
               <= 3e-15 * (a * a) + 6e-70).
  { replace ((1e-15 * a + 1e-100) * (3 * a))
      with (3e-15 * (a * a) + 3 * (a * 1e-100)) in T by field.
    lra. }
  rewrite Q. rewrite Q in T'. lra.
Qed.

Lemma square_bound (d m : R) : - m <= d <= m -> 0 <= d * d <= m * m.
Proof. intros H. nra. Qed.

Lemma sqrt_le_of_sq (r U : R) : 0 <= U -> r <= U * U -> sqrt r <= U.
Proof.
  intros HU H. rewrite <- (sqrt_square U HU). now apply sqrt_le_1_alt.
Qed.

Lemma sqrt_ge_of_sq (r L : R) : L * L <= r -> L <= sqrt r.
Proof.
  intros H. destruct (Rle_or_lt 0 L) as [HL | HL].
  - rewrite <- (sqrt_square L HL). now apply sqrt_le_1_alt.
  - pose proof (sqrt_pos r). lra.
Qed.

(** The distance helper is within 2e-14 of the planar distance, up to
    2e-34. *)
Lemma dist_error (a b : NormalizedLandmark) :
  Rabs (x a) <= 1e30 -> Rabs (y a) <= 1e30 ->
  Rabs (x b) <= 1e30 -> Rabs (y b) <= 1e30 ->
  exists dR : R,
    Rounded.dist rnd power (Some a) (Some b) = Normal dR
    /\ 0 <= dR
    /\ planar a b <= 1e31
    /\ planar a b * (1 - 2e-14) - 2e-34 <= dR
       <= planar a b * (1 + 2e-14) + 2e-34.
Proof.
  intros Xa Ya Xb Yb.
  apply Rabs_bounds in Xa, Ya, Xb, Yb.
  eexists. split; [ reflexivity | ].
  assert (Hx : - (2e30) <= x a - x b <= 2e30) by lra.
  assert (Hy : - (2e30) <= y a - y b <= 2e30) by lra.
  destruct (square_error (x a - x b) Hx) as [P0 P1].
  destruct (square_error (y a - y b) Hy) as [Q0 Q1].
  set (p := power (rnd (x a - x b)) 2) in *.
  set (q := power (rnd (y a - y b)) 2) in *.
  set (dx := x a - x b) in *. set (dy := y a - y b) in *.
  pose proof (square_bound dx 2e30 Hx) as Dx.
  pose proof (square_bound dy 2e30 Hy) as Dy.
  assert (ES : planar a b = sqrt (dx * dx + dy * dy)).
  { unfold planar, Math_pow. f_equal.
    unfold dx, dy. ring. }
  set (S := dx * dx + dy * dy) in *.
  assert (S0 : 0 <= S <= 8e60) by (unfold S; lra).
  assert (R0 : S * (1 - 8e-15) - 2e-69 <= p + q <= S * (1 + 8e-15) + 2e-69)
    by (unfold S; lra).
  destruct (rnd_close_pos rnd Hr (p + q) ltac:(lra)) as [R1 R2].
  set (r := rnd (p + q)) in *.
  set (D := planar a b) in *.
  assert (D0 : 0 <= D) by (rewrite ES; apply sqrt_pos).
  assert (DD : D * D = S) by (rewrite ES; apply sqrt_sqrt; lra).
  assert (D1 : D <= 1e31).
  { rewrite ES. apply sqrt_le_of_sq; lra. }
  assert (G1 : sqrt r <= D * (1 + 1e-14) + 1e-34).
  { apply sqrt_le_of_sq; [ lra | ].
    replace ((D * (1 + 1e-14) + 1e-34) * (D * (1 + 1e-14) + 1e-34))
      with (S * ((1 + 1e-14) * (1 + 1e-14))
            + 2 * (1 + 1e-14) * 1e-34 * D + 1e-34 * 1e-34)
      by (rewrite <- DD; field).
    lra. }
  assert (G2 : D * (1 - 1e-14) - 1e-34 <= sqrt r).
  { destruct (Rle_or_lt (D * (1 - 1e-14) - 1e-34) 0) as [L | L].
    - pose proof (sqrt_pos r). lra.
    - apply sqrt_ge_of_sq.
      replace ((D * (1 - 1e-14) - 1e-34) * (D * (1 - 1e-14) - 1e-34))
        with (S * ((1 - 1e-14) * (1 - 1e-14))
              - 2 * 1e-34 * (D * (1 - 1e-14)) + 1e-34 * 1e-34)
        by (rewrite <- DD; field).
      lra. }
  pose proof (sqrt_pos r) as G0.
  destruct (rnd_close_pos rnd Hr (sqrt r) ltac:(lra)) as [F1 F2].
  split; [ lra | split; [ exact D1 | lra ] ].
Qed.

End RoundedDistance.

Section RoundedDecision.
Import HandRecognition HandFacts RoundedFacts.
Variable rnd : R -> R.
Hypothesis Hr : Rounding rnd.
Variable power : R -> nat -> R.
Hypothesis Hp : Squaring power.

(** The rounded threshold [safeScale * c] is within 1e-13 of the exact
    one. *)
Lemma threshold_error (P palmR c : R) :
  c = 1.35 \/ c = 0.65 ->
  0.01 <= P <= 1e31 -> 0 <= palmR ->
  P * (1 - 2e-14) - 2e-34 <= palmR <= P * (1 + 2e-14) + 2e-34 ->
  P * c * (1 - 1e-13) <= rnd (palmR * rnd c) <= P * c * (1 + 1e-13).
Proof.
  intros Hc HP H0 Hpalm.
  assert (C : c * (1 - 1e-15) - 1e-100 <= rnd c
              <= c * (1 + 1e-15) + 1e-100).
  { destruct (rnd_close_pos rnd Hr c ltac:(destruct Hc; lra)) as [C _].
    lra. }
  pose proof (scale_between palmR (rnd c) _ _ H0 C) as M.
  assert (M0 : 0 <= palmR * rnd c <= 1e100) by (destruct Hc; subst c; lra).
  destruct (rnd_close_pos rnd Hr (palmR * rnd c) M0) as [E _].
  destruct Hc; subst c; lra.
Qed.

(** A rounded comparison of a distance that is clear of its threshold
    gives what the exact one gives. *)
Lemma rounded_test (D dR P T c : R) :
  clearOf D P c -> 0.005 <= P * c ->
  D * (1 - 2e-14) - 2e-34 <= dR <= D * (1 + 2e-14) + 2e-34 ->
  P * c * (1 - 1e-13) <= T <= P * c * (1 + 1e-13) ->
  Rltb dR T = Rltb D (P * c).
Proof.
  intros [Hc | Hc] HX HD HT; set (X := P * c) in *.
  - replace (Rltb D X) with true by (symmetry; apply Rltb_true_iff; lra).
    apply Rltb_true_iff. lra.
  - replace (Rltb D X) with false by (symmetry; apply Rltb_false_iff; lra).
    apply Rltb_false_iff. lra.
Qed.

Lemma bounded_joint (hand : list NormalizedLandmark) (i : nat)
      (l : NormalizedLandmark) :
  boundedHand hand -> nth_error hand i = Some l ->
  Rabs (x l) <= 1e30 /\ Rabs (y l) <= 1e30.
Proof.
  intros Hb Hi. unfold boundedHand in Hb.
  rewrite Forall_forall in Hb. apply Hb. eapply nth_error_In. exact Hi.
Qed.

(** On a bounded hand whose palm is clear of the clamp and whose five
    distances are clear of their thresholds, the rounded classifier
    returns the tag of the exact decision. *)
Lemma classifyHand_rounded hand w th ix mi ri pk mcp :
  nth_error hand 0 = Some w ->
  nth_error hand 4 = Some th ->
  nth_error hand 8 = Some ix ->
  nth_error hand 12 = Some mi ->
  nth_error hand 16 = Some ri ->
  nth_error hand 20 = Some pk ->
  nth_error hand 9 = Some mcp ->
  boundedHand hand ->
  0.01 * (1 + 1e-6) <= planar w mcp ->
  offThresholds hand ->
  typeOf (Rounded.classifyHand rnd power hand)
  = Some (type (decide w th ix mi ri pk mcp)).
Proof.
  intros H0 H4 H8 H12 H16 H20 H9 Hb Hpalm Hoff.
  unfold offThresholds in Hoff.
  rewrite H0, H4, H8, H12, H16, H20, H9 in Hoff.
  destruct Hoff as [Ci [Cm [Cr [Cp Ct]]]].
  destruct (bounded_joint hand 0 w Hb H0) as [Wx Wy].
  destruct (bounded_joint hand 4 th Hb H4) as [Tx Ty].
  destruct (bounded_joint hand 8 ix Hb H8) as [Ix Iy].
  destruct (bounded_joint hand 12 mi Hb H12) as [Mx My].
  destruct (bounded_joint hand 16 ri Hb H16) as [Rx Ry].
  destruct (bounded_joint hand 20 pk Hb H20) as [Px Py].
  destruct (bounded_joint hand 9 mcp Hb H9) as [Cx Cy].
  destruct (dist_error rnd Hr power Hp w mcp Wx Wy Cx Cy)
    as [palmR [Epalm [Npalm [P1 Bpalm]]]].
  destruct (dist_error rnd Hr power Hp th ix Tx Ty Ix Iy)
    as [dt [Et [_ [_ Bt]]]].
  destruct (dist_error rnd Hr power Hp ix w Ix Iy Wx Wy)
    as [di [Ei [_ [_ Bi]]]].
  destruct (dist_error rnd Hr power Hp mi w Mx My Wx Wy)
    as [dm [Em [_ [_ Bm]]]].
  destruct (dist_error rnd Hr power Hp ri w Rx Ry Wx Wy)
    as [dr [Er [_ [_ Br]]]].
  destruct (dist_error rnd Hr power Hp pk w Px Py Wx Wy)
    as [dp [Ep [_ [_ Bp]]]].
  set (P := planar w mcp) in *.
  assert (Clamp : Rounded.safeScaleOf rnd palmR = palmR).
  { unfold Rounded.safeScaleOf.
    destruct (rnd_close_pos rnd Hr 0.01 ltac:(lra)) as [C _].
    replace (Rltb palmR (rnd 0.01)) with false; [ reflexivity | ].
    symmetry. apply Rltb_false_iff. lra. }
  assert (T135 := threshold_error P palmR 1.35 (or_introl eq_refl)
                    ltac:(lra) Npalm Bpalm).
  assert (T065 := threshold_error P palmR 0.65 (or_intror eq_refl)
                    ltac:(lra) Npalm Bpalm).
  unfold Rounded.classifyHand, decide, countCurled, curledIn.
  rewrite H0, H4, H8, H12, H16, H20, H9.
  rewrite Epalm. cbn [bind]. rewrite Et. cbn [bind filterM].
  rewrite Ei, Em, Er, Ep. cbn [bind]. rewrite Clamp.
  rewrite (rounded_test _ di P _ 1.35 Ci ltac:(lra) Bi T135).
  rewrite (rounded_test _ dm P _ 1.35 Cm ltac:(lra) Bm T135).
  rewrite (rounded_test _ dr P _ 1.35 Cr ltac:(lra) Br T135).
  rewrite (rounded_test _ dp P _ 1.35 Cp ltac:(lra) Bp T135).
  rewrite (rounded_test _ dt P _ 0.65 Ct ltac:(lra) Bt T065).
  fold P. rewrite (safeScaleOf_id P ltac:(lra)).
  cbn [filter].
  destruct (Rltb (planar ix w) (P * 1.35)),
    (Rltb (planar mi w) (P * 1.35)),
    (Rltb (planar ri w) (P * 1.35)),
    (Rltb (planar pk w) (P * 1.35));
    cbn [List.length Nat.eqb Nat.leb bind deref];
    destruct (Rltb (planar th ix) (P * 0.65)); reflexivity.
Qed.

Lemma clearOf_scale (k d s c : R) :
  0 < k -> clearOf d s c -> clearOf (k * d) (k * s) c.
Proof.
  intros Hk [H | H]; [ left | right ].
  - replace (k * s * c * (1 - 1e-6)) with (k * (s * c * (1 - 1e-6)))
      by ring.
    now apply Rmult_lt_compat_l.
  - replace (k * s * c * (1 + 1e-6)) with (k * (s * c * (1 + 1e-6)))
      by ring.
    now apply Rmult_lt_compat_l.
Qed.

End RoundedDecision.

Section ClassifierClaim.
Import HandRecognition HandFacts RoundedFacts.

(** Replaces [Rabs e] by [e] or [- e] for a closed [e]. *)
Ltac abs_of_literal :=
  repeat match goal with
    | |- context [Rabs ?e] =>
        first [ rewrite (Rabs_right e) by lra
              | rewrite (Rabs_left e) by lra ]
    end.

(** Proves [boundedHand] of a hand given joint by joint. *)
Ltac bounded_joints :=
  repeat (apply Forall_cons;
          [ split; cbn [x y]; apply Rabs_bounds; lra | ]);
  apply Forall_nil.

Lemma offThresholds_scale (hand : list NormalizedLandmark) (k : R) :
  0 < k -> offThresholds hand -> offThresholds (scaleHand k hand).
Proof.
  intros Hk. unfold offThresholds.
  destruct (nth_error hand 0) as [w |] eqn:H0; [ | easy ].
  destruct (nth_error hand 4) as [th |] eqn:H4; [ | easy ].
  destruct (nth_error hand 8) as [ix |] eqn:H8; [ | easy ].
  destruct (nth_error hand 12) as [mi |] eqn:H12; [ | easy ].
  destruct (nth_error hand 16) as [ri |] eqn:H16; [ | easy ].
  destruct (nth_error hand 20) as [pk |] eqn:H20; [ | easy ].
  destruct (nth_error hand 9) as [mcp |] eqn:H9; [ | easy ].
  rewrite (scaleHand_joint hand k 0 w w H0 H0),
    (scaleHand_joint hand k 4 w th H0 H4),
    (scaleHand_joint hand k 8 w ix H0 H8),
    (scaleHand_joint hand k 12 w mi H0 H12),
    (scaleHand_joint hand k 16 w ri H0 H16),
    (scaleHand_joint hand k 20 w pk H0 H20),
    (scaleHand_joint hand k 9 w mcp H0 H9).
  cbv zeta. rewrite !planar_scale by lra.
  intros [Ci [Cm [Cr [Cp Ct]]]].
  repeat split; apply clearOf_scale; assumption.
Qed.

(** C3, amended -- scale invariance away from the clamp and from the
    thresholds.  The arithmetic is rounded by any [rnd] with the
    properties [Rounding], and [Math.pow] is any function with the
    properties [Squaring].  For every hand of 21 joints with coordinates
    of magnitude at most 1e30 and every positive factor [k] for which the
    scaled hand has such coordinates too: if the palm size and the scaled
    palm size are at least 0.01 * (1 + 1e-6), and none of the five
    distances the classifier compares is within one millionth of its
    threshold (1.35 times the palm size for the four finger tips, 0.65
    times for the thumb tip), then scaling all joints about the wrist by
    [k] leaves the gesture tag returned by [classifyGesture] unchanged,
    and the tag is the one that exact arithmetic gives. *)
Theorem classifyGesture_scale_invariant_clear
        (rnd : R -> R) (power : R -> nat -> R)
        (hand : list NormalizedLandmark)
        (others : list (list NormalizedLandmark)) (k palm : R) :
  Rounding rnd -> Squaring power ->
  List.length hand = 21%nat ->
  palmSizeOf hand = Some palm ->
  0 < k ->
  0.01 * (1 + 1e-6) <= palm -> 0.01 * (1 + 1e-6) <= k * palm ->
  boundedHand hand -> boundedHand (scaleHand k hand) ->
  offThresholds hand ->
  typeOf (Rounded.classifyGesture
            rnd power (scaleResult k (mkResult (Some (hand :: others)))))
  = typeOf (Rounded.classifyGesture
              rnd power (mkResult (Some (hand :: others))))
  /\ typeOf (Rounded.classifyGesture
               rnd power (mkResult (Some (hand :: others))))
     = typeOf (classifyGesture (mkResult (Some (hand :: others)))).
Proof.
  intros Hr Hp Hlen Hpalm Hk Hpm Hkp Hb Hkb Hoff.
  destruct (joint_present hand 0 Hlen ltac:(lia)) as [w H0].
  destruct (joint_present hand 4 Hlen ltac:(lia)) as [th H4].
  destruct (joint_present hand 8 Hlen ltac:(lia)) as [ix H8].
  destruct (joint_present hand 12 Hlen ltac:(lia)) as [mi H12].
  destruct (joint_present hand 16 Hlen ltac:(lia)) as [ri H16].
  destruct (joint_present hand 20 Hlen ltac:(lia)) as [pk H20].
  destruct (joint_present hand 9 Hlen ltac:(lia)) as [mcp H9].
  unfold palmSizeOf in Hpalm. rewrite H0, H9 in Hpalm.
  injection Hpalm as <-.
  unfold Rounded.classifyGesture, classifyGesture, scaleResult.
  cbn [landmarks option_map map].
  rewrite (classifyHand_rounded rnd Hr power Hp hand _ _ _ _ _ _ _
             H0 H4 H8 H12 H16 H20 H9 Hb Hpm Hoff).
  rewrite (classifyHand_rounded rnd Hr power Hp (scaleHand k hand)
             _ _ _ _ _ _ _
             (scaleHand_joint hand k 0 w w H0 H0)
             (scaleHand_joint hand k 4 w th H0 H4)
             (scaleHand_joint hand k 8 w ix H0 H8)
             (scaleHand_joint hand k 12 w mi H0 H12)
             (scaleHand_joint hand k 16 w ri H0 H16)
             (scaleHand_joint hand k 20 w pk H0 H20)
             (scaleHand_joint hand k 9 w mcp H0 H9) Hkb
             ltac:(rewrite planar_scale by lra; exact Hkp)
             (offThresholds_scale hand k Hk Hoff)).
  rewrite (classifyHand_decide hand _ _ _ _ _ _ _ H0 H4 H8 H12 H16 H20 H9).
  cbn [typeOf].
  split; [ f_equal; apply decide_scale; lra | reflexivity ].
Qed.

Lemma classifyGesture_scale_invariant_clear_witness :
  typeOf (Rounded.classifyGesture
            (fun a => a) Math_pow
            (scaleResult 2 (mkResult (Some [openHand]))))
  = typeOf (Rounded.classifyGesture
              (fun a => a) Math_pow (mkResult (Some [openHand])))
  /\ typeOf (Rounded.classifyGesture
               (fun a => a) Math_pow (mkResult (Some [openHand])))
     = typeOf (classifyGesture (mkResult (Some [openHand]))).
Proof.
  apply (classifyGesture_scale_invariant_clear
           (fun a => a) Math_pow openHand [] 2
           (planar (landmark 0.5 0.5 0) (landmark 0.6 0.5 0))).
  - exact Rounding_exact.
  - exact Squaring_exact.
  - reflexivity.
  - reflexivity.
  - lra.
  - rewrite planar_horizontal by reflexivity. cbn [x y].
    abs_of_literal. lra.
  - rewrite planar_horizontal by reflexivity. cbn [x y].
    abs_of_literal. lra.
  - unfold boundedHand, openHand, handOf. bounded_joints.
  - unfold boundedHand, scaleHand, openHand, handOf, scaleAbout.
    cbn [map x y z]. bounded_joints.
  - unfold offThresholds, openHand, handOf, clearOf. cbn [nth_error].
    rewrite !planar_horizontal by reflexivity. cbn [x y].
    abs_of_literal. repeat split; right; lra.
Defined.

End ClassifierClaim.

Section ClassifierBinary64.
Import PrimFloat Binary64.

(** Away from the clamp the tag can still change on binary64 values.
    The four finger tips of [thresholdHand] are at 1.35 times the palm
    size from the wrist; the rounded threshold is that distance and the
    hand is an OPEN_PALM.  Scaled by 3 about the wrist, the rounded
    threshold is above the distance and the hand is a CLOSED_FIST. *)
Lemma classifyGesture_flips_on_threshold :
  typeOf (classifyGesture (Some [thresholdHand])) = Some OPEN_PALM
  /\ scaleHand 3 thresholdHand = thresholdHandTimes3
  /\ typeOf (classifyGesture (Some [thresholdHandTimes3]))
     = Some CLOSED_FIST.
Proof. repeat split; vm_compute; reflexivity. Qed.

(** A hand clear of the clamp and of the thresholds keeps its tag on
    binary64 values, here under scaling by 2 and by 1/2. *)
Lemma classifyGesture_keeps_clear_hand :
  typeOf (classifyGesture (Some [clearHand])) = Some OPEN_PALM
  /\ typeOf (classifyGesture (Some [scaleHand 2 clearHand]))
     = Some OPEN_PALM
  /\ typeOf (classifyGesture (Some [scaleHand 0.5 clearHand]))
     = Some OPEN_PALM.
Proof. repeat split; vm_compute; reflexivity. Qed.

End ClassifierBinary64.
